(** * The BlueZ interactive shell: a shallow embedding of src/shared/shell.c

    The file follows the C source function by function.  The process-wide
    statics ([data], [main_loop], the [terminated] flag of [signal_read], the
    iteration statics of [cmd_generator]) and the part of GNU Readline's state
    the shell reads or writes are fields of one record, [shell], threaded
    through a small state monad.  Everything the shell does to its
    collaborators (terminal output, redisplay requests, loop-stop requests,
    calls into application callbacks) is appended to [trace]. *)

From Stdlib Require Import String Ascii List ZArith Lia Bool.
From stdpp Require Import base list strings.
Import ListNotations.
Open Scope string_scope.
Open Scope list_scope.

(** ** C strings and the libc functions the shell calls *)

(** A C string is modelled by [string]; its characters are never NUL. *)
Definition nl : string := String "010"%char EmptyString.
Definition cr : string := String "013"%char EmptyString.
Definition NUL : ascii := "000"%char.

Definition strlen (s : string) : nat := String.length s.

(** [strcmp] is only ever tested against zero: its sign is kept, its
    magnitude is not. *)
Definition strcmp (a b : string) : Z :=
  match String.compare a b with
  | Eq => 0
  | Lt => -1
  | Gt => 1
  end.

Definition strndup (s : string) (n : nat) : string := String.substring 0 n s.

Definition strncmp (a b : string) (n : nat) : Z :=
  strcmp (String.substring 0 n a) (String.substring 0 n b).

Fixpoint mem_ascii (c : ascii) (set : string) : bool :=
  match set with
  | EmptyString => false
  | String d set' => if Ascii.eqb c d then true else mem_ascii c set'
  end.

(** Length of the longest prefix of [s] made of characters of [accept]. *)
Fixpoint strspn (s accept : string) : nat :=
  match s with
  | EmptyString => 0
  | String c s' => if mem_ascii c accept then S (strspn s' accept) else 0
  end.

(** Length of the longest prefix of [s] free of characters of [reject]. *)
Fixpoint strcspn (s reject : string) : nat :=
  match s with
  | EmptyString => 0
  | String c s' => if mem_ascii c reject then 0 else S (strcspn s' reject)
  end.

Definition str_drop (n : nat) (s : string) : string :=
  String.substring n (String.length s - n) s.

(** [strtok_r (s, delim, &save)] on a first call ([s] not NULL), as glibc
    implements it: leading delimiters are skipped, the token runs to the next
    delimiter, exactly that one delimiter is overwritten, and [save] is left
    pointing just behind it (at the terminator when the token ends the
    string).  The result is the token and the value left in [save]. *)
Definition strtok_r (s delim : string) : option string * option string :=
  match s with
  | EmptyString => (None, Some s)
  | _ =>
    let s1 := str_drop (strspn s delim) s in
    match s1 with
    | EmptyString => (None, Some s1)
    | _ =>
      let n := strcspn s1 delim in
      let tok := String.substring 0 n s1 in
      match str_drop n s1 with
      | EmptyString => (Some tok, Some EmptyString)
      | String _ rest => (Some tok, Some rest)
      end
    end
  end.

(** [isprint] in the C locale. *)
Definition isprint (b : Byte.byte) : bool :=
  let n := Byte.to_N b in ((32 <=? n) && (n <=? 126))%N.

(** The last character of a string, and the string without it. *)
Fixpoint str_last (s : string) : option ascii :=
  match s with
  | EmptyString => None
  | String c EmptyString => Some c
  | String _ s' => str_last s'
  end.

Fixpoint str_removelast (s : string) : string :=
  match s with
  | EmptyString => EmptyString
  | String c EmptyString => EmptyString
  | String c s' => String c (str_removelast s')
  end.

(** A pointer tested against NULL. *)
Definition is_null {A} (p : option A) : bool :=
  match p with
  | None => true
  | Some _ => false
  end.

(** ** Menu entries *)

(** Modelled from the spec: the function pointer types of shell.h
    ([bt_shell_prompt_input_func], [bt_shell_menu_gen_t],
    [bt_shell_menu_disp_t]).  Functions of the embedding application are
    known to the shell only as pointers; they are identified by numbers. *)
Definition prompt_func := nat.
Definition gen_func := nat.
Definition disp_func := nat.

(** [bt_shell_menu_cb_t]: the three handlers defined in shell.c, or a handler
    of the application. *)
Inductive menu_cb : Type :=
| CbVersion
| CbQuit
| CbHelp
| CbApp (id : nat).

(** Modelled from the spec: [struct bt_shell_menu_entry] of shell.h, with
    the fields of the specification's MenuEntry in the order of the
    initialisers of [default_menu]; a NULL pointer field is [None].  A
    table is the list of entries in front of the terminating [{ }] entry. *)
Record bt_shell_menu_entry : Type := mkEntry {
  entry_cmd : string;
  entry_arg : option string;
  entry_func : option menu_cb;
  entry_desc : option string;
  entry_gen : option gen_func;
  entry_disp : option disp_func
}.

Definition default_menu : list bt_shell_menu_entry :=
  [ mkEntry "version" None (Some CbVersion) (Some "Display version") None None;
    mkEntry "quit" None (Some CbQuit) (Some "Quit program") None None;
    mkEntry "exit" None (Some CbQuit) (Some "Quit program") None None;
    mkEntry "help" None (Some CbHelp)
            (Some "Display help about this program") None None ].

(** ** Observable actions *)

Inductive event : Type :=
| Printf (s : string)
| Perror (s : string)
| RlSavePrompt
| RlRestorePrompt
| RlMessage (s : string)
| RlSetPrompt (s : string)
| RlRedisplay
| RlForcedUpdateDisplay
| RlCrlf
| RlOnNewLine
| RlCallbackHandlerRemove
| MainLoopQuit
| MainLoopUnref
| IoNew (fd : Z)
| IoDestroy (fd : Z)
| CallPrompt (f : prompt_func) (input : string) (user_data : Z)
| CallCmd (f : nat) (arg : option string)
| CallGen (g : gen_func) (text : string).

(** ** The state *)

(** The file-static [data].  A [struct io *] is identified with the
    descriptor it wraps; [void *user_data] is an address, NULL being 0. *)
Record shell_data : Type := mkData {
  data_input : option Z;
  data_saved_prompt : bool;
  data_saved_func : option prompt_func;
  data_saved_user_data : Z;
  data_menu : option (list bt_shell_menu_entry)
}.

(** The statics of [cmd_generator]: [entry] points to one of the two tables
    (or is [data.menu] when that is NULL). *)
Record cmd_generator_statics : Type := mkGen {
  gen_entry : option (list bt_shell_menu_entry);
  gen_index : nat;
  gen_len : nat
}.

(** What the shell touches of GNU Readline and GNU History. *)
Record readline : Type := mkRl {
  rl_line_buffer : string;
  rl_point : nat;
  rl_state_done : bool;
  rl_completion_display_matches_hook : option disp_func;
  rl_attempted_completion_over : Z;
  the_history : list string;
  history_offset : nat
}.

Record shell : Type := mkShell {
  data : shell_data;
  main_loop : option bool;
  terminated : bool;
  generator : cmd_generator_statics;
  rl : readline;
  trace : list event
}.

Definition with_data (f : shell_data -> shell_data) (s : shell) : shell :=
  mkShell (f (data s)) (main_loop s) (terminated s) (generator s) (rl s)
          (trace s).
Definition with_main_loop (l : option bool) (s : shell) : shell :=
  mkShell (data s) l (terminated s) (generator s) (rl s) (trace s).
Definition with_terminated (b : bool) (s : shell) : shell :=
  mkShell (data s) (main_loop s) b (generator s) (rl s) (trace s).
Definition with_generator (g : cmd_generator_statics) (s : shell) : shell :=
  mkShell (data s) (main_loop s) (terminated s) g (rl s) (trace s).
Definition with_rl (f : readline -> readline) (s : shell) : shell :=
  mkShell (data s) (main_loop s) (terminated s) (generator s) (f (rl s))
          (trace s).
Definition with_trace (t : list event) (s : shell) : shell :=
  mkShell (data s) (main_loop s) (terminated s) (generator s) (rl s) t.

Definition set_input (i : option Z) (d : shell_data) : shell_data :=
  mkData i (data_saved_prompt d) (data_saved_func d) (data_saved_user_data d)
         (data_menu d).
Definition set_saved_prompt (b : bool) (d : shell_data) : shell_data :=
  mkData (data_input d) b (data_saved_func d) (data_saved_user_data d)
         (data_menu d).
Definition set_saved_func (f : option prompt_func) (d : shell_data)
  : shell_data :=
  mkData (data_input d) (data_saved_prompt d) f (data_saved_user_data d)
         (data_menu d).
Definition set_saved_user_data (u : Z) (d : shell_data) : shell_data :=
  mkData (data_input d) (data_saved_prompt d) (data_saved_func d) u
         (data_menu d).
Definition set_menu (m : option (list bt_shell_menu_entry)) (d : shell_data)
  : shell_data :=
  mkData (data_input d) (data_saved_prompt d) (data_saved_func d)
         (data_saved_user_data d) m.

Definition set_line (text : string) (point : nat) (r : readline) : readline :=
  mkRl text point (rl_state_done r) (rl_completion_display_matches_hook r)
       (rl_attempted_completion_over r) (the_history r) (history_offset r).
Definition set_state_done (b : bool) (r : readline) : readline :=
  mkRl (rl_line_buffer r) (rl_point r) b
       (rl_completion_display_matches_hook r)
       (rl_attempted_completion_over r) (the_history r) (history_offset r).
Definition set_hook (h : option disp_func) (r : readline) : readline :=
  mkRl (rl_line_buffer r) (rl_point r) (rl_state_done r) h
       (rl_attempted_completion_over r) (the_history r) (history_offset r).
Definition set_attempted_over (v : Z) (r : readline) : readline :=
  mkRl (rl_line_buffer r) (rl_point r) (rl_state_done r)
       (rl_completion_display_matches_hook r) v (the_history r)
       (history_offset r).
Definition set_history (h : list string) (off : nat) (r : readline)
  : readline :=
  mkRl (rl_line_buffer r) (rl_point r) (rl_state_done r)
       (rl_completion_display_matches_hook r)
       (rl_attempted_completion_over r) h off.

(** ** The monad: state, plus the two ways a call fails to return *)

Inductive outcome (A : Type) : Type :=
| Ret (a : A) (s : shell)
| Crash
| Blocked (s : shell).
Arguments Ret {A} a s.
Arguments Crash {A}.
Arguments Blocked {A} s.

(** [Crash]: a call through a NULL function pointer or a NULL table.
    [Blocked]: the main loop waits for an event that never comes. *)
Definition M (A : Type) : Type := shell -> outcome A.

Definition ret {A} (a : A) : M A := fun s => Ret a s.

Definition bind {A B} (c : M A) (k : A -> M B) : M B :=
  fun s =>
    match c s with
    | Ret a s' => k a s'
    | Crash => Crash
    | Blocked s' => Blocked s'
    end.

Declare Scope shell_scope.
Delimit Scope shell_scope with shell.
Notation "x <- c ;; k" := (bind c (fun x => k))
  (at level 100, c at next level, right associativity) : shell_scope.
Notation "c ;; k" := (bind c (fun _ => k))
  (at level 100, right associativity) : shell_scope.
Open Scope shell_scope.

Definition get : M shell := fun s => Ret s s.
Definition modify (f : shell -> shell) : M unit := fun s => Ret tt (f s).
Definition crash {A} : M A := fun _ => Crash.
Definition emit (e : event) : M unit :=
  modify (fun s => with_trace (trace s ++ [e]) s).

Fixpoint for_each {A} (f : A -> M unit) (l : list A) : M unit :=
  match l with
  | [] => ret tt
  | x :: l' => f x ;; for_each f l'
  end.

(** The state in which a computation ends, when it returns. *)
Definition state_after {A} (c : M A) (s : shell) : option shell :=
  match c s with
  | Ret _ s' => Some s'
  | _ => None
  end.

(** ** GLib, GNU Readline and GNU History, as far as the shell uses them *)

(** [g_main_loop_quit]: clears the loop's running flag; on a NULL loop it
    only complains.  Every call is recorded. *)
Definition g_main_loop_quit : M unit :=
  emit MainLoopQuit ;;
  modify (fun s => with_main_loop (option_map (fun _ => false) (main_loop s)) s).

Definition printf (text : string) : M unit := emit (Printf text).

Definition rl_save_prompt : M unit := emit RlSavePrompt.
Definition rl_restore_prompt : M unit := emit RlRestorePrompt.
Definition rl_message (text : string) : M unit := emit (RlMessage text).
Definition rl_set_prompt (text : string) : M unit := emit (RlSetPrompt text).
Definition rl_redisplay : M unit := emit RlRedisplay.
Definition rl_forced_update_display : M unit := emit RlForcedUpdateDisplay.
Definition rl_crlf : M unit := emit RlCrlf.
Definition rl_on_new_line : M unit := emit RlOnNewLine.
Definition rl_callback_handler_remove : M unit := emit RlCallbackHandlerRemove.

(** [rl_replace_line (text, 0)]: the buffer becomes [text]; the cursor is
    pulled back inside it. *)
Definition rl_replace_line (text : string) : M unit :=
  modify (with_rl (fun r => set_line text (Nat.min (rl_point r) (strlen text)) r)).

(** [rl_insert_text]: inserts at the cursor and moves the cursor behind the
    insertion. *)
Definition rl_insert_text (text : string) : M unit :=
  modify (with_rl (fun r =>
    set_line (String.substring 0 (rl_point r) (rl_line_buffer r) +:+ text
                +:+ str_drop (rl_point r) (rl_line_buffer r))
             (rl_point r + strlen text) r)).

Definition set_rl_point (p : nat) : M unit :=
  modify (with_rl (fun r => set_line (rl_line_buffer r) p r)).

(** GNU History, [history_search (string, direction)]: "Search the history
    for string, starting at the current history offset.  If direction is
    less than 0, then the search is through previous entries, otherwise
    through subsequent entries.  If string is found, then the current
    history index is set to that history entry, and the value returned is
    the offset in the line of the entry where string was found.  Otherwise,
    nothing is changed, and a -1 is returned."  Within an entry a backward
    search tries the positions from the right end, a forward search from the
    left end. *)
Fixpoint search_line_backward (needle line : string) (k : nat) : option nat :=
  if String.prefix needle (str_drop k line) then Some k
  else match k with
       | 0 => None
       | S k' => search_line_backward needle line k'
       end.

Fixpoint search_line_forward (needle line : string) (k n : nat) : option nat :=
  match n with
  | 0 => None
  | S n' =>
    if String.prefix needle (str_drop k line) then Some k
    else search_line_forward needle line (S k) n'
  end.

Definition search_entry (reverse : bool) (needle : string) (h : list string)
  (i : nat) : option (nat * nat) :=
  match h !! i with
  | Some line =>
    if (strlen line <? strlen needle)%nat then None
    else
      let found :=
        if reverse
        then search_line_backward needle line (strlen line - strlen needle)
        else search_line_forward needle line 0 (strlen line - strlen needle + 1) in
      match found with
      | Some k => Some (i, k)
      | None => None
      end
  | None => None
  end.

Fixpoint scan_backward (needle : string) (h : list string) (i : nat)
  : option (nat * nat) :=
  match search_entry true needle h i with
  | Some r => Some r
  | None => match i with
            | 0 => None
            | S i' => scan_backward needle h i'
            end
  end.

Fixpoint scan_forward (needle : string) (h : list string) (i n : nat)
  : option (nat * nat) :=
  match n with
  | 0 => None
  | S n' =>
    match search_entry false needle h i with
    | Some r => Some r
    | None => scan_forward needle h (S i) n'
    end
  end.

(** The entry and the offset in it that the search finds, if any. *)
Definition history_find (needle : string) (direction : Z) (h : list string)
  (i : nat) : option (nat * nat) :=
  let reverse := (direction <? 0)%Z in
  if (strlen needle =? 0)%nat then None
  else if (length h =? 0)%nat || ((length h <=? i)%nat && negb reverse)
  then None
  else
    let i := if reverse && (length h <=? i)%nat then length h - 1 else i in
    if reverse then scan_backward needle h i
    else scan_forward needle h i (length h - i).

Definition history_search (needle : string) (direction : Z) : M Z :=
  s <- get ;;
  match history_find needle direction (the_history (rl s))
                     (history_offset (rl s)) with
  | Some (j, k) =>
    modify (with_rl (fun r => set_history (the_history r) j r)) ;;
    ret (Z.of_nat k)
  | None => ret (-1)%Z
  end.

(** [add_history]: appends a copy of the line; the history offset stays. *)
Definition add_history (line : string) : M unit :=
  modify (with_rl (fun r =>
    set_history (the_history r ++ [line]) (history_offset r) r)).

(** [using_history]: the offset is put behind the last entry; Readline does
    this whenever it starts reading a new line. *)
Definition using_history : M unit :=
  modify (with_rl (fun r =>
    set_history (the_history r) (length (the_history r)) r)).

(** ** printf formatting used by the menu listing *)

Definition CMD_LENGTH : Z := 48.

(** Conversion of a [size_t] value to [int]. *)
Definition to_int (z : Z) : Z :=
  let m := (z mod 2 ^ 32)%Z in
  if (m <? 2 ^ 31)%Z then m else (m - 2 ^ 32)%Z.

(** [(int)(CMD_LENGTH - strlen(cmd))]: the subtraction is done in [size_t]. *)
Definition menu_width (cmd : string) : Z :=
  to_int ((CMD_LENGTH - Z.of_nat (strlen cmd)) mod 2 ^ 64)%Z.

Fixpoint spaces (n : nat) : string :=
  match n with
  | 0 => EmptyString
  | S n' => String " "%char (spaces n')
  end.

(** ["%-*s"]: left-justified in a field of the given width; a negative
    width counts as its absolute value. *)
Definition left_justify (width : Z) (s : string) : string :=
  s +:+ spaces (Z.to_nat (Z.abs width) - strlen s).

(** ** What application callbacks may do *)

(** A callback of the application runs to completion inside the shell's own
    call.  What it does to the shell it does through the public functions of
    shell.h; [bt_shell_release_prompt] is left to the line handler and to
    [bt_shell_run].  A callback is described by the calls it makes. *)
Inductive api_call : Type :=
| Api_printf (text : string)
| Api_hexdump (str0 : list ascii) (buf : list Byte.byte)
| Api_prompt_input (label msg : string) (func : option prompt_func)
                   (user_data : Z)
| Api_set_menu (menu : option (list bt_shell_menu_entry))
| Api_set_prompt (text : string)
| Api_attach (fd : Z)
| Api_detach.

Definition SIGINT : Z := 2.
Definition SIGTERM : Z := 15.

Definition hexdigits : string := "0123456789abcdef".

Definition hexdigit (n : N) : ascii :=
  match String.get (N.to_nat n) hexdigits with
  | Some c => c
  | None => NUL
  end.

(** What ["%s"] prints of a [char] array: the characters in front of the
    first NUL. *)
Fixpoint c_string (l : list ascii) : string :=
  match l with
  | [] => EmptyString
  | c :: l' => if Ascii.eqb c NUL then EmptyString else String c (c_string l')
  end.

(** Modelled from the spec: what shell.c takes from elsewhere.  The colour
    macros of shell.h and VERSION of config.h are strings left open.  The
    application is described by the calls a menu handler or a prompt
    callback makes, and by the candidates a completion generator yields
    before it returns NULL; each may depend on its arguments and on the
    moment it runs. *)
Record environment : Type := mkEnv {
  env_COLOR_OFF : string;
  env_COLOR_RED : string;
  env_COLOR_HIGHLIGHT : string;
  env_VERSION : string;
  env_cmd_body : nat -> option string -> shell -> list api_call;
  env_prompt_body : prompt_func -> string -> Z -> shell -> list api_call;
  env_gen_body : gen_func -> string -> shell -> list string
}.

Section Shell.

Variable E : environment.

Local Abbreviation COLOR_OFF := (env_COLOR_OFF E).
Local Abbreviation COLOR_RED := (env_COLOR_RED E).
Local Abbreviation COLOR_HIGHLIGHT := (env_COLOR_HIGHLIGHT E).
Local Abbreviation VERSION := (env_VERSION E).
Local Abbreviation cmd_body := (env_cmd_body E).
Local Abbreviation prompt_body := (env_prompt_body E).
Local Abbreviation gen_body := (env_gen_body E).

Definition print_text (color fmt : string) : M unit :=
  printf (color +:+ fmt +:+ COLOR_OFF +:+ nl).

Definition print_menu (cmd args desc : string) : M unit :=
  printf (COLOR_HIGHLIGHT +:+ cmd +:+ " " +:+ left_justify (menu_width cmd) args
            +:+ " " +:+ COLOR_OFF +:+ desc +:+ nl).

(** [bt_shell_printf]; [text] is the formatted output. *)
Definition bt_shell_printf (text : string) : M unit :=
  s <- get ;;
  let save_input := negb (rl_state_done (rl s)) in
  let saved_point := rl_point (rl s) in
  let saved_line := rl_line_buffer (rl s) in
  (if save_input then
     if negb (data_saved_prompt (data s)) then
       rl_save_prompt ;;
       rl_replace_line "" ;;
       rl_redisplay
     else ret tt
   else ret tt) ;;
  printf text ;;
  if save_input then
    s' <- get ;;
    (if negb (data_saved_prompt (data s')) then rl_restore_prompt
     else ret tt) ;;
    rl_replace_line saved_line ;;
    set_rl_point saved_point ;;
    rl_forced_update_display
  else ret tt.

(** The body of the [for] loop of [bt_shell_hexdump] up to the row test. *)
Definition hexdump_store (i : nat) (b : Byte.byte) (str : list ascii)
  : list ascii :=
  let str := <[(i mod 16) * 3 + 1 := " "%char]> str in
  let str := <[(i mod 16) * 3 + 2 := hexdigit (N.shiftr (Byte.to_N b) 4)]> str in
  let str := <[(i mod 16) * 3 + 3 := hexdigit (N.land (Byte.to_N b) 15)]> str in
  <[(i mod 16) + 51 := if isprint b then ascii_of_byte b else "."%char]> str.

Definition hexdump_terminate (str : list ascii) : list ascii :=
  <[67 := NUL]> (<[50 := " "%char]> (<[49 := " "%char]> str)).

Fixpoint hexdump_rows (buf : list Byte.byte) (i : nat) (str : list ascii)
  : M (list ascii) :=
  match buf with
  | [] => ret str
  | b :: buf' =>
    let str := hexdump_store i b str in
    if ((i + 1) mod 16 =? 0)%nat then
      let str := hexdump_terminate str in
      bt_shell_printf (c_string str +:+ nl) ;;
      hexdump_rows buf' (S i) (<[0 := " "%char]> str)
    else hexdump_rows buf' (S i) str
  end.

(** The padding loop, [n] iterations from column [j]. *)
Fixpoint hexdump_pad (n j : nat) (str : list ascii) : list ascii :=
  match n with
  | 0 => str
  | S n' =>
    let str := <[j * 3 + 1 := " "%char]> str in
    let str := <[j * 3 + 2 := " "%char]> str in
    let str := <[j * 3 + 3 := " "%char]> str in
    let str := <[j + 51 := " "%char]> str in
    hexdump_pad n' (S j) str
  end.

(** [bt_shell_hexdump (buf, len)], [len] being the length of [buf]; [str0]
    is whatever the local array [str] holds on entry. *)
Definition bt_shell_hexdump (str0 : list ascii) (buf : list Byte.byte)
  : M unit :=
  let len := length buf in
  if (len =? 0)%nat then ret tt
  else
    str <- hexdump_rows buf 0 (<[0 := " "%char]> str0) ;;
    if (0 <? len mod 16)%nat then
      let str := hexdump_pad (16 - len mod 16) (len mod 16) str in
      let str := hexdump_terminate str in
      bt_shell_printf (c_string str +:+ nl)
    else ret tt.

Definition bt_shell_prompt_input (label msg : string)
  (func : option prompt_func) (user_data : Z) : M unit :=
  s <- get ;;
  if data_saved_prompt (data s) then ret tt
  else
    rl_save_prompt ;;
    rl_message (COLOR_RED +:+ "[" +:+ label +:+ "]" +:+ COLOR_OFF +:+ " "
                  +:+ msg +:+ " ") ;;
    modify (with_data (set_saved_prompt true)) ;;
    modify (with_data (set_saved_func func)) ;;
    modify (with_data (set_saved_user_data user_data)).

Definition bt_shell_set_menu (menu : option (list bt_shell_menu_entry))
  : M bool :=
  s <- get ;;
  if negb (is_null (data_menu (data s))) || is_null menu then ret false
  else
    modify (with_data (set_menu menu)) ;;
    ret true.

Definition bt_shell_set_prompt (text : string) : M unit :=
  s <- get ;;
  match main_loop s with
  | None => ret tt
  | Some _ =>
    rl_set_prompt text ;;
    printf cr ;;
    rl_on_new_line ;;
    rl_redisplay
  end.

(** Modelled from the spec: [io_new] of io.h, which with the two handler
    settings that follow it is the reactor's
    register(descriptor, onReadable, onDisconnect). *)
Definition io_new (fd : Z) : M Z := emit (IoNew fd) ;; ret fd.

(** Modelled from the spec: [io_destroy] of io.h, the reactor's
    unregister(descriptor); it accepts NULL. *)
Definition io_destroy (io : option Z) : M unit :=
  match io with
  | Some fd => emit (IoDestroy fd)
  | None => ret tt
  end.

Definition bt_shell_attach (fd : Z) : M bool :=
  s <- get ;;
  match data_input (data s) with
  | Some _ => ret false
  | None =>
    io <- io_new fd ;;
    modify (with_data (set_input (Some io))) ;;
    ret true
  end.

Definition bt_shell_detach : M bool :=
  s <- get ;;
  match data_input (data s) with
  | None => ret false
  | Some io =>
    io_destroy (Some io) ;;
    modify (with_data (set_input None)) ;;
    ret true
  end.

Definition run_api (a : api_call) : M unit :=
  match a with
  | Api_printf text => bt_shell_printf text
  | Api_hexdump str0 buf => bt_shell_hexdump str0 buf
  | Api_prompt_input label msg func user_data =>
    bt_shell_prompt_input label msg func user_data
  | Api_set_menu menu => _ <- bt_shell_set_menu menu ;; ret tt
  | Api_set_prompt text => bt_shell_set_prompt text
  | Api_attach fd => _ <- bt_shell_attach fd ;; ret tt
  | Api_detach => _ <- bt_shell_detach ;; ret tt
  end.

(** [func (input, user_data)] through a [bt_shell_prompt_input_func]. *)
Definition call_prompt_func (func : option prompt_func) (input : string)
  (user_data : Z) : M unit :=
  match func with
  | None => crash
  | Some f =>
    emit (CallPrompt f input user_data) ;;
    s <- get ;;
    for_each run_api (prompt_body f input user_data s)
  end.

Definition cmd_version (arg : option string) : M unit :=
  bt_shell_printf ("Version " +:+ VERSION +:+ nl).

Definition cmd_quit (arg : option string) : M unit := g_main_loop_quit.

Definition or_empty (s : option string) : string :=
  match s with
  | Some s => s
  | None => ""
  end.

Definition shell_print_menu : M unit :=
  s <- get ;;
  match data_menu (data s) with
  | None => ret tt
  | Some menu =>
    print_text COLOR_HIGHLIGHT "Available commands:" ;;
    print_text COLOR_HIGHLIGHT "-------------------" ;;
    for_each (fun entry =>
                print_menu (entry_cmd entry) (or_empty (entry_arg entry))
                           (or_empty (entry_desc entry))) menu ;;
    for_each (fun entry =>
                print_menu (entry_cmd entry) (or_empty (entry_arg entry))
                           (or_empty (entry_desc entry))) default_menu
  end.

Definition cmd_help (arg : option string) : M unit := shell_print_menu.

(** [entry->func (arg)]. *)
Definition call_menu_cb (f : menu_cb) (arg : option string) : M unit :=
  match f with
  | CbVersion => cmd_version arg
  | CbQuit => cmd_quit arg
  | CbHelp => cmd_help arg
  | CbApp id =>
    emit (CallCmd id arg) ;;
    s <- get ;;
    for_each run_api (cmd_body id arg s)
  end.

(** One of the two [for] loops of [shell_exec]; the result tells whether the
    loop ended in [return]. *)
Fixpoint exec_table (table : list bt_shell_menu_entry) (cmd : string)
  (arg : option string) : M bool :=
  match table with
  | [] => ret false
  | entry :: table' =>
    if negb (strcmp cmd (entry_cmd entry) =? 0)%Z then exec_table table' cmd arg
    else
      match entry_func entry with
      | Some f => call_menu_cb f arg ;; ret true
      | None => exec_table table' cmd arg
      end
  end.

Definition shell_exec (cmd arg : option string) : M unit :=
  s <- get ;;
  match data_menu (data s), cmd with
  | None, _ => ret tt
  | _, None => ret tt
  | Some menu, Some cmd =>
    returned <- exec_table menu cmd arg ;;
    if returned then ret tt
    else
      returned <- exec_table default_menu cmd arg ;;
      if returned then ret tt
      else print_text COLOR_HIGHLIGHT "Invalid command"
  end.

Definition bt_shell_release_prompt (input : string) : M Z :=
  s <- get ;;
  if negb (data_saved_prompt (data s)) then ret (-1)%Z
  else
    modify (with_data (set_saved_prompt false)) ;;
    rl_restore_prompt ;;
    let func := data_saved_func (data s) in
    let user_data := data_saved_user_data (data s) in
    modify (with_data (set_saved_func None)) ;;
    modify (with_data (set_saved_user_data 0)) ;;
    call_prompt_func func input user_data ;;
    ret 0%Z.

(** The adjustment of [arg] in [rl_handler]. *)
Definition strip_trailing_space (arg : option string) : option string :=
  match arg with
  | Some a =>
    if (0 <? strlen a)%nat && bool_decide (str_last a = Some " "%char)
    then Some (str_removelast a)
    else Some a
  | None => None
  end.

(** The two history lines of [rl_handler]. *)
Definition rl_handler_history (input : string) : M unit :=
  found <- history_search input (-1) ;;
  if negb (found =? 0)%Z then add_history input else ret tt.

(** The rest of [rl_handler], from [strtok_r] to [shell_exec]. *)
Definition rl_handler_exec (input : string) : M unit :=
  let (cmd, arg) := strtok_r input " " in
  match cmd with
  | None => ret tt
  | Some cmd => shell_exec (Some cmd) (strip_trailing_space arg)
  end.

(** [rl_handler]; a NULL [input] is [None]. *)
Definition rl_handler (input : option string) : M unit :=
  match input with
  | None =>
    rl_insert_text "quit" ;;
    rl_redisplay ;;
    rl_crlf ;;
    g_main_loop_quit
  | Some input =>
    if (strlen input =? 0)%nat then ret tt
    else
      released <- bt_shell_release_prompt input ;;
      if (released =? 0)%Z then ret tt
      else
        rl_handler_history input ;;
        rl_handler_exec input
  end.

(** *** Completion *)

(** The [while] loop of [cmd_generator] over what is left of the table:
    the new [index] and the command returned, if any. *)
Fixpoint generator_scan (rest : list bt_shell_menu_entry) (index : nat)
  (text : string) (len : nat) : nat * option string :=
  match rest with
  | [] => (index, None)
  | entry :: rest' =>
    if (strncmp (entry_cmd entry) text len =? 0)%Z
    then (S index, Some (entry_cmd entry))
    else generator_scan rest' (S index) text len
  end.

Definition generator_loop (text : string) : M (option string) :=
  s <- get ;;
  let g := generator s in
  match gen_entry g with
  | None => crash
  | Some table =>
    let (index, found) :=
      generator_scan (drop (gen_index g) table) (gen_index g) text (gen_len g) in
    modify (with_generator (mkGen (gen_entry g) index (gen_len g))) ;;
    ret found
  end.

(** [cmd_generator (text, state)]; the call it makes to itself has a
    non-zero [state] and so does not recurse further. *)
Definition cmd_generator (text : string) (state : Z) : M (option string) :=
  if negb (state =? 0)%Z then generator_loop text
  else
    modify (with_generator (mkGen (Some default_menu) 0 (strlen text))) ;;
    found <- generator_loop text ;;
    match found with
    | Some cmd => ret (Some cmd)
    | None =>
      s <- get ;;
      modify (with_generator
                (mkGen (data_menu (data s)) 0 (gen_len (generator s)))) ;;
      generator_loop text
    end.

(** The functions handed to [rl_completion_matches]. *)
Inductive compentry_func : Type :=
| Gen_cmd_generator
| Gen_app (g : gen_func).

Fixpoint collect_commands (fuel : nat) (text : string) (state : Z)
  : M (list string) :=
  match fuel with
  | 0 => ret []
  | S fuel' =>
    found <- cmd_generator text state ;;
    match found with
    | None => ret []
    | Some cmd =>
      more <- collect_commands fuel' text (state + 1)%Z ;;
      ret (cmd :: more)
    end
  end.

(** Readline's [rl_completion_matches (text, generator)]: the generator is
    called until it returns NULL; the result is NULL when it produced
    nothing, and otherwise the array built from the candidates, here
    identified with the list of candidates. *)
Definition rl_completion_matches (text : string) (gen : compentry_func)
  : M (option (list string)) :=
  candidates <-
    match gen with
    | Gen_cmd_generator =>
      s <- get ;;
      collect_commands
        (S (length default_menu + length (default [] (data_menu (data s)))))
        text 0%Z
    | Gen_app g =>
      emit (CallGen g text) ;;
      s <- get ;;
      ret (gen_body g text s)
    end ;;
  match candidates with
  | [] => ret None
  | _ => ret (Some candidates)
  end.

(** The [for] loop of [menu_completion]. *)
Fixpoint completion_loop (table : list bt_shell_menu_entry)
  (text input_cmd : string) : M (option (list string)) :=
  match table with
  | [] => ret None
  | entry :: table' =>
    if negb (strcmp (entry_cmd entry) input_cmd =? 0)%Z
    then completion_loop table' text input_cmd
    else
      match entry_gen entry with
      | None => completion_loop table' text input_cmd
      | Some g =>
        modify (with_rl (set_hook (entry_disp entry))) ;;
        rl_completion_matches text (Gen_app g)
      end
  end.

(** [menu_completion]: the loop starts with [entry = data.menu], whatever
    table the caller passed. *)
Definition menu_completion (entry : list bt_shell_menu_entry)
  (text input_cmd : string) : M (option (list string)) :=
  s <- get ;;
  match data_menu (data s) with
  | None => crash
  | Some menu => completion_loop menu text input_cmd
  end.

Definition shell_completion (text : string) (start end_ : Z)
  : M (option (list string)) :=
  s <- get ;;
  match data_menu (data s) with
  | None => ret None
  | Some menu =>
    matches <-
      (if (0 <? start)%Z then
         let input_cmd :=
           strndup (rl_line_buffer (rl s)) (Z.to_nat (start - 1)) in
         matches <- menu_completion default_menu text input_cmd ;;
         match matches with
         | None => menu_completion menu text input_cmd
         | Some _ => ret matches
         end
       else
         modify (with_rl (set_hook None)) ;;
         rl_completion_matches text Gen_cmd_generator) ;;
    match matches with
    | None =>
      modify (with_rl (set_attempted_over 1)) ;;
      ret None
    | Some _ => ret matches
    end
  end.

(** *** Signals and the run loop *)

Definition io_hup : M bool := g_main_loop_quit ;; ret false.

(** [signal_read]; [si] is what [read] delivered: a whole record, of which
    only [ssi_signo] is used, or anything else. *)
Definition signal_read (si : option Z) : M bool :=
  match si with
  | None => ret false
  | Some ssi_signo =>
    let case_SIGTERM : M bool :=
      s <- get ;;
      (if negb (terminated s) then
         rl_replace_line "" ;;
         rl_crlf ;;
         g_main_loop_quit
       else ret tt) ;;
      modify (with_terminated true) ;;
      ret false in
    if (ssi_signo =? SIGINT)%Z then
      s <- get ;;
      match data_input (data s) with
      | Some _ =>
        rl_replace_line "" ;;
        rl_crlf ;;
        rl_on_new_line ;;
        rl_redisplay ;;
        ret false
      | None => case_SIGTERM
      end
    else if (ssi_signo =? SIGTERM)%Z then case_SIGTERM
    else ret false
  end.

(** [setup_signalfd]; [mask_rc] and [fd] are the results of [sigprocmask]
    and [signalfd]. *)
Definition setup_signalfd (mask_rc fd : Z) : M (option Z) :=
  if (mask_rc <? 0)%Z then
    emit (Perror "Failed to set signal mask") ;;
    ret None
  else if (fd <? 0)%Z then
    emit (Perror "Failed to create signal descriptor") ;;
    ret None
  else
    io <- io_new fd ;;
    ret (Some io).

(** What a call of Readline's [rl_callback_read_char] amounts to: the line
    is edited further, or it is complete (NULL at end of input).  Editing
    includes Readline's history commands: they move the history position,
    and an entry that was recalled and edited is replaced by the edited
    text when the user moves on from it (GNU Readline: "by default,
    history lines may be modified").  No entry is added or removed by
    editing.  What Readline does to the history as it completes a line,
    before it calls the handler, is the last editing before that line. *)
Inductive rl_input : Type :=
| Rl_edit (text : string) (point : nat) (rewritten : list (nat * string))
          (position : nat)
| Rl_line (line : option string).

(** The entries after such replacements, made one after the other; a
    replacement for an entry that does not exist replaces nothing. *)
Fixpoint replace_entries (rewritten : list (nat * string)) (h : list string)
  : list string :=
  match rewritten with
  | [] => h
  | (i, text) :: rewritten' => replace_entries rewritten' (<[i := text]> h)
  end.

(** On a complete line Readline is in state [RL_STATE_DONE] while it calls
    the installed handler, with the history position where the editing
    left it, and afterwards starts a new, empty line. *)
Definition rl_callback_read_char (k : rl_input) : M unit :=
  match k with
  | Rl_edit text point rewritten position =>
    modify (with_rl (fun r =>
      set_history (replace_entries rewritten (the_history r))
                  (Nat.min position (length (the_history r)))
                  (set_line text point r)))
  | Rl_line line =>
    modify (with_rl (set_state_done true)) ;;
    rl_handler line ;;
    modify (with_rl (fun r => set_state_done false (set_line "" 0 r))) ;;
    using_history
  end.

Definition input_read (k : rl_input) : M bool :=
  rl_callback_read_char k ;;
  ret true.

(** Modelled from the spec: the handler calls the reactor makes while the
    loop runs.  A handler of a descriptor is called only while that
    descriptor is registered; the application's own event sources call
    into the shell as well. *)
Inductive reactor_event : Type :=
| Ev_input_read (k : rl_input)
| Ev_input_hup
| Ev_signal_read (si : option Z)
| Ev_signal_hup
| Ev_app (a : api_call)
| Ev_app_release (input : string).

Definition dispatch (signal : option Z) (e : reactor_event) : M unit :=
  s <- get ;;
  match e with
  | Ev_input_read k =>
    match data_input (data s) with
    | Some _ => _ <- input_read k ;; ret tt
    | None => ret tt
    end
  | Ev_input_hup =>
    match data_input (data s) with
    | Some _ => _ <- io_hup ;; ret tt
    | None => ret tt
    end
  | Ev_signal_read si =>
    match signal with
    | Some _ => _ <- signal_read si ;; ret tt
    | None => ret tt
    end
  | Ev_signal_hup =>
    match signal with
    | Some _ => _ <- io_hup ;; ret tt
    | None => ret tt
    end
  | Ev_app a => run_api a
  | Ev_app_release input => _ <- bt_shell_release_prompt input ;; ret tt
  end.

Fixpoint main_loop_iterate (signal : option Z) (events : list reactor_event)
  : M unit :=
  match events with
  | [] => fun s => Blocked s
  | e :: events' =>
    dispatch signal e ;;
    s <- get ;;
    match main_loop s with
    | Some true => main_loop_iterate signal events'
    | _ => ret tt
    end
  end.

(** GLib's [g_main_loop_run]: refuses a NULL loop; otherwise sets the
    running flag and iterates until [g_main_loop_quit] has cleared it. *)
Definition g_main_loop_run (signal : option Z) (events : list reactor_event)
  : M unit :=
  s <- get ;;
  match main_loop s with
  | None => ret tt
  | Some _ =>
    modify (with_main_loop (Some true)) ;;
    main_loop_iterate signal events
  end.

Definition rl_cleanup : M unit :=
  rl_message "" ;;
  rl_callback_handler_remove.

Definition bt_shell_run (mask_rc fd : Z) (events : list reactor_event)
  : M unit :=
  signal <- setup_signalfd mask_rc fd ;;
  g_main_loop_run signal events ;;
  _ <- bt_shell_release_prompt "" ;;
  _ <- bt_shell_detach ;;
  io_destroy signal ;;
  emit MainLoopUnref ;;
  modify (with_main_loop None) ;;
  rl_cleanup.

End Shell.

(** * Properties *)

(** ** Relations between the state before and after a call *)

(** [c] returns from every state, and relates the states by [R]. *)
Definition steps {A} (R : shell -> shell -> Prop) (c : M A) : Prop :=
  forall s, exists a s', c s = Ret a s' /\ R s s'.

(** [c] relates the states by [R] unless it crashes. *)
Definition psteps {A} (R : shell -> shell -> Prop) (c : M A) : Prop :=
  forall s,
    match c s with
    | Ret _ s' => R s s'
    | Blocked s' => R s s'
    | Crash => True
    end.

(** The events a call of the public functions other than
    [bt_shell_release_prompt] can cause. *)
Definition api_event (e : event) : Prop :=
  match e with
  | Printf _ | RlSavePrompt | RlRestorePrompt | RlMessage _ | RlSetPrompt _
  | RlRedisplay | RlForcedUpdateDisplay | RlOnNewLine | IoNew _ | IoDestroy _ =>
    True
  | _ => False
  end.

(** What a call of those functions leaves alone. *)
Record api_frame (s s' : shell) : Prop := mkFrame {
  frame_trace : exists evs, trace s' = trace s ++ evs /\ Forall api_event evs;
  frame_history : the_history (rl s') = the_history (rl s);
  frame_offset : history_offset (rl s') = history_offset (rl s);
  frame_terminated : terminated s' = terminated s;
  frame_main_loop : main_loop s' = main_loop s;
  frame_menu : forall t, data_menu (data s) = Some t ->
                         data_menu (data s') = Some t
}.

(** An attached table stays attached. *)
Definition menu_kept (s s' : shell) : Prop :=
  forall table, data_menu (data s) = Some table ->
                data_menu (data s') = Some table.

(** The history is where it was. *)
Definition keeps_history (s s' : shell) : Prop :=
  the_history (rl s') = the_history (rl s) /\
  history_offset (rl s') = history_offset (rl s).

(** ** Reading a trace *)

Definition is_quit (e : event) : bool :=
  match e with
  | MainLoopQuit => true
  | _ => false
  end.

(** The number of loop-stop requests. *)
Definition quit_requests (t : list event) : nat :=
  length (List.filter is_quit t).

(** The calls made through prompt callbacks, in order. *)
Fixpoint prompt_calls (t : list event) : list (prompt_func * string * Z) :=
  match t with
  | [] => []
  | CallPrompt f input user_data :: t' => (f, input, user_data) :: prompt_calls t'
  | _ :: t' => prompt_calls t'
  end.

(** The texts written to the terminal. *)
Fixpoint printed (t : list event) : list string :=
  match t with
  | [] => []
  | Printf text :: t' => text :: printed t'
  | _ :: t' => printed t'
  end.

(** ** The prompt override *)

(** The state in which a pending callback is called: the override is
    cleared, the prompt restored, the call recorded. *)
Definition released (f : prompt_func) (input : string) (s : shell) : shell :=
  with_trace
    (trace s ++ [RlRestorePrompt; CallPrompt f input (data_saved_user_data (data s))])
    (with_data (fun d => mkData (data_input d) false None 0 (data_menu d)) s).

(** ** The menu *)

(** Successive calls of [bt_shell_set_menu], with their results. *)
Fixpoint bt_shell_set_menu_seq (menus : list (option (list bt_shell_menu_entry)))
  : M (list bool) :=
  match menus with
  | [] => ret []
  | menu :: menus' =>
    r <- bt_shell_set_menu menu ;;
    rs <- bt_shell_set_menu_seq menus' ;;
    ret (r :: rs)
  end.

(** The handler [shell_exec] finds for a command in one table: that of the
    first entry of that name which has one. *)
Fixpoint resolve (table : list bt_shell_menu_entry) (cmd : string)
  : option menu_cb :=
  match table with
  | [] => None
  | entry :: table' =>
    if String.eqb cmd (entry_cmd entry) then
      match entry_func entry with
      | Some f => Some f
      | None => resolve table' cmd
      end
    else resolve table' cmd
  end.

(** The text [print_menu] writes for an entry, and the help listing. *)
Definition menu_line (E : environment) (entry : bt_shell_menu_entry) : string :=
  env_COLOR_HIGHLIGHT E +:+ entry_cmd entry +:+ " "
    +:+ left_justify (menu_width (entry_cmd entry)) (or_empty (entry_arg entry))
    +:+ " " +:+ env_COLOR_OFF E +:+ or_empty (entry_desc entry) +:+ nl.

Definition listing (E : environment) (table : list bt_shell_menu_entry)
  : list string :=
  [ env_COLOR_HIGHLIGHT E +:+ "Available commands:" +:+ env_COLOR_OFF E +:+ nl;
    env_COLOR_HIGHLIGHT E +:+ "-------------------" +:+ env_COLOR_OFF E +:+ nl ]
  ++ map (menu_line E) table ++ map (menu_line E) default_menu.

(** ** Signals *)

(** The signal records that make [signal_read] take the SIGTERM case. *)
Definition terminating (s : shell) (signo : Z) : bool :=
  (signo =? SIGTERM)%Z || ((signo =? SIGINT)%Z && is_null (data_input (data s))).

(** [signal_read] on a sequence of complete records. *)
Definition signal_read_all (signals : list Z) : M unit :=
  for_each (fun signo => _ <- signal_read (Some signo) ;; ret tt) signals.

(** ** The line handler *)

(** What the history step of [rl_handler] does to Readline's state. *)
Definition record_line (input : string) (r : readline) : readline :=
  match history_find input (-1) (the_history r) (history_offset r) with
  | Some (j, 0) => set_history (the_history r) j r
  | Some (j, S _) => set_history (the_history r ++ [input]) j r
  | None => set_history (the_history r ++ [input]) (history_offset r) r
  end.

Fixpoint has_space (s : string) : bool :=
  match s with
  | EmptyString => false
  | String c s' => if Ascii.eqb c " "%char then true else has_space s'
  end.

(** *** The specification's reading of a line, for comparison *)

Definition is_blank (c : ascii) : bool :=
  match c with
  | " "%char | "009"%char | "010"%char | "011"%char | "012"%char
  | "013"%char => true
  | _ => false
  end.

Fixpoint skip_blanks (s : string) : string :=
  match s with
  | EmptyString => EmptyString
  | String c s' => if is_blank c then skip_blanks s' else s
  end.

Fixpoint take_token (s : string) : string :=
  match s with
  | EmptyString => EmptyString
  | String c s' => if is_blank c then EmptyString else String c (take_token s')
  end.

Fixpoint drop_token (s : string) : string :=
  match s with
  | EmptyString => EmptyString
  | String c s' => if is_blank c then s else drop_token s'
  end.

(** "Empty after trimming". *)
Definition spec_blank (line : string) : bool :=
  match skip_blanks line with
  | EmptyString => true
  | _ => false
  end.

(** "Splits on the first run of whitespace into command and argument". *)
Definition spec_split (line : string) : string * string :=
  let l := skip_blanks line in
  (take_token l, skip_blanks (drop_token l)).

(** "Record the line in history only if it differs from the immediately
    preceding history entry". *)
Definition spec_records (h : list string) (line : string) : bool :=
  negb (bool_decide (last h = Some line)).

(** ** Completion *)

(** An entry answers for a command token when it has that name and declares
    an argument completer. *)
Definition declares_completer (token : string) (entry : bt_shell_menu_entry)
  : bool :=
  String.eqb (entry_cmd entry) token && negb (is_null (entry_gen entry)).

(** The look-up the code comes down to: the first entry, in the built-in
    table and then in the table of the application, that has the name and
    declares a completer.  An entry of that name without a completer is
    passed over. *)
Definition lookup_completer (menu : list bt_shell_menu_entry) (token : string)
  : option bt_shell_menu_entry :=
  List.find (declares_completer token) (default_menu ++ menu).

(** The look-up as the specification words it: by name alone, in the
    built-in table first and then in the table of the application. *)
Definition spec_lookup (menu : list bt_shell_menu_entry) (token : string)
  : option bt_shell_menu_entry :=
  List.find (fun entry => String.eqb (entry_cmd entry) token)
            (default_menu ++ menu).

(** Delegation to an entry's completer: its display hook is installed and
    its generator run for the text. *)
Definition delegate (E : environment) (text : string)
  (entry : bt_shell_menu_entry) : M (option (list string)) :=
  match entry_gen entry with
  | Some g =>
    modify (with_rl (set_hook (entry_disp entry))) ;;
    rl_completion_matches E text (Gen_app g)
  | None => ret None
  end.

(** Completion as the specification words it: the entry found by name
    answers with its completer if it declares one; otherwise nothing is
    offered. *)
Definition spec_completion (E : environment) (text : string)
  (menu : list bt_shell_menu_entry) (token : string)
  : M (option (list string)) :=
  match spec_lookup menu token with
  | Some entry => delegate E text entry
  | None => ret None
  end.

(** The state in which generator [g] is asked, and what it answers. *)
Definition asked (g : gen_func) (text : string) (hook : option disp_func)
  (s : shell) : shell :=
  with_trace (trace s ++ [CallGen g text]) (with_rl (set_hook hook) s).

Definition answer (E : environment) (g : gen_func) (text : string)
  (s : shell) : option (list string) :=
  match env_gen_body E g text s with
  | [] => None
  | l => Some l
  end.

(** ** The run *)

(** The events of [bt_shell_detach]. *)
Definition detach_events (s : shell) : list event :=
  match data_input (data s) with
  | Some io => [IoDestroy io]
  | None => []
  end.

(** The events of [bt_shell_run] after the input has been detached. *)
Definition teardown_events (signal : option Z) : list event :=
  match signal with
  | Some fd => [IoDestroy fd]
  | None => []
  end
  ++ [MainLoopUnref; RlMessage ""; RlCallbackHandlerRemove].

(** ** The hex dump *)

(** What a byte shows as in the ASCII column. *)
Definition render (b : Byte.byte) : ascii :=
  if isprint b then ascii_of_byte b else "."%char.

(** The three characters a byte contributes to its row: two hex digits and
    the character of the ASCII column. *)
Definition cell : Type := ascii * ascii * ascii.

Definition cell_of (b : Byte.byte) : cell :=
  (hexdigit (N.shiftr (Byte.to_N b) 4), hexdigit (N.land (Byte.to_N b) 15),
   render b).

Definition store_cell (k : nat) (c : cell) (str : list ascii) : list ascii :=
  let '(hi, lo, shown) := c in
  <[k + 51 := shown]>
    (<[k * 3 + 3 := lo]> (<[k * 3 + 2 := hi]> (<[k * 3 + 1 := " "%char]> str))).

Fixpoint fill_cells (cells : list cell) (k : nat) (str : list ascii)
  : list ascii :=
  match cells with
  | [] => str
  | c :: cells' => fill_cells cells' (S k) (store_cell k c str)
  end.

(** The 67 characters of a row: a space, sixteen groups of a space and two
    hex digits, two spaces, sixteen characters; groups and characters that
    have no byte are spaces. *)
Definition row_chars (cells : list cell) : list ascii :=
  [" "%char]
  ++ flat_map (fun c : cell => [" "%char; fst (fst c); snd (fst c)]) cells
  ++ repeat " "%char (3 * (16 - length cells))
  ++ [" "%char; " "%char]
  ++ map (fun c : cell => snd c) cells
  ++ repeat " "%char (16 - length cells).

Definition row_string (chunk : list Byte.byte) : string :=
  string_of_list_ascii (row_chars (map cell_of chunk)) +:+ nl.

(** The ASCII column of a printed row. *)
Definition ascii_column (row : string) : string := String.substring 51 16 row.

(** The bytes of each row: sixteen at a time. *)
Fixpoint rows_of (fuel : nat) (buf : list Byte.byte) : list (list Byte.byte) :=
  match fuel with
  | 0 => []
  | S fuel' =>
    match buf with
    | [] => []
    | _ => take 16 buf :: rows_of fuel' (drop 16 buf)
    end
  end.

(** ** Concrete applications and sessions *)

Definition ESC : string := String "027"%char EmptyString.

(** BlueZ's own macro values, and an application whose callbacks call
    nothing back. *)
Definition bluez : environment :=
  mkEnv (ESC +:+ "[0m") (ESC +:+ "[0;91m") (ESC +:+ "[1;39m") "5.47"
        (fun _ _ _ => []) (fun _ _ _ _ => []) (fun _ _ _ => []).

(** An application whose menu handler 0 asks for a passkey, whose prompt
    callback 7 prints a line and asks again on behalf of callback 9, and
    whose generator 3 offers two words. *)
Definition demo : environment :=
  mkEnv (ESC +:+ "[0m") (ESC +:+ "[0;91m") (ESC +:+ "[1;39m") "5.47"
        (fun id _ _ =>
           match id with
           | 0 => [Api_prompt_input "agent" "Enter passkey:" (Some 7) 42%Z]
           | _ => []
           end)
        (fun f input _ _ =>
           match f with
           | 7 => [Api_printf ("got " +:+ input +:+ nl);
                   Api_prompt_input "agent" "Confirm:" (Some 9) 43%Z]
           | _ => []
           end)
        (fun g _ _ =>
           match g with
           | 3 => ["on"; "off"]
           | _ => []
           end).

Definition demo_menu : list bt_shell_menu_entry :=
  [ mkEntry "pair" (Some "<dev>") (Some (CbApp 0)) (Some "Pair with device")
            None None;
    mkEntry "power" (Some "<on/off>") (Some (CbApp 1)) (Some "Set power")
            (Some 3) (Some 4) ].

(** The statics as [bt_shell_init] leaves them: a loop that is not running
    yet, nothing attached, nothing pending, an empty line and history. *)
Definition initial : shell :=
  mkShell (mkData None false None 0 None) (Some false) false (mkGen None 0 0)
          (mkRl "" 0 false None 0 [] 0) [].

(** A table with no entries attached, nothing else. *)
Definition bare : shell := with_data (set_menu (Some [])) initial.

(** The demo application after [bt_shell_set_menu] and [bt_shell_attach]. *)
Definition attached : shell :=
  with_data (fun d => set_menu (Some demo_menu) (set_input (Some 0%Z) d)) initial.

(** ... with a passkey request pending, *)
Definition awaiting : shell :=
  with_data (fun d => set_saved_user_data 42
                        (set_saved_func (Some 7) (set_saved_prompt true d)))
            attached.

(** ... with [help] in the history, *)
Definition after_help : shell :=
  with_rl (set_history ["help"] 1) attached.

(** ... with [help] and [quit] in the history, *)
Definition after_help_quit : shell :=
  with_rl (set_history ["help"; "quit"] 2) attached.

(** ... and with [power ] typed. *)
Definition typing_power : shell :=
  with_rl (set_line "power " 6) attached.

(** A table with a [help] of the application's own, completed by
    generator 3, attached instead, and [help ] typed. *)
Definition own_help_menu : list bt_shell_menu_entry :=
  [ mkEntry "help" (Some "<topic>") (Some (CbApp 1)) (Some "Help on a topic")
            (Some 3) None ].

Definition typing_help : shell :=
  with_rl (set_line "help " 5)
          (with_data (set_menu (Some own_help_menu)) attached).

(** A session of the demo application: [pair] is entered, its handler asks
    for a passkey, and the process is told to terminate before the user
    has answered. *)
Definition pair_then_sigterm : list reactor_event :=
  [ Ev_input_read (Rl_line (Some "pair 00:11"));
    Ev_signal_read (Some SIGTERM) ].

(** The state of that session once the signal descriptor is set up, and
    when the loop ends. *)
Definition session_set_up : shell :=
  Eval vm_compute in
    default attached (state_after (setup_signalfd 0 5) attached).

Definition session_loop_exit : shell :=
  Eval vm_compute in
    default attached
            (state_after (g_main_loop_run demo (Some 5%Z) pair_then_sigterm)
                         session_set_up).

(** Twenty bytes, some of them not printable. *)
Definition sample_bytes : list Byte.byte :=
  [ Byte.x42; Byte.x6c; Byte.x75; Byte.x65; Byte.x5a; Byte.x00; Byte.x7f;
    Byte.xff; Byte.x20; Byte.x0a; Byte.x30; Byte.x31; Byte.x32; Byte.x33;
    Byte.x34; Byte.x35; Byte.x36; Byte.x37; Byte.x80; Byte.x7e ].

(** ** Completion of command names *)

(** An entry whose name starts with the text typed so far. *)
Definition starts_with (text : string) (entry : bt_shell_menu_entry) : bool :=
  String.prefix text (entry_cmd entry).

(** The names in a table that start with [text], in table order. *)
Definition commands_with_prefix (text : string)
  (table : list bt_shell_menu_entry) : list string :=
  map entry_cmd (List.filter (starts_with text) table).

(** What is left of a table behind its first entry that starts with
    [text]. *)
Fixpoint scan_rest (text : string) (rest : list bt_shell_menu_entry)
  : list bt_shell_menu_entry :=
  match rest with
  | [] => []
  | entry :: rest' =>
    if starts_with text entry then rest' else scan_rest text rest'
  end.

(** What completion offers for the first word of a line: the built-in
    commands that start with the text, and the commands of the
    application's table only when no built-in does. *)
Definition command_candidates (text : string)
  (menu : list bt_shell_menu_entry) : list string :=
  match commands_with_prefix text default_menu with
  | [] => commands_with_prefix text menu
  | builtin => builtin
  end.

(** Where that leaves the statics of [cmd_generator]. *)
Definition generator_done (text : string) (menu : list bt_shell_menu_entry)
  : cmd_generator_statics :=
  match commands_with_prefix text default_menu with
  | [] => mkGen (Some menu) (length menu) (strlen text)
  | _ => mkGen (Some default_menu) (length default_menu) (strlen text)
  end.

(** ** Dispatch *)

(** An entry [shell_exec] passes over when it looks for [cmd]: one of
    another name, or one without a handler. *)
Definition passed_over (cmd : string) (entry : bt_shell_menu_entry) : Prop :=
  entry_cmd entry <> cmd \/ entry_func entry = None.

(** ** The run loop *)

(** Handler calls that end the loop whatever the application is: a
    hang-up of the input or of the signal descriptor, the end of the
    input, and a signal that takes the SIGTERM case while the flag of
    [signal_read] is clear. *)
Definition ends_loop (s : shell) (signal : option Z) (e : reactor_event)
  : bool :=
  match e with
  | Ev_input_hup | Ev_input_read (Rl_line None) =>
    negb (is_null (data_input (data s)))
  | Ev_signal_hup => negb (is_null signal)
  | Ev_signal_read (Some signo) =>
    negb (is_null signal) && negb (terminated s) && terminating s signo
  | _ => false
  end.

(** ** What the loop keeps *)

Definition is_io_new (e : event) : bool :=
  match e with
  | IoNew _ => true
  | _ => false
  end.

Definition is_io_destroy (e : event) : bool :=
  match e with
  | IoDestroy _ => true
  | _ => false
  end.

(** The numbers of descriptors registered with the reactor and
    unregistered again. *)
Definition registrations (t : list event) : nat :=
  length (List.filter is_io_new t).

Definition unregistrations (t : list event) : nat :=
  length (List.filter is_io_destroy t).

(** An event that is neither a stop request nor a registration. *)
Definition plain (e : event) : bool :=
  negb (is_quit e) && negb (is_io_new e) && negb (is_io_destroy e).

(** The registration the shell holds for its input, if it has one. *)
Definition input_held (s : shell) : nat :=
  if is_null (data_input (data s)) then 0 else 1.

(** Registrations and unregistrations go together with the input being
    attached and detached: the registrations outstanding change by what
    the shell holds for its input. *)
Definition io_balanced (s s' : shell) : Prop :=
  registrations (trace s') + unregistrations (trace s) + input_held s =
  registrations (trace s) + unregistrations (trace s') + input_held s'.

(** The history has the same entries afterwards. *)
Definition history_same (s s' : shell) : Prop :=
  the_history (rl s') = the_history (rl s).

(** The history has no fewer entries afterwards. *)
Definition history_grows (s s' : shell) : Prop :=
  length (the_history (rl s)) <= length (the_history (rl s')).

(** Once set, the flag of [signal_read] stays set. *)
Definition terminated_kept (s s' : shell) : Prop :=
  terminated s = true -> terminated s' = true.

(** [c] returns or crashes; it is never left waiting. *)
Definition never_blocks {A} (c : M A) : Prop :=
  forall s s', c s <> Blocked s'.

(** The loop's running flag and the stop requests go together: the flag
    stays or is cleared; while it is still set no stop has been requested;
    and without a stop request it is what it was. *)
Definition quit_linked (s s' : shell) : Prop :=
  quit_requests (trace s) <= quit_requests (trace s') /\
  (main_loop s' = main_loop s \/
   main_loop s' = option_map (fun _ => false) (main_loop s)) /\
  (main_loop s' = Some true ->
   quit_requests (trace s') = quit_requests (trace s)) /\
  (quit_requests (trace s') = quit_requests (trace s) ->
   main_loop s' = main_loop s).

(** ** Prompts asked by callbacks *)

(** A call back into the shell that asks for a prompt override. *)
Definition requests_prompt (a : api_call) : bool :=
  match a with
  | Api_prompt_input _ _ _ _ => true
  | _ => false
  end.

(** The three prompt fields of [data]. *)
Definition saved (s : shell) : bool * option prompt_func * Z :=
  (data_saved_prompt (data s), data_saved_func (data s),
   data_saved_user_data (data s)).

(** ** Calls through function pointers *)

(** A pending override has a callback to call. *)
Definition prompt_ok (s : shell) : Prop :=
  data_saved_prompt (data s) = true -> data_saved_func (data s) <> None.

(** A call back into the shell that hands over no NULL callback. *)
Definition call_ok (a : api_call) : Prop :=
  match a with
  | Api_prompt_input _ _ None _ => False
  | _ => True
  end.

(** An application none of whose handlers and callbacks does. *)
Definition application_ok (E : environment) : Prop :=
  (forall id arg s, Forall call_ok (env_cmd_body E id arg s)) /\
  (forall f input user_data s,
     Forall call_ok (env_prompt_body E f input user_data s)).

Definition event_ok (e : reactor_event) : Prop :=
  match e with
  | Ev_app a => call_ok a
  | _ => True
  end.

(** [c] does not crash from a state in which [prompt_ok] holds, and ends
    in such a state. *)
Definition safe {A} (c : M A) : Prop :=
  forall s, prompt_ok s ->
    match c s with
    | Ret _ s' => prompt_ok s'
    | Blocked s' => prompt_ok s'
    | Crash => False
    end.

(** ** What completion leaves alone *)

(** A call of a completion generator of the application for [text]. *)
Definition generator_call (text : string) (e : event) : Prop :=
  exists g, e = CallGen g text.

(** Completion touches the display hook, the flag that the attempt is
    over and the statics of [cmd_generator]; it records the generators it
    asks.  All else stays. *)
Record completion_frame (text : string) (s s' : shell) : Prop := mkCompletion {
  completion_data : data s' = data s;
  completion_main_loop : main_loop s' = main_loop s;
  completion_terminated : terminated s' = terminated s;
  completion_line : rl_line_buffer (rl s') = rl_line_buffer (rl s);
  completion_point : rl_point (rl s') = rl_point (rl s);
  completion_state : rl_state_done (rl s') = rl_state_done (rl s);
  completion_history : the_history (rl s') = the_history (rl s);
  completion_offset : history_offset (rl s') = history_offset (rl s);
  completion_trace :
    exists asked, trace s' = trace s ++ asked /\
                  Forall (generator_call text) asked
}.

(** ** Reading a hex dump back *)

(** The place of a character in a string, counted from [n]. *)
Fixpoint index_from (n : N) (c : ascii) (s : string) : option N :=
  match s with
  | EmptyString => None
  | String d s' => if Ascii.eqb c d then Some n else index_from (N.succ n) c s'
  end.

(** The value of a hex digit as [bt_shell_hexdump] writes it: its place
    in [hexdigits]. *)
Definition unhex (c : ascii) : option N := index_from 0 c hexdigits.

Definition byte_of_digits (hi lo : ascii) : option Byte.byte :=
  match unhex hi, unhex lo with
  | Some h, Some l => Byte.of_N (h * 16 + l)
  | _, _ => None
  end.

(** The bytes of the groups of a separator and two hex digits at the
    front of [l], at most [fuel] of them. *)
Fixpoint decode_cells (fuel : nat) (l : list ascii) : list Byte.byte :=
  match fuel, l with
  | S fuel', _ :: hi :: lo :: l' =>
    match byte_of_digits hi lo with
    | Some b => b :: decode_cells fuel' l'
    | None => []
    end
  | _, _ => []
  end.

(** The bytes a printed row shows in its hex column. *)
Definition decode_row (row : string) : list Byte.byte :=
  decode_cells 16 (tail (list_ascii_of_string row)).

(** ** Further concrete tables and sessions *)

(** A table with a [quit] of the application's own: a first entry of that
    name without a handler, and a second one with handler 2. *)
Definition own_quit_menu : list bt_shell_menu_entry :=
  [ mkEntry "quit" None None (Some "Quit (disabled)") None None;
    mkEntry "quit" (Some "[now]") (Some (CbApp 2)) (Some "Ask, then quit")
            None None ].

Definition own_quit : shell :=
  with_data (set_menu (Some own_quit_menu)) attached.

(** The state in which the session [pair_then_sigterm] of the demo
    application leaves the shell when [bt_shell_run] returns. *)
Definition session_end : shell :=
  Eval vm_compute in
    default attached
            (state_after (bt_shell_run demo 0 5 pair_then_sigterm) attached).

(** ** Running the monad *)

Lemma with_trace_same s : with_trace (trace s) s = s.
Proof. destruct s; reflexivity. Qed.

Lemma bind_Ret {A B} (c : M A) (k : A -> M B) s a s' :
  c s = Ret a s' -> bind c k s = k a s'.
Proof. intros H. unfold bind. rewrite H. reflexivity. Qed.

Lemma bind_assoc {A B C} (c : M A) (k : A -> M B) (k' : B -> M C) s :
  bind (bind c k) k' s = bind c (fun a => bind (k a) k') s.
Proof. unfold bind. destruct (c s); reflexivity. Qed.

Section Steps.

Context (R : shell -> shell -> Prop).
Hypothesis R_refl : forall s, R s s.
Hypothesis R_trans : forall s1 s2 s3, R s1 s2 -> R s2 s3 -> R s1 s3.

Lemma steps_ret {A} (a : A) : steps R (ret a).
Proof. intros s. exists a, s. split; [reflexivity | apply R_refl]. Qed.

Lemma steps_bind {A B} (c : M A) (k : A -> M B) :
  steps R c -> (forall a, steps R (k a)) -> steps R (bind c k).
Proof.
  intros Hc Hk s.
  destruct (Hc s) as (a & s1 & E1 & R1).
  destruct (Hk a s1) as (b & s2 & E2 & R2).
  exists b, s2. split.
  - rewrite (bind_Ret _ _ _ _ _ E1). exact E2.
  - eapply R_trans; eassumption.
Qed.

Lemma steps_get : steps R get.
Proof. intros s. exists s, s. split; [reflexivity | apply R_refl]. Qed.

Lemma steps_modify f : (forall s, R s (f s)) -> steps R (modify f).
Proof. intros H s. exists tt, (f s). split; [reflexivity | apply H]. Qed.

Lemma steps_for_each {A} (f : A -> M unit) l :
  (forall x, steps R (f x)) -> steps R (for_each f l).
Proof.
  intros H. induction l as [|x l IH]; simpl.
  - apply steps_ret.
  - apply steps_bind; [apply H | intros _; exact IH].
Qed.

Lemma psteps_ret {A} (a : A) : psteps R (ret a).
Proof. intros s. simpl. apply R_refl. Qed.

Lemma psteps_bind {A B} (c : M A) (k : A -> M B) :
  psteps R c -> (forall a, psteps R (k a)) -> psteps R (bind c k).
Proof.
  intros Hc Hk s. unfold bind. specialize (Hc s).
  destruct (c s) as [a s1| |s1]; [|exact I|exact Hc].
  specialize (Hk a s1).
  destruct (k a s1) as [b s2| |s2]; [|exact I|]; eapply R_trans; eassumption.
Qed.

Lemma steps_psteps {A} (c : M A) : steps R c -> psteps R c.
Proof.
  intros H s. destruct (H s) as (a & s' & E & HR). rewrite E. exact HR.
Qed.

End Steps.

Lemma steps_weaken {A} (R R' : shell -> shell -> Prop) (c : M A) :
  (forall s s', R s s' -> R' s s') -> steps R c -> steps R' c.
Proof.
  intros H Hc s. destruct (Hc s) as (a & s' & E & HR).
  exists a, s'. split; [exact E | apply H, HR].
Qed.

(** ** The frame of the public functions *)

Lemma api_frame_refl s : api_frame s s.
Proof.
  split; try reflexivity; [|auto].
  exists []. split; [symmetry; apply app_nil_r | constructor].
Qed.

Lemma api_frame_trans s1 s2 s3 :
  api_frame s1 s2 -> api_frame s2 s3 -> api_frame s1 s3.
Proof.
  intros [(e1 & T1 & F1) H1 O1 G1 L1 M1] [(e2 & T2 & F2) H2 O2 G2 L2 M2].
  split; try congruence; [|auto].
  exists (e1 ++ e2). split.
  - rewrite T2, T1. symmetry. apply app_assoc.
  - apply Forall_app. split; assumption.
Qed.

Create HintDb shell.
#[local] Hint Resolve api_frame_refl api_frame_trans : shell.

Ltac frame_bind :=
  apply (steps_bind api_frame api_frame_trans).
Ltac frame_ret :=
  apply (steps_ret api_frame api_frame_refl).

Lemma frame_emit e : api_event e -> steps api_frame (emit e).
Proof.
  intros He. apply steps_modify. intros s.
  split; try reflexivity; [|auto].
  exists [e]. split; [reflexivity | repeat constructor; exact He].
Qed.

Lemma frame_with_rl_line f :
  (forall r, the_history (f r) = the_history r /\
             history_offset (f r) = history_offset r) ->
  steps api_frame (modify (with_rl f)).
Proof.
  intros H. apply steps_modify. intros s.
  destruct (H (rl s)) as [H1 H2].
  split; simpl; try assumption; try reflexivity; [|auto].
  exists []. split; [symmetry; apply app_nil_r | constructor].
Qed.

Lemma frame_rl_replace_line text : steps api_frame (rl_replace_line text).
Proof. apply frame_with_rl_line. intros r. split; reflexivity. Qed.

Lemma frame_set_rl_point p : steps api_frame (set_rl_point p).
Proof. apply frame_with_rl_line. intros r. split; reflexivity. Qed.

Lemma frame_printf text : steps api_frame (printf text).
Proof. apply frame_emit. exact I. Qed.

Lemma frame_with_data f :
  (forall d t, data_menu d = Some t -> data_menu (f d) = Some t) ->
  steps api_frame (modify (with_data f)).
Proof.
  intros H. apply steps_modify. intros s.
  split; simpl; try reflexivity; [|apply H].
  exists []. split; [symmetry; apply app_nil_r | constructor].
Qed.

Lemma frame_bt_shell_printf text : steps api_frame (bt_shell_printf text).
Proof.
  unfold bt_shell_printf.
  frame_bind; [apply steps_get; auto with shell|]. intros s.
  frame_bind.
  { destruct (negb (rl_state_done (rl s))); [|frame_ret].
    destruct (negb (data_saved_prompt (data s))); [|frame_ret].
    frame_bind; [apply frame_emit; exact I|]. intros _.
    frame_bind; [apply frame_rl_replace_line|]. intros _.
    apply frame_emit; exact I. }
  intros _. frame_bind; [apply frame_printf|]. intros _.
  destruct (negb (rl_state_done (rl s))); [|frame_ret].
  frame_bind; [apply steps_get; auto with shell|]. intros s'.
  frame_bind.
  { destruct (negb (data_saved_prompt (data s'))); [|frame_ret].
    apply frame_emit; exact I. }
  intros _. frame_bind; [apply frame_rl_replace_line|]. intros _.
  frame_bind; [apply frame_set_rl_point|]. intros _.
  apply frame_emit; exact I.
Qed.

Section Frames.

Variable E : environment.

Lemma frame_hexdump_rows buf : forall i str,
  steps api_frame (hexdump_rows buf i str).
Proof.
  induction buf as [|b buf IH]; intros i str; cbn [hexdump_rows].
  - frame_ret.
  - destruct ((i + 1) mod 16 =? 0)%nat; [|apply IH].
    frame_bind; [apply frame_bt_shell_printf|]. intros _. apply IH.
Qed.

Lemma frame_bt_shell_hexdump str0 buf :
  steps api_frame (bt_shell_hexdump str0 buf).
Proof.
  unfold bt_shell_hexdump.
  destruct (length buf =? 0)%nat; [frame_ret|].
  frame_bind; [apply frame_hexdump_rows|]. intros str.
  destruct (0 <? length buf mod 16)%nat; [|frame_ret].
  apply frame_bt_shell_printf.
Qed.

Lemma frame_bt_shell_prompt_input label msg func user_data :
  steps api_frame (bt_shell_prompt_input E label msg func user_data).
Proof.
  unfold bt_shell_prompt_input.
  frame_bind; [apply steps_get; auto with shell|]. intros s.
  destruct (data_saved_prompt (data s)); [frame_ret|].
  frame_bind; [apply frame_emit; exact I|]. intros _.
  frame_bind; [apply frame_emit; exact I|]. intros _.
  frame_bind; [apply frame_with_data; auto|]. intros _.
  frame_bind; [apply frame_with_data; auto|]. intros _.
  apply frame_with_data; auto.
Qed.

Lemma frame_bt_shell_set_menu menu : steps api_frame (bt_shell_set_menu menu).
Proof.
  intros s. unfold bt_shell_set_menu, bind, get.
  destruct (data_menu (data s)) as [t|] eqn:Hm; cbn [is_null negb orb].
  - exists false, s. split; [reflexivity | apply api_frame_refl].
  - destruct menu as [m|]; cbn [is_null].
    + exists true, (with_data (set_menu (Some m)) s). split; [reflexivity|].
      split; simpl; try reflexivity; [|congruence].
      exists []. split; [symmetry; apply app_nil_r | constructor].
    + exists false, s. split; [reflexivity | apply api_frame_refl].
Qed.

Lemma frame_bt_shell_set_prompt text : steps api_frame (bt_shell_set_prompt text).
Proof.
  unfold bt_shell_set_prompt.
  frame_bind; [apply steps_get; auto with shell|]. intros s.
  destruct (main_loop s); [|frame_ret].
  frame_bind; [apply frame_emit; exact I|]. intros _.
  frame_bind; [apply frame_printf|]. intros _.
  frame_bind; apply frame_emit || intros _; try exact I.
  apply frame_emit; exact I.
Qed.

Lemma frame_bt_shell_attach fd : steps api_frame (bt_shell_attach fd).
Proof.
  unfold bt_shell_attach, io_new.
  frame_bind; [apply steps_get; auto with shell|]. intros s.
  destruct (data_input (data s)); [frame_ret|].
  frame_bind.
  { frame_bind; [apply frame_emit; exact I|]. intros _. frame_ret. }
  intros io. frame_bind; [apply frame_with_data; auto|]. intros _. frame_ret.
Qed.

Lemma frame_bt_shell_detach : steps api_frame bt_shell_detach.
Proof.
  unfold bt_shell_detach, io_destroy.
  frame_bind; [apply steps_get; auto with shell|]. intros s.
  destruct (data_input (data s)); [|frame_ret].
  frame_bind; [apply frame_emit; exact I|]. intros _.
  frame_bind; [apply frame_with_data; auto|]. intros _. frame_ret.
Qed.

Lemma frame_run_api a : steps api_frame (run_api E a).
Proof.
  destruct a; simpl.
  - apply frame_bt_shell_printf.
  - apply frame_bt_shell_hexdump.
  - apply frame_bt_shell_prompt_input.
  - frame_bind; [apply frame_bt_shell_set_menu|]. intros _. frame_ret.
  - apply frame_bt_shell_set_prompt.
  - frame_bind; [apply frame_bt_shell_attach|]. intros _. frame_ret.
  - frame_bind; [apply frame_bt_shell_detach|]. intros _. frame_ret.
Qed.

Lemma frame_script l : steps api_frame (for_each (run_api E) l).
Proof.
  apply (steps_for_each api_frame api_frame_refl api_frame_trans).
  intros a. apply frame_run_api.
Qed.

End Frames.

(** ** The prompt override *)

Lemma prompt_calls_app t1 t2 :
  prompt_calls (t1 ++ t2) = prompt_calls t1 ++ prompt_calls t2.
Proof.
  induction t1 as [|e t1 IH]; [reflexivity|].
  destruct e; simpl; rewrite ?IH; reflexivity.
Qed.

Lemma prompt_calls_api evs : Forall api_event evs -> prompt_calls evs = [].
Proof.
  induction 1 as [|e evs He _ IH]; [reflexivity|].
  destruct e; simpl in *; try contradiction; exact IH.
Qed.

Lemma quit_requests_app t1 t2 :
  quit_requests (t1 ++ t2) = quit_requests t1 + quit_requests t2.
Proof. unfold quit_requests. rewrite List.filter_app, length_app. reflexivity. Qed.

Lemma bt_shell_release_prompt_pending E input s f :
  data_saved_prompt (data s) = true ->
  data_saved_func (data s) = Some f ->
  bt_shell_release_prompt E input s =
  bind (for_each (run_api E)
          (env_prompt_body E f input (data_saved_user_data (data s))
                           (released f input s)))
       (fun _ => ret 0%Z) (released f input s).
Proof.
  intros Hp Hf. unfold bt_shell_release_prompt. cbv [bind get].
  rewrite Hp, Hf.
  cbv [negb modify rl_restore_prompt emit call_prompt_func bind get ret].
  assert (Hs : with_trace
                 (trace (with_data (set_saved_user_data 0)
                           (with_data (set_saved_func None)
                              (with_trace (trace (with_data (set_saved_prompt false) s)
                                             ++ [RlRestorePrompt])
                                 (with_data (set_saved_prompt false) s))))
                    ++ [CallPrompt f input (data_saved_user_data (data s))])
                 (with_data (set_saved_user_data 0)
                    (with_data (set_saved_func None)
                       (with_trace (trace (with_data (set_saved_prompt false) s)
                                      ++ [RlRestorePrompt])
                          (with_data (set_saved_prompt false) s))))
               = released f input s).
  { unfold released. destruct s as [d l t g r tr]. cbn.
    rewrite <- app_assoc. reflexivity. }
  rewrite Hs. reflexivity.
Qed.

Lemma bt_shell_release_prompt_idle E input s :
  data_saved_prompt (data s) = false ->
  bt_shell_release_prompt E input s = Ret (-1)%Z s.
Proof.
  intros Hp. unfold bt_shell_release_prompt, bind, get. rewrite Hp. reflexivity.
Qed.

Lemma bt_shell_release_prompt_returns E input s f :
  data_saved_prompt (data s) = true ->
  data_saved_func (data s) = Some f ->
  exists s', bt_shell_release_prompt E input s = Ret 0%Z s' /\
             api_frame (released f input s) s'.
Proof.
  intros Hp Hf. rewrite (bt_shell_release_prompt_pending E input s f Hp Hf).
  destruct (frame_script E
              (env_prompt_body E f input (data_saved_user_data (data s))
                               (released f input s)) (released f input s))
    as ([] & s' & Hrun & Hframe).
  exists s'. split; [|exact Hframe].
  rewrite (bind_Ret _ _ _ _ _ Hrun). reflexivity.
Qed.

(** C2: while an override is pending, a second [bt_shell_prompt_input]
    changes nothing at all, so the pending callback and its context stay;
    a following [bt_shell_release_prompt] returns 0 and calls the pending
    callback, and no other, once, with the released input and the saved
    context. *)
Theorem prompt_override_exclusive (E : environment) (s : shell)
  (label msg : string) (func2 : option prompt_func) (user_data2 : Z)
  (input : string) (f1 : prompt_func) :
  data_saved_prompt (data s) = true ->
  data_saved_func (data s) = Some f1 ->
  bt_shell_prompt_input E label msg func2 user_data2 s = Ret tt s /\
  exists s',
    bind (bt_shell_prompt_input E label msg func2 user_data2)
         (fun _ => bt_shell_release_prompt E input) s = Ret 0%Z s' /\
    prompt_calls (trace s') =
    prompt_calls (trace s) ++ [(f1, input, data_saved_user_data (data s))].
Proof.
  intros Hp Hf.
  assert (Hsecond : bt_shell_prompt_input E label msg func2 user_data2 s = Ret tt s).
  { unfold bt_shell_prompt_input, bind, get. rewrite Hp. reflexivity. }
  split; [exact Hsecond|].
  destruct (bt_shell_release_prompt_returns E input s f1 Hp Hf)
    as (s' & Hrel & [(evs & Htr & Hevs) _ _ _ _ _]).
  exists s'. split.
  - rewrite (bind_Ret _ _ _ _ _ Hsecond). exact Hrel.
  - rewrite Htr. unfold released. cbn.
    rewrite !prompt_calls_app, (prompt_calls_api evs Hevs), app_nil_r.
    reflexivity.
Qed.

(** ** Signals *)

Lemma with_terminated_same s : terminated s = true -> with_terminated true s = s.
Proof. destruct s; simpl; intros ->; reflexivity. Qed.

Lemma signal_read_sigterm_again s :
  terminated s = true -> signal_read (Some SIGTERM) s = Ret false s.
Proof.
  intros H. cbv [signal_read bind get modify ret]. cbn.
  rewrite H. cbn. rewrite (with_terminated_same s H). reflexivity.
Qed.

Lemma signal_read_sigint_unbound s :
  data_input (data s) = None ->
  signal_read (Some SIGINT) s = signal_read (Some SIGTERM) s.
Proof.
  intros H. cbv [signal_read bind get]. cbn. rewrite H. reflexivity.
Qed.

Lemma signal_read_sigint_bound s io :
  data_input (data s) = Some io ->
  signal_read (Some SIGINT) s =
  Ret false (with_trace (trace s ++ [RlCrlf; RlOnNewLine; RlRedisplay])
                        (with_rl (set_line "" 0) s)).
Proof.
  intros H. cbv [signal_read bind get]. cbn. rewrite H.
  cbv [rl_replace_line rl_crlf rl_on_new_line rl_redisplay emit modify ret].
  destruct s as [d l t g r tr]. unfold with_trace, with_rl, set_line. cbn.
  rewrite Nat.min_0_r, <- !app_assoc. reflexivity.
Qed.

(** One record: the result, and what it does to the flag, to the binding
    and to the number of stop requests. *)
Lemma signal_read_step s signo :
  exists s',
    signal_read (Some signo) s = Ret false s' /\
    data s' = data s /\
    terminated s' = terminated s || terminating s signo /\
    quit_requests (trace s') =
    quit_requests (trace s)
    + (if negb (terminated s) && terminating s signo then 1 else 0).
Proof.
  unfold terminating, signal_read.
  destruct (signo =? SIGINT)%Z eqn:Hint.
  - apply Z.eqb_eq in Hint. subst signo. cbn [Z.eqb SIGINT SIGTERM orb andb].
    cbv [bind get]. destruct (data_input (data s)) as [io|] eqn:Hin.
    + eexists. split; [reflexivity|].
      destruct s as [d l t g r tr]. cbn -[quit_requests].
      rewrite !quit_requests_app. cbn.
      rewrite andb_false_r, orb_false_r. repeat split; lia.
    + destruct (terminated s) eqn:Ht; cbn.
      * eexists. split; [reflexivity|].
        destruct s as [d l t g r tr]; cbn in *. repeat split; lia.
      * eexists. split; [reflexivity|].
        destruct s as [d l t g r tr]; cbn -[quit_requests] in *.
        rewrite !quit_requests_app. cbn. repeat split; lia.
  - destruct (signo =? SIGTERM)%Z eqn:Hterm; cbn [orb andb].
    + cbv [bind get]. destruct (terminated s) eqn:Ht; cbn.
      * eexists. split; [reflexivity|].
        destruct s as [d l t g r tr]; cbn in *. repeat split; lia.
      * eexists. split; [reflexivity|].
        destruct s as [d l t g r tr]; cbn -[quit_requests] in *.
        rewrite !quit_requests_app. cbn. repeat split; lia.
    + exists s. rewrite andb_false_r, orb_false_r. cbn.
      repeat split; lia.
Qed.

Lemma signal_read_all_quits signals : forall s,
  exists s',
    signal_read_all signals s = Ret tt s' /\
    quit_requests (trace s') =
    quit_requests (trace s)
    + (if negb (terminated s) && existsb (terminating s) signals then 1 else 0).
Proof.
  induction signals as [|signo signals IH]; intros s.
  - exists s. split; [reflexivity|]. rewrite andb_false_r. lia.
  - destruct (signal_read_step s signo) as (s1 & Hrun & Hd & Ht & Hq).
    destruct (IH s1) as (s2 & Hrun2 & Hq2).
    exists s2. split.
    + unfold signal_read_all. cbn [for_each].
      rewrite bind_assoc, (bind_Ret _ _ _ _ _ Hrun). exact Hrun2.
    + rewrite Hq2, Hq, Ht. cbn [existsb].
      assert (Hsame : existsb (terminating s1) signals
                      = existsb (terminating s) signals).
      { unfold terminating. rewrite Hd. reflexivity. }
      rewrite Hsame.
      destruct (terminated s), (terminating s signo),
        (existsb (terminating s) signals); simpl; lia.
Qed.

(** C9: over any sequence of signal records read while the flag is still
    clear, the loop is asked to stop once if the sequence holds a SIGTERM,
    or a SIGINT while no input is attached, and not at all otherwise; a
    SIGTERM read after the flag is set changes nothing; a SIGINT read
    while no input is attached does what a SIGTERM does; a SIGINT read
    while input is attached empties the line, redraws, and asks for no
    stop. *)
Theorem signal_read_policy (s : shell) :
  (forall signals,
     terminated s = false ->
     exists s',
       signal_read_all signals s = Ret tt s' /\
       quit_requests (trace s') =
       quit_requests (trace s)
       + (if existsb (terminating s) signals then 1 else 0)) /\
  (terminated s = true -> signal_read (Some SIGTERM) s = Ret false s) /\
  (data_input (data s) = None ->
   signal_read (Some SIGINT) s = signal_read (Some SIGTERM) s) /\
  (forall io,
     data_input (data s) = Some io ->
     signal_read (Some SIGINT) s =
     Ret false (with_trace (trace s ++ [RlCrlf; RlOnNewLine; RlRedisplay])
                           (with_rl (set_line "" 0) s))).
Proof.
  split; [|split; [|split]].
  - intros signals Ht.
    destruct (signal_read_all_quits signals s) as (s' & Hrun & Hq).
    exists s'. split; [exact Hrun|]. rewrite Hq, Ht. reflexivity.
  - apply signal_read_sigterm_again.
  - apply signal_read_sigint_unbound.
  - apply signal_read_sigint_bound.
Qed.

(** ** Strings *)

Lemma string_compare_refl s : String.compare s s = Eq.
Proof.
  induction s as [|c s IH]; [reflexivity|]. simpl.
  unfold Ascii.compare. rewrite N.compare_refl. exact IH.
Qed.

Lemma strcmp_eqb a b : (strcmp a b =? 0)%Z = String.eqb a b.
Proof.
  unfold strcmp. destruct (String.eqb_spec a b) as [->|Hne].
  - rewrite string_compare_refl. reflexivity.
  - destruct (String.compare a b) eqn:Hc; try reflexivity.
    apply String.compare_eq_iff in Hc. contradiction.
Qed.

Lemma length_append a b :
  String.length (a +:+ b) = String.length a + String.length b.
Proof. induction a as [|c a IH]; simpl; [reflexivity | rewrite IH; reflexivity]. Qed.

Lemma append_nil_r a : a +:+ "" = a.
Proof.
  induction a as [|c a IH]; [reflexivity|].
  change (String c (a +:+ "") = String c a). rewrite IH. reflexivity.
Qed.

Lemma append_assoc a b c : (a +:+ b) +:+ c = a +:+ (b +:+ c).
Proof.
  induction a as [|x a IH]; [reflexivity|].
  change (String x ((a +:+ b) +:+ c) = String x (a +:+ (b +:+ c))).
  rewrite IH. reflexivity.
Qed.

Lemma substring_all s : String.substring 0 (String.length s) s = s.
Proof. induction s as [|c s IH]; simpl; [reflexivity | rewrite IH; reflexivity]. Qed.

Lemma substring_prefix a b :
  String.substring 0 (String.length a) (a +:+ b) = a.
Proof.
  induction a as [|c a IH]; simpl.
  - destruct b; reflexivity.
  - rewrite IH. reflexivity.
Qed.

Lemma str_drop_0 s : str_drop 0 s = s.
Proof. unfold str_drop. rewrite Nat.sub_0_r. apply substring_all. Qed.

Lemma str_drop_cons n c s : str_drop (S n) (String c s) = str_drop n s.
Proof. reflexivity. Qed.

Lemma str_drop_app a b : str_drop (String.length a) (a +:+ b) = b.
Proof.
  induction a as [|c a IH].
  - apply str_drop_0.
  - change (str_drop (S (String.length a)) (String c (a +:+ b)) = b).
    rewrite str_drop_cons. exact IH.
Qed.

Lemma length_spaces k : String.length (spaces k) = k.
Proof. induction k; simpl; congruence. Qed.

Lemma strspn_spaces k t :
  strspn (spaces k +:+ t) " " = k + strspn t " ".
Proof. induction k as [|k IH]; simpl; [reflexivity | rewrite IH; reflexivity]. Qed.

Lemma strspn_no_space cmd rest :
  cmd <> "" -> has_space cmd = false -> strspn (cmd +:+ rest) " " = 0.
Proof.
  destruct cmd as [|c cmd]; [congruence|]. simpl. intros _.
  destruct (Ascii.eqb c " "); [discriminate | reflexivity].
Qed.

Lemma strcspn_token cmd rest :
  has_space cmd = false ->
  rest = "" \/ (exists arg, rest = " " +:+ arg) ->
  strcspn (cmd +:+ rest) " " = String.length cmd.
Proof.
  intros Hns Hrest. induction cmd as [|c cmd IH]; simpl.
  - destruct Hrest as [->|(arg & ->)]; reflexivity.
  - simpl in Hns. destruct (Ascii.eqb c " "); [discriminate|].
    rewrite (IH Hns). reflexivity.
Qed.

Lemma str_drop_spaces k t : str_drop k (spaces k +:+ t) = t.
Proof.
  replace k with (String.length (spaces k)) at 1 by apply length_spaces.
  apply str_drop_app.
Qed.

Lemma strtok_r_spaces k : fst (strtok_r (spaces k) " ") = None.
Proof.
  unfold strtok_r. destruct (spaces k) eqn:Hs; [reflexivity|]. rewrite <- Hs.
  assert (Hn : strspn (spaces k) " " = k).
  { rewrite <- (append_nil_r (spaces k)), strspn_spaces. simpl. lia. }
  assert (Hd : str_drop k (spaces k) = "").
  { rewrite <- (append_nil_r (spaces k)) at 1. apply str_drop_spaces. }
  rewrite Hn, Hd. reflexivity.
Qed.

Lemma strtok_r_token k cmd rest :
  cmd <> "" -> has_space cmd = false ->
  rest = "" \/ (exists arg, rest = " " +:+ arg) ->
  strtok_r (spaces k +:+ cmd +:+ rest) " " =
  (Some cmd, Some (match rest with
                   | EmptyString => EmptyString
                   | String _ arg => arg
                   end)).
Proof.
  intros Hne Hns Hrest. unfold strtok_r.
  destruct (spaces k +:+ cmd +:+ rest) eqn:Hs.
  { destruct k; simpl in Hs; [|discriminate].
    destruct cmd; [congruence | discriminate]. }
  rewrite <- Hs. clear Hs.
  rewrite strspn_spaces, (strspn_no_space cmd rest Hne Hns), Nat.add_0_r.
  rewrite !str_drop_spaces.
  destruct (cmd +:+ rest) eqn:Hc.
  { destruct cmd; [congruence | discriminate]. }
  rewrite <- Hc. clear Hc.
  rewrite (strcspn_token cmd rest Hns Hrest), substring_prefix, str_drop_app.
  destruct rest; reflexivity.
Qed.

(** Every line is a run of spaces, followed by nothing, by a token, or by a
    token, a space and the rest. *)
Lemma line_cases input :
  (exists k, input = spaces k) \/
  (exists k cmd, cmd <> "" /\ has_space cmd = false /\
                 input = spaces k +:+ cmd) \/
  (exists k cmd arg, cmd <> "" /\ has_space cmd = false /\
                     input = spaces k +:+ cmd +:+ " " +:+ arg).
Proof.
  assert (Htok : forall t, has_space t = false \/
            exists cmd arg, has_space cmd = false /\ t = cmd +:+ " " +:+ arg).
  { induction t as [|c t IH]; [left; reflexivity|].
    destruct (Ascii.eqb_spec c " ") as [->|Hc].
    - right. exists "", t. split; reflexivity.
    - destruct IH as [IH|(cmd & arg & Hns & ->)].
      + left. simpl. destruct (Ascii.eqb_spec c " "); [contradiction | exact IH].
      + right. exists (String c cmd), arg. split; [|reflexivity].
        simpl. destruct (Ascii.eqb_spec c " "); [contradiction | exact Hns]. }
  induction input as [|c input IH].
  - left. exists 0. reflexivity.
  - destruct (Ascii.eqb_spec c " ") as [->|Hc].
    + destruct IH as [(k & ->)|[(k & cmd & H1 & H2 & ->)|(k & cmd & arg & H1 & H2 & ->)]].
      * left. exists (S k). reflexivity.
      * right. left. exists (S k), cmd. repeat split; assumption.
      * right. right. exists (S k), cmd, arg. repeat split; assumption.
    + destruct (Htok (String c input)) as [Hns|(cmd & arg & Hns & Heq)].
      * right. left. exists 0, (String c input). repeat split; [discriminate | exact Hns].
      * right. right. exists 0, cmd, arg. repeat split; [|exact Hns|exact Heq].
        intros ->. simpl in Heq. injection Heq as Hc' _. contradiction.
Qed.

(** ** The history step *)

Lemma rl_handler_history_run input s :
  rl_handler_history input s = Ret tt (with_rl (record_line input) s).
Proof.
  unfold rl_handler_history, history_search, record_line, with_rl at 2.
  cbv [bind get].
  destruct (history_find input (-1) (the_history (rl s)) (history_offset (rl s)))
    as [[j [|k]]|]; cbn; destruct s as [d l t g r tr]; reflexivity.
Qed.

(** ** The menu listing and [shell_exec] *)

Lemma for_each_printf {A} (text : A -> string) l : forall s,
  for_each (fun x => printf (text x)) l s =
  Ret tt (with_trace (trace s ++ map (fun x => Printf (text x)) l) s).
Proof.
  induction l as [|x l IH]; intros s.
  - simpl. rewrite app_nil_r, with_trace_same. reflexivity.
  - cbn [for_each map]. cbv [bind printf emit modify]. rewrite IH.
    destruct s as [d lp t g r tr]. cbn. rewrite <- app_assoc. reflexivity.
Qed.

Lemma shell_print_menu_run E s menu :
  data_menu (data s) = Some menu ->
  shell_print_menu E s =
  Ret tt (with_trace (trace s ++ map Printf (listing E menu)) s).
Proof.
  intros Hm. unfold shell_print_menu. cbv [bind get]. rewrite Hm.
  cbv [print_text print_menu printf emit modify].
  rewrite (for_each_printf (menu_line E) menu). cbv [bind].
  rewrite (for_each_printf (menu_line E) default_menu).
  destruct s as [d lp t g r tr]. unfold listing. cbn.
  rewrite !map_app, <- !app_assoc, !map_map. reflexivity.
Qed.

Lemma exec_table_resolve E table cmd arg : forall s,
  exec_table E table cmd arg s =
  match resolve table cmd with
  | Some f => bind (call_menu_cb E f arg) (fun _ => ret true) s
  | None => Ret false s
  end.
Proof.
  induction table as [|entry table IH]; intros s; [reflexivity|].
  cbn [exec_table resolve]. rewrite strcmp_eqb.
  destruct (String.eqb cmd (entry_cmd entry)); cbn [negb]; [|apply IH].
  destruct (entry_func entry); [reflexivity | apply IH].
Qed.

(** [shell_exec] with a table attached: the application's entry wins over a
    built-in of the same name; a name neither table resolves is reported. *)
Lemma shell_exec_resolve E cmd arg s menu :
  data_menu (data s) = Some menu ->
  shell_exec E (Some cmd) arg s =
  match resolve menu cmd, resolve default_menu cmd with
  | Some f, _ => call_menu_cb E f arg s
  | None, Some f => call_menu_cb E f arg s
  | None, None =>
    Ret tt (with_trace
              (trace s ++ [Printf (env_COLOR_HIGHLIGHT E +:+ "Invalid command"
                                     +:+ env_COLOR_OFF E +:+ nl)]) s)
  end.
Proof.
  intros Hm. unfold shell_exec. cbv [bind get]. rewrite Hm.
  rewrite exec_table_resolve.
  destruct (resolve menu cmd) as [f|].
  - cbv [bind ret]. destruct (call_menu_cb E f arg s) as [[] s'| |s']; reflexivity.
  - rewrite exec_table_resolve.
    destruct (resolve default_menu cmd) as [f|]; [|reflexivity].
    cbv [bind ret]. destruct (call_menu_cb E f arg s) as [[] s'| |s']; reflexivity.
Qed.

Lemma shell_exec_no_menu E cmd arg s :
  data_menu (data s) = None -> shell_exec E cmd arg s = Ret tt s.
Proof. intros Hm. unfold shell_exec. cbv [bind get]. rewrite Hm. reflexivity. Qed.

(** ** What the handlers leave alone *)

(** Relations between the state before and after that the shell's own
    steps respect: any that holds across a changed trace, a changed loop
    flag and a call of the public functions holds across [shell_exec]; one
    that also holds across changes of the prompt fields, of Readline's
    state and of the [terminated] flag holds across everything the reactor
    dispatches. *)
Section Preserved.

Context (R : shell -> shell -> Prop).
Hypothesis R_refl : forall s, R s s.
Hypothesis R_trans : forall s1 s2 s3, R s1 s2 -> R s2 s3 -> R s1 s3.
Hypothesis R_trace : forall t s, R s (with_trace t s).
Hypothesis R_main_loop : forall l s, R s (with_main_loop l s).
Hypothesis R_api : forall s s', api_frame s s' -> R s s'.
Hypothesis R_prompt :
  forall f s, (forall d, data_menu (f d) = data_menu d /\
                         data_input (f d) = data_input d) ->
              R s (with_data f s).
Hypothesis R_rl : forall f s, R s (with_rl f s).
Hypothesis R_terminated : forall b s, R s (with_terminated b s).

Variable E : environment.

Lemma kept_emit e : steps R (emit e).
Proof. apply steps_modify. intros s. apply R_trace. Qed.

Lemma kept_g_main_loop_quit : steps R g_main_loop_quit.
Proof.
  unfold g_main_loop_quit. apply (steps_bind R R_trans); [apply kept_emit|].
  intros _. apply steps_modify. intros s. apply R_main_loop.
Qed.

Lemma kept_api {A} (c : M A) : steps api_frame c -> steps R c.
Proof. apply steps_weaken. exact R_api. Qed.

Lemma kept_call_menu_cb f arg : steps R (call_menu_cb E f arg).
Proof.
  destruct f; simpl.
  - apply kept_api, frame_bt_shell_printf.
  - apply kept_g_main_loop_quit.
  - intros s. unfold cmd_help.
    destruct (data_menu (data s)) as [menu|] eqn:Hm.
    + rewrite (shell_print_menu_run E s menu Hm).
      eexists _, _. split; [reflexivity | apply R_trace].
    + exists tt, s. split; [|apply R_refl].
      unfold shell_print_menu. cbv [bind get]. rewrite Hm. reflexivity.
  - apply (steps_bind R R_trans); [apply kept_emit|]. intros _.
    apply (steps_bind R R_trans); [apply steps_get; exact R_refl|]. intros s.
    apply kept_api, frame_script.
Qed.

Lemma kept_shell_exec cmd arg : steps R (shell_exec E cmd arg).
Proof.
  intros s. destruct (data_menu (data s)) as [menu|] eqn:Hm.
  - destruct cmd as [cmd|].
    + rewrite (shell_exec_resolve E cmd arg s menu Hm).
      destruct (resolve menu cmd) as [f|]; [apply kept_call_menu_cb|].
      destruct (resolve default_menu cmd) as [f|]; [apply kept_call_menu_cb|].
      eexists _, _. split; [reflexivity | apply R_trace].
    + exists tt, s. split; [|apply R_refl].
      unfold shell_exec. cbv [bind get]. rewrite Hm. reflexivity.
  - exists tt, s. split; [|apply R_refl].
    apply shell_exec_no_menu, Hm.
Qed.

Lemma kept_rl_handler_exec input : steps R (rl_handler_exec E input).
Proof.
  unfold rl_handler_exec. destruct (strtok_r input " ") as [[cmd|] arg].
  - apply kept_shell_exec.
  - apply steps_ret, R_refl.
Qed.

Lemma kept_bt_shell_release_prompt input :
  psteps R (bt_shell_release_prompt E input).
Proof.
  intros s.
  destruct (data_saved_prompt (data s)) eqn:Hp.
  - destruct (data_saved_func (data s)) as [f|] eqn:Hf.
    + destruct (bt_shell_release_prompt_returns E input s f Hp Hf)
        as (s' & Hrun & Hframe).
      rewrite Hrun. apply (R_trans _ (released f input s)); [|apply R_api, Hframe].
      unfold released.
      apply (R_trans _ (with_data (fun d => mkData (data_input d) false None 0
                                                   (data_menu d)) s)).
      * apply R_prompt. intros d. split; reflexivity.
      * apply R_trace.
    + unfold bt_shell_release_prompt. cbv [bind get]. rewrite Hp, Hf. exact I.
  - rewrite (bt_shell_release_prompt_idle E input s Hp). apply R_refl.
Qed.

Lemma kept_rl_handler input : psteps R (rl_handler E input).
Proof.
  destruct input as [input|]; cbn [rl_handler].
  - destruct (strlen input =? 0)%nat; [apply psteps_ret, R_refl|].
    apply (psteps_bind R R_trans); [apply kept_bt_shell_release_prompt|].
    intros released. destruct (released =? 0)%Z; [apply psteps_ret, R_refl|].
    apply (psteps_bind R R_trans).
    + intros s. rewrite rl_handler_history_run. apply R_rl.
    + intros _. apply steps_psteps, kept_rl_handler_exec.
  - apply steps_psteps.
    apply (steps_bind R R_trans); [apply steps_modify; intros s; apply R_rl|].
    intros _. apply (steps_bind R R_trans); [apply kept_emit|].
    intros _. apply (steps_bind R R_trans); [apply kept_emit|].
    intros _. apply kept_g_main_loop_quit.
Qed.

Lemma kept_signal_read si : steps R (signal_read si).
Proof.
  assert (Hterm : steps R (
    s <- get ;;
    (if negb (terminated s) then
       rl_replace_line "" ;; rl_crlf ;; g_main_loop_quit
     else ret tt) ;;
    modify (with_terminated true) ;; ret false)).
  { apply (steps_bind R R_trans); [apply steps_get; exact R_refl|]. intros s.
    apply (steps_bind R R_trans).
    - destruct (negb (terminated s)); [|apply steps_ret, R_refl].
      apply (steps_bind R R_trans); [apply steps_modify; intros s0; apply R_rl|].
      intros _. apply (steps_bind R R_trans); [apply kept_emit|].
      intros _. apply kept_g_main_loop_quit.
    - intros _. apply (steps_bind R R_trans).
      + apply steps_modify. intros s0. apply R_terminated.
      + intros _. apply steps_ret, R_refl. }
  destruct si as [signo|]; cbn [signal_read]; [|apply steps_ret, R_refl].
  destruct (signo =? SIGINT)%Z.
  - apply (steps_bind R R_trans); [apply steps_get; exact R_refl|]. intros s.
    destruct (data_input (data s)); [|exact Hterm].
    apply (steps_bind R R_trans); [apply steps_modify; intros s0; apply R_rl|].
    intros _. apply (steps_bind R R_trans); [apply kept_emit|].
    intros _. apply (steps_bind R R_trans); [apply kept_emit|].
    intros _. apply (steps_bind R R_trans); [apply kept_emit|].
    intros _. apply steps_ret, R_refl.
  - destruct (signo =? SIGTERM)%Z; [exact Hterm | apply steps_ret, R_refl].
Qed.

Lemma kept_io_hup : steps R io_hup.
Proof.
  unfold io_hup. apply (steps_bind R R_trans); [apply kept_g_main_loop_quit|].
  intros _. apply steps_ret, R_refl.
Qed.

Lemma kept_dispatch signal e : psteps R (dispatch E signal e).
Proof.
  unfold dispatch.
  apply (psteps_bind R R_trans); [apply steps_psteps, steps_get; exact R_refl|].
  intros s. destruct e as [k| |si| |a|input].
  - destruct (data_input (data s)); [|apply psteps_ret, R_refl].
    apply (psteps_bind R R_trans); [|intros _; apply psteps_ret, R_refl].
    unfold input_read.
    apply (psteps_bind R R_trans); [|intros _; apply psteps_ret, R_refl].
    destruct k as [text point rewritten position|line];
      cbn [rl_callback_read_char].
    + apply steps_psteps, steps_modify. intros s0. apply R_rl.
    + apply (psteps_bind R R_trans);
        [apply steps_psteps, steps_modify; intros s0; apply R_rl|].
      intros _. apply (psteps_bind R R_trans); [apply kept_rl_handler|].
      intros _. apply (psteps_bind R R_trans);
        [apply steps_psteps, steps_modify; intros s0; apply R_rl|].
      intros _. apply steps_psteps, steps_modify. intros s0. apply R_rl.
  - destruct (data_input (data s)); [|apply psteps_ret, R_refl].
    apply steps_psteps.
    apply (steps_bind R R_trans); [apply kept_io_hup|].
    intros _. apply steps_ret, R_refl.
  - destruct signal; [|apply psteps_ret, R_refl].
    apply steps_psteps.
    apply (steps_bind R R_trans); [apply kept_signal_read|].
    intros _. apply steps_ret, R_refl.
  - destruct signal; [|apply psteps_ret, R_refl].
    apply steps_psteps.
    apply (steps_bind R R_trans); [apply kept_io_hup|].
    intros _. apply steps_ret, R_refl.
  - apply steps_psteps, kept_api, frame_run_api.
  - apply (psteps_bind R R_trans); [apply kept_bt_shell_release_prompt|].
    intros _. apply psteps_ret, R_refl.
Qed.

Lemma kept_main_loop_iterate signal events :
  psteps R (main_loop_iterate E signal events).
Proof.
  induction events as [|e events IH]; cbn [main_loop_iterate].
  - intros s. apply R_refl.
  - apply (psteps_bind R R_trans); [apply kept_dispatch|]. intros _.
    apply (psteps_bind R R_trans); [apply steps_psteps, steps_get; exact R_refl|].
    intros s. destruct (main_loop s) as [[|]|]; try apply psteps_ret, R_refl.
    exact IH.
Qed.

End Preserved.

Lemma keeps_history_refl s : keeps_history s s.
Proof. split; reflexivity. Qed.

Lemma keeps_history_trans s1 s2 s3 :
  keeps_history s1 s2 -> keeps_history s2 s3 -> keeps_history s1 s3.
Proof. intros [H1 O1] [H2 O2]. split; congruence. Qed.

Lemma keeps_rl_handler_exec E input : steps keeps_history (rl_handler_exec E input).
Proof.
  apply (kept_rl_handler_exec keeps_history keeps_history_refl
           keeps_history_trans).
  - intros t s. split; reflexivity.
  - intros l s. split; reflexivity.
  - intros s s' [_ H O _ _ _]. split; assumption.
Qed.

Lemma menu_kept_refl s : menu_kept s s.
Proof. intros t H. exact H. Qed.

Lemma menu_kept_trans s1 s2 s3 :
  menu_kept s1 s2 -> menu_kept s2 s3 -> menu_kept s1 s3.
Proof. intros H1 H2 t H. apply H2, H1, H. Qed.

(** Nothing the reactor dispatches detaches or replaces an attached table. *)
Lemma menu_kept_main_loop_iterate E signal events :
  psteps menu_kept (main_loop_iterate E signal events).
Proof.
  apply (kept_main_loop_iterate menu_kept menu_kept_refl menu_kept_trans).
  - intros t s table H. exact H.
  - intros l s table H. exact H.
  - intros s s' [_ _ _ _ _ H]. exact H.
  - intros f s Hf table H. cbn. rewrite (proj1 (Hf (data s))). exact H.
  - intros f s table H. exact H.
  - intros b s table H. exact H.
Qed.

(** ** The line handler *)

Lemma strlen_eqb_0 input : (strlen input =? 0)%nat = false <-> input <> "".
Proof.
  destruct input; simpl; split; intros H; congruence.
Qed.

(** A non-empty line while no override is pending goes through the history
    step and on to the dispatcher. *)
Lemma rl_handler_idle E input s :
  input <> "" ->
  data_saved_prompt (data s) = false ->
  rl_handler E (Some input) s =
  rl_handler_exec E input (with_rl (record_line input) s).
Proof.
  intros Hne Hp. unfold rl_handler.
  rewrite (proj2 (strlen_eqb_0 input) Hne).
  rewrite (bind_Ret _ _ _ _ _ (bt_shell_release_prompt_idle E input s Hp)).
  cbn [Z.eqb]. rewrite (bind_Ret _ _ _ _ _ (rl_handler_history_run input s)).
  reflexivity.
Qed.

(** A non-empty line while an override is pending goes to its callback and
    nowhere else. *)
Lemma rl_handler_awaiting E input s f :
  input <> "" ->
  data_saved_prompt (data s) = true ->
  data_saved_func (data s) = Some f ->
  rl_handler E (Some input) s =
  bind (bt_shell_release_prompt E input) (fun _ => ret tt) s.
Proof.
  intros Hne Hp Hf. unfold rl_handler.
  rewrite (proj2 (strlen_eqb_0 input) Hne).
  destruct (bt_shell_release_prompt_returns E input s f Hp Hf) as (s' & Hrel & _).
  rewrite !(bind_Ret _ _ _ _ _ Hrel). reflexivity.
Qed.

Lemma rl_handler_exec_spaces E k s : rl_handler_exec E (spaces k) s = Ret tt s.
Proof.
  unfold rl_handler_exec. pose proof (strtok_r_spaces k) as H.
  destruct (strtok_r (spaces k) " ") as [cmd arg]. simpl in H. rewrite H.
  reflexivity.
Qed.

Lemma rl_handler_exec_token E k cmd rest s :
  cmd <> "" -> has_space cmd = false ->
  rest = "" \/ (exists arg, rest = " " +:+ arg) ->
  rl_handler_exec E (spaces k +:+ cmd +:+ rest) s =
  shell_exec E (Some cmd)
             (strip_trailing_space
                (Some (match rest with
                       | EmptyString => EmptyString
                       | String _ arg => arg
                       end))) s.
Proof.
  intros Hne Hns Hrest. unfold rl_handler_exec.
  rewrite (strtok_r_token k cmd rest Hne Hns Hrest). reflexivity.
Qed.

(** ** Attaching the menu *)

Lemma bt_shell_set_menu_refused menu s :
  data_menu (data s) <> None \/ menu = None ->
  bt_shell_set_menu menu s = Ret false s.
Proof.
  intros H. unfold bt_shell_set_menu, bind, get.
  destruct (data_menu (data s)) as [t|]; [reflexivity|].
  destruct H as [H|H]; [congruence|]. rewrite H. reflexivity.
Qed.

Lemma bt_shell_set_menu_seq_attached menus : forall s,
  data_menu (data s) <> None ->
  bt_shell_set_menu_seq menus s = Ret (repeat false (length menus)) s.
Proof.
  induction menus as [|menu menus IH]; intros s Hs; [reflexivity|].
  cbn [bt_shell_set_menu_seq length repeat].
  rewrite (bind_Ret _ _ _ _ _ (bt_shell_set_menu_refused menu s (or_introl Hs))).
  rewrite (bind_Ret _ _ _ _ _ (IH s Hs)). reflexivity.
Qed.

Lemma filter_id_repeat_false n : List.filter id (repeat false n) = [].
Proof. induction n; [reflexivity | exact IHn]. Qed.

(** C6, as the code has it: a call made while a table is attached, or
    with a NULL table, returns false and changes nothing; a call that
    finds no table attached and is given one, be it a table with no
    entries, returns true and stores it.  Of any number of
    successive calls at most one returns true, none when a table was
    attached before the first; and whatever the reactor dispatches while
    the loop runs, an attached table stays the attached table. *)
Theorem bt_shell_set_menu_at_most_once
  (menus : list (option (list bt_shell_menu_entry))) (s : shell) :
  (forall menu, data_menu (data s) <> None \/ menu = None ->
                bt_shell_set_menu menu s = Ret false s) /\
  (forall table, data_menu (data s) = None ->
                 bt_shell_set_menu (Some table) s =
                 Ret true (with_data (set_menu (Some table)) s)) /\
  (exists results s',
     bt_shell_set_menu_seq menus s = Ret results s' /\
     length (List.filter id results) <= 1 /\
     (data_menu (data s) <> None ->
      s' = s /\ List.filter id results = [])) /\
  (forall E signal events table,
     data_menu (data s) = Some table ->
     match main_loop_iterate E signal events s with
     | Ret _ s' => data_menu (data s') = Some table
     | Blocked s' => data_menu (data s') = Some table
     | Crash => True
     end).
Proof.
  split; [intros menu; apply bt_shell_set_menu_refused|].
  split.
  { intros table H. unfold bt_shell_set_menu, bind, get. rewrite H.
    reflexivity. }
  split.
  2:{ intros E signal events table Ht.
      pose proof (menu_kept_main_loop_iterate E signal events s) as H.
      destruct (main_loop_iterate E signal events s); auto. }
  revert s. induction menus as [|menu menus IH]; intros s.
  - exists [], s. repeat split; simpl; lia.
  - destruct (data_menu (data s)) as [t|] eqn:Hm.
    + exists (repeat false (length (menu :: menus))), s.
      rewrite bt_shell_set_menu_seq_attached by congruence.
      rewrite filter_id_repeat_false. repeat split; simpl; lia.
    + destruct menu as [table|].
      * exists (true :: repeat false (length menus)),
               (with_data (set_menu (Some table)) s).
        cbn [bt_shell_set_menu_seq].
        assert (H1 : bt_shell_set_menu (Some table) s =
                     Ret true (with_data (set_menu (Some table)) s)).
        { unfold bt_shell_set_menu, bind, get. rewrite Hm. reflexivity. }
        rewrite (bind_Ret _ _ _ _ _ H1).
        rewrite (bind_Ret _ _ _ _ _
                   (bt_shell_set_menu_seq_attached menus
                      (with_data (set_menu (Some table)) s)
                      ltac:(simpl; discriminate))).
        cbn [List.filter id]. rewrite filter_id_repeat_false.
        repeat split; simpl; try lia; congruence.
      * destruct (IH s) as (rs & s' & Hrun & Hle & Hatt).
        exists (false :: rs), s'. cbn [bt_shell_set_menu_seq].
        rewrite (bind_Ret _ _ _ _ _
                   (bt_shell_set_menu_refused None s (or_intror eq_refl))).
        rewrite (bind_Ret _ _ _ _ _ Hrun).
        repeat split; simpl; try lia; congruence.
Qed.

(** ** The dispatcher *)

Lemma str_last_snoc a c : str_last (a +:+ String c EmptyString) = Some c.
Proof.
  induction a as [|x a IH]; [reflexivity|].
  change (str_last (String x (a +:+ String c EmptyString)) = Some c).
  cbn [str_last]. destruct (a +:+ String c "") eqn:Ha; [|exact IH].
  destruct a; discriminate.
Qed.

Lemma str_removelast_snoc a c : str_removelast (a +:+ String c EmptyString) = a.
Proof.
  induction a as [|x a IH]; [reflexivity|].
  change (str_removelast (String x (a +:+ String c EmptyString)) = String x a).
  cbn [str_removelast]. destruct (a +:+ String c "") eqn:Ha.
  - destruct a; discriminate.
  - rewrite IH. reflexivity.
Qed.

Lemma strip_trailing_space_snoc arg :
  strip_trailing_space (Some (arg +:+ " ")) = Some arg.
Proof.
  unfold strip_trailing_space. rewrite str_last_snoc, str_removelast_snoc.
  rewrite bool_decide_eq_true_2 by reflexivity.
  unfold strlen. rewrite length_append. simpl.
  replace (String.length arg + 1) with (S (String.length arg)) by lia.
  reflexivity.
Qed.

Lemma strip_trailing_space_other arg :
  str_last arg <> Some " "%char -> strip_trailing_space (Some arg) = Some arg.
Proof.
  intros H. unfold strip_trailing_space.
  rewrite bool_decide_eq_false_2 by exact H. rewrite andb_false_r. reflexivity.
Qed.

(** C7, as the code has it: dispatching does nothing while no table is
    attached, and nothing for a line made of spaces only.  Otherwise the
    command is the first run of characters other than the space; the
    argument is everything behind the one space that ends the command (the
    empty string when the line ends with the command), less one trailing
    space; every line has one of these forms.  A command that neither
    table resolves prints "Invalid command" and leaves the rest of the
    state, the loop's running flag included, as it was. *)
Theorem rl_handler_exec_policy (E : environment) (s : shell) :
  (forall input, data_menu (data s) = None ->
                 rl_handler_exec E input s = Ret tt s) /\
  (forall k, rl_handler_exec E (spaces k) s = Ret tt s) /\
  (forall k cmd,
     cmd <> "" -> has_space cmd = false ->
     rl_handler_exec E (spaces k +:+ cmd) s =
     shell_exec E (Some cmd) (Some "") s) /\
  (forall k cmd arg,
     cmd <> "" -> has_space cmd = false ->
     rl_handler_exec E (spaces k +:+ cmd +:+ " " +:+ arg) s =
     shell_exec E (Some cmd) (strip_trailing_space (Some arg)) s) /\
  (forall input,
     (exists k, input = spaces k) \/
     (exists k cmd, cmd <> "" /\ has_space cmd = false /\
                    input = spaces k +:+ cmd) \/
     (exists k cmd arg, cmd <> "" /\ has_space cmd = false /\
                        input = spaces k +:+ cmd +:+ " " +:+ arg)) /\
  (forall arg, strip_trailing_space (Some (arg +:+ " ")) = Some arg) /\
  (forall arg, str_last arg <> Some " "%char ->
               strip_trailing_space (Some arg) = Some arg) /\
  (forall menu cmd arg,
     data_menu (data s) = Some menu ->
     resolve menu cmd = None -> resolve default_menu cmd = None ->
     shell_exec E (Some cmd) arg s =
     Ret tt (with_trace
               (trace s ++ [Printf (env_COLOR_HIGHLIGHT E +:+ "Invalid command"
                                      +:+ env_COLOR_OFF E +:+ nl)]) s)).
Proof.
  repeat split.
  - intros input Hm. unfold rl_handler_exec.
    destruct (strtok_r input " ") as [[cmd|] arg]; [|reflexivity].
    apply shell_exec_no_menu, Hm.
  - intros k. apply rl_handler_exec_spaces.
  - intros k cmd Hne Hns.
    pose proof (rl_handler_exec_token E k cmd "" s Hne Hns (or_introl eq_refl)) as H.
    rewrite append_nil_r in H. exact H.
  - intros k cmd arg Hne Hns.
    apply (rl_handler_exec_token E k cmd (" " +:+ arg) s Hne Hns).
    right. exists arg. reflexivity.
  - apply line_cases.
  - apply strip_trailing_space_snoc.
  - apply strip_trailing_space_other.
  - intros menu cmd arg Hm H1 H2.
    rewrite (shell_exec_resolve E cmd arg s menu Hm), H1, H2. reflexivity.
Qed.

(** ** Empty lines *)

Lemma spaces_nonempty k : 0 < k -> spaces k <> "".
Proof. destruct k; [lia | discriminate]. Qed.

(** C4, as the code has it: a line of length zero is dropped at once, the
    state stays as it is.  A longer line of spaces is never dispatched, but
    it is not dropped either: while an override is pending it is released
    to the callback, and otherwise it goes through the history step. *)
Theorem rl_handler_empty_line (E : environment) (s : shell) :
  rl_handler E (Some "") s = Ret tt s /\
  (forall k,
     0 < k -> data_saved_prompt (data s) = false ->
     rl_handler E (Some (spaces k)) s =
     Ret tt (with_rl (record_line (spaces k)) s)) /\
  (forall k f,
     0 < k ->
     data_saved_prompt (data s) = true -> data_saved_func (data s) = Some f ->
     exists s',
       rl_handler E (Some (spaces k)) s = Ret tt s' /\
       prompt_calls (trace s') =
       prompt_calls (trace s) ++ [(f, spaces k, data_saved_user_data (data s))]).
Proof.
  split; [reflexivity|]. split.
  - intros k Hk Hp.
    rewrite (rl_handler_idle E (spaces k) s (spaces_nonempty k Hk) Hp).
    apply rl_handler_exec_spaces.
  - intros k f Hk Hp Hf.
    rewrite (rl_handler_awaiting E (spaces k) s f (spaces_nonempty k Hk) Hp Hf).
    destruct (bt_shell_release_prompt_returns E (spaces k) s f Hp Hf)
      as (s' & Hrel & [(evs & Htr & Hevs) _ _ _ _ _]).
    exists s'. split.
    + rewrite (bind_Ret _ _ _ _ _ Hrel). reflexivity.
    + rewrite Htr. unfold released. cbn.
      rewrite !prompt_calls_app, (prompt_calls_api evs Hevs), app_nil_r.
      reflexivity.
Qed.

(** ** The help listing *)

(** C1, as the code has it: while no override is pending, the line [help]
    goes through the history step and then, with no table attached, does
    nothing more, so that nothing is printed; with a table attached that
    has no entries, it prints the two heading lines and the four built-in
    entries with their descriptions, and nothing else. *)
Theorem help_lists_builtins (E : environment) (s : shell) :
  data_saved_prompt (data s) = false ->
  (data_menu (data s) = None ->
   rl_handler E (Some "help") s = Ret tt (with_rl (record_line "help") s)) /\
  (data_menu (data s) = Some [] ->
   rl_handler E (Some "help") s =
   Ret tt (with_trace (trace s ++ map Printf (listing E []))
                      (with_rl (record_line "help") s))) /\
  listing E [] =
  [ env_COLOR_HIGHLIGHT E +:+ "Available commands:" +:+ env_COLOR_OFF E +:+ nl;
    env_COLOR_HIGHLIGHT E +:+ "-------------------" +:+ env_COLOR_OFF E +:+ nl;
    env_COLOR_HIGHLIGHT E +:+ "version" +:+ " " +:+ spaces 41 +:+ " "
      +:+ env_COLOR_OFF E +:+ "Display version" +:+ nl;
    env_COLOR_HIGHLIGHT E +:+ "quit" +:+ " " +:+ spaces 44 +:+ " "
      +:+ env_COLOR_OFF E +:+ "Quit program" +:+ nl;
    env_COLOR_HIGHLIGHT E +:+ "exit" +:+ " " +:+ spaces 44 +:+ " "
      +:+ env_COLOR_OFF E +:+ "Quit program" +:+ nl;
    env_COLOR_HIGHLIGHT E +:+ "help" +:+ " " +:+ spaces 44 +:+ " "
      +:+ env_COLOR_OFF E +:+ "Display help about this program" +:+ nl ].
Proof.
  intros Hp. split; [|split; [|reflexivity]]; intros Hm;
    rewrite (rl_handler_idle E "help" s ltac:(discriminate) Hp);
    unfold rl_handler_exec;
    change (strtok_r "help" " ") with (Some "help", Some "");
    cbv beta iota;
    change (strip_trailing_space (Some "")) with (Some "").
  - apply shell_exec_no_menu. exact Hm.
  - set (s1 := with_rl (record_line "help") s).
    assert (Hm1 : data_menu (data s1) = Some []) by exact Hm.
    rewrite (shell_exec_resolve E "help" (Some "") s1 [] Hm1).
    change (resolve [] "help") with (@None menu_cb).
    change (resolve default_menu "help") with (Some CbHelp).
    cbn [call_menu_cb cmd_help].
    apply (shell_print_menu_run E s1 [] Hm1).
Qed.

(** ** History *)

Lemma prefix_refl s : String.prefix s s = true.
Proof. apply prefix_correct, substring_all. Qed.

Lemma scan_backward_unfold needle h i :
  scan_backward needle h i =
  match search_entry true needle h i with
  | Some r => Some r
  | None => match i with
            | 0 => None
            | S i' => scan_backward needle h i'
            end
  end.
Proof. destruct i; reflexivity. Qed.

Lemma search_entry_self needle (h : list string) :
  search_entry true needle (h ++ [needle]) (length h) = Some (length h, 0).
Proof.
  unfold search_entry.
  rewrite lookup_app_r, Nat.sub_diag by lia. cbn [lookup list_lookup].
  rewrite Nat.ltb_irrefl, Nat.sub_diag. cbn [search_line_backward].
  rewrite str_drop_0, prefix_refl. reflexivity.
Qed.

(** A line equal to the latest entry is found there, at offset 0, when the
    search starts at or behind that entry. *)
Lemma history_find_last input (h : list string) off :
  input <> "" -> length h <= off ->
  history_find input (-1) (h ++ [input]) off = Some (length h, 0).
Proof.
  intros Hne Hoff. unfold history_find.
  rewrite (proj2 (strlen_eqb_0 input) Hne).
  change (-1 <? 0)%Z with true. cbn [negb andb orb].
  rewrite length_app. cbn [length].
  replace (length h + 1 =? 0)%nat with false
    by (symmetry; apply Nat.eqb_neq; lia).
  rewrite andb_false_r. cbn [orb].
  assert (Hi : (if (length h + 1 <=? off)%nat then length h + 1 - 1 else off)
               = length h).
  { destruct (Nat.leb_spec (length h + 1) off); lia. }
  rewrite Hi, scan_backward_unfold, search_entry_self. reflexivity.
Qed.

Lemma record_line_cases input r :
  the_history (record_line input r) = the_history r \/
  the_history (record_line input r) = the_history r ++ [input].
Proof.
  unfold record_line.
  destruct (history_find input (-1) (the_history r) (history_offset r))
    as [[j [|k]]|]; simpl; auto.
Qed.

(** C3, as the code has it: a non-empty line that no override consumes is
    recorded unless Readline's backward search for it, from the current
    history position, ends at offset 0 of an entry, and is then handed to
    the dispatcher.  A line equal to the latest entry is found there when
    the position is at or behind that entry, so it is not recorded again.
    Two submissions of one line in a row, neither consumed by an override,
    leave the history at most one entry longer, provided that at the
    second submission the history holds the entries the first left and
    the history position is at or behind the last of them.  What Readline
    does between the two submissions is not assumed: the second call is
    made from any state that meets the proviso. *)
Theorem rl_handler_history_policy (E : environment) (s : shell)
  (input : string) :
  input <> "" ->
  data_saved_prompt (data s) = false ->
  rl_handler E (Some input) s =
  rl_handler_exec E input (with_rl (record_line input) s) /\
  (exists s',
     rl_handler E (Some input) s = Ret tt s' /\
     the_history (rl s') =
     match history_find input (-1) (the_history (rl s))
                        (history_offset (rl s)) with
     | Some (_, 0) => the_history (rl s)
     | _ => the_history (rl s) ++ [input]
     end) /\
  (forall h,
     the_history (rl s) = h ++ [input] ->
     length h <= history_offset (rl s) ->
     the_history (record_line input (rl s)) = the_history (rl s)) /\
  (exists s1,
     rl_handler E (Some input) s = Ret tt s1 /\
     forall s2,
       data_saved_prompt (data s2) = false ->
       the_history (rl s2) = the_history (rl s1) ->
       length (the_history (rl s1)) <= history_offset (rl s2) + 1 ->
       exists s3,
         rl_handler E (Some input) s2 = Ret tt s3 /\
         length (the_history (rl s3)) <= length (the_history (rl s)) + 1).
Proof.
  intros Hne Hp.
  assert (Hlast : forall r h,
            the_history r = h ++ [input] -> length h <= history_offset r ->
            the_history (record_line input r) = the_history r).
  { intros r h Hh Hoff. unfold record_line.
    rewrite Hh, (history_find_last input h _ Hne Hoff). reflexivity. }
  split; [apply rl_handler_idle; assumption|].
  split; [|split].
  - destruct (keeps_rl_handler_exec E input (with_rl (record_line input) s))
      as ([] & s' & Hrun & Hh & _).
    exists s'. split.
    + rewrite (rl_handler_idle E input s Hne Hp). exact Hrun.
    + rewrite Hh. cbn. unfold record_line.
      destruct (history_find input (-1) (the_history (rl s))
                             (history_offset (rl s)))
        as [[j [|k]]|]; reflexivity.
  - intros h. apply Hlast.
  - destruct (keeps_rl_handler_exec E input (with_rl (record_line input) s))
      as ([] & s1 & Hrun1 & Hh1 & _).
    rewrite <- (rl_handler_idle E input s Hne Hp) in Hrun1.
    exists s1. split; [exact Hrun1|]. intros s2 Hp2 Hh2 Ho2.
    destruct (keeps_rl_handler_exec E input (with_rl (record_line input) s2))
      as ([] & s3 & Hrun3 & Hh3 & _).
    rewrite <- (rl_handler_idle E input s2 Hne Hp2) in Hrun3.
    exists s3. split; [exact Hrun3|]. rewrite Hh3.
    cbn [rl with_rl] in Hh1 |- *.
    destruct (record_line_cases input (rl s)) as [Hsame|Hadd].
    + destruct (record_line_cases input (rl s2)) as [H2|H2];
        rewrite H2, Hh2, Hh1, Hsame.
      * lia.
      * rewrite length_app. simpl. lia.
    + rewrite (Hlast (rl s2) (the_history (rl s))).
      * rewrite Hh2, Hh1, Hadd, length_app. simpl. lia.
      * rewrite Hh2, Hh1. exact Hadd.
      * rewrite Hh1, Hadd, length_app in Ho2. simpl in Ho2. lia.
Qed.

(** ** Completion of arguments *)

Lemma delegate_run E text entry g s :
  entry_gen entry = Some g ->
  delegate E text entry s =
  Ret (answer E g text (asked g text (entry_disp entry) s))
      (asked g text (entry_disp entry) s).
Proof.
  intros Hg. unfold delegate, rl_completion_matches, answer, asked. rewrite Hg.
  cbv [bind modify emit get ret]. cbn [trace with_rl].
  destruct (env_gen_body E g text _); reflexivity.
Qed.

Lemma completion_loop_find E table text token : forall s,
  completion_loop E table text token s =
  match List.find (declares_completer token) table with
  | Some entry => delegate E text entry s
  | None => Ret None s
  end.
Proof.
  induction table as [|entry table IH]; intros s; [reflexivity|].
  cbn [completion_loop List.find]. unfold declares_completer at 1.
  rewrite strcmp_eqb.
  destruct (String.eqb (entry_cmd entry) token); cbn [negb andb]; [|apply IH].
  destruct (entry_gen entry) as [g|] eqn:Hg; cbn [is_null negb]; [|apply IH].
  unfold delegate. rewrite Hg. reflexivity.
Qed.

Lemma lookup_completer_menu menu token :
  lookup_completer menu token = List.find (declares_completer token) menu.
Proof.
  unfold lookup_completer, default_menu. cbn [app List.find].
  unfold declares_completer at 1 2 3 4. cbn [entry_cmd entry_gen is_null negb].
  rewrite !andb_false_r. reflexivity.
Qed.

Lemma lookup_completer_declares menu token entry :
  lookup_completer menu token = Some entry ->
  In entry menu /\ entry_cmd entry = token /\
  exists g, entry_gen entry = Some g.
Proof.
  rewrite lookup_completer_menu. intros H.
  apply List.find_some in H. destruct H as [Hin Hd].
  unfold declares_completer in Hd. apply andb_true_iff in Hd.
  destruct Hd as [Hname Hgen]. apply String.eqb_eq in Hname.
  repeat split; [exact Hin | exact Hname|].
  destruct (entry_gen entry) as [g|]; [exists g; reflexivity | discriminate].
Qed.

Lemma menu_completion_run E table text token s menu :
  data_menu (data s) = Some menu ->
  menu_completion E table text token s =
  match lookup_completer menu token with
  | Some entry => delegate E text entry s
  | None => Ret None s
  end.
Proof.
  intros Hm. unfold menu_completion. cbv [bind get]. rewrite Hm.
  rewrite completion_loop_find, lookup_completer_menu. reflexivity.
Qed.

(** C5, as the code has it: with the cursor beyond column 0, the command
    token is the line up to one character before the word, and the
    built-in table and then the application's are searched for the first
    entry of that name that declares a completer; an entry of that name
    without one is passed over.  If there is none, no candidates are
    offered (and the
    attempt is marked as over, when a table is attached at all).  If there
    is one, its display hook is installed and its generator asked; what
    the generator yields is what is offered, and a generator that yields
    nothing is asked once more before the attempt is marked as over. *)
Theorem shell_completion_argument (E : environment) (s : shell)
  (text : string) (start end_ : Z) :
  (0 < start)%Z ->
  (data_menu (data s) = None ->
   shell_completion E text start end_ s = Ret None s) /\
  (forall menu,
     data_menu (data s) = Some menu ->
     match lookup_completer menu
             (strndup (rl_line_buffer (rl s)) (Z.to_nat (start - 1))) with
     | None =>
       shell_completion E text start end_ s =
       Ret None (with_rl (set_attempted_over 1) s)
     | Some entry =>
       exists g,
         entry_gen entry = Some g /\
         let s1 := asked g text (entry_disp entry) s in
         let s2 := asked g text (entry_disp entry) s1 in
         shell_completion E text start end_ s =
         match answer E g text s1, answer E g text s2 with
         | Some candidates, _ => Ret (Some candidates) s1
         | None, Some candidates => Ret (Some candidates) s2
         | None, None => Ret None (with_rl (set_attempted_over 1) s2)
         end
     end).
Proof.
  intros Hstart. split.
  { intros Hm. unfold shell_completion. cbv [bind get]. rewrite Hm.
    reflexivity. }
  intros menu Hm.
  set (token := strndup (rl_line_buffer (rl s)) (Z.to_nat (start - 1))).
  unfold shell_completion. cbv [bind get]. rewrite Hm.
  rewrite (proj2 (Z.ltb_lt 0 start) Hstart). fold token.
  rewrite (menu_completion_run E default_menu text token s menu Hm).
  destruct (lookup_completer menu token) as [entry|] eqn:Hfind.
  - destruct (lookup_completer_declares menu token entry Hfind)
      as (_ & _ & g & Hg).
    exists g. split; [exact Hg|]. cbv zeta.
    rewrite (delegate_run E text entry g s Hg).
    destruct (answer E g text (asked g text (entry_disp entry) s));
      [reflexivity|].
    rewrite (menu_completion_run E menu text token
               (asked g text (entry_disp entry) s) menu Hm), Hfind.
    rewrite (delegate_run E text entry g _ Hg).
    destruct (answer E g text
                (asked g text (entry_disp entry)
                   (asked g text (entry_disp entry) s))); reflexivity.
  - rewrite (menu_completion_run E menu text token s menu Hm), Hfind.
    reflexivity.
Qed.

(** ** Shutdown *)

Lemma bt_shell_detach_run s :
  bt_shell_detach s =
  Ret (match data_input (data s) with Some _ => true | None => false end)
      (with_data (set_input None)
                 (with_trace (trace s ++ detach_events s) s)).
Proof.
  unfold bt_shell_detach, detach_events. cbv [bind get].
  destruct s as [d l t g r tr]. cbn [data data_input].
  destruct (data_input d) as [io|] eqn:Hi.
  - reflexivity.
  - cbv [ret with_data with_trace]. cbn. rewrite app_nil_r.
    destruct d. cbn in *. subst. reflexivity.
Qed.


(** ** The hex dump *)

Lemma hexdump_store_cell i b str :
  hexdump_store i b str = store_cell (i mod 16) (cell_of b) str.
Proof. reflexivity. Qed.

(** A row's buffer when it is printed: every one of its 68 characters has
    been written since the row began. *)
Lemma row_buffer cells str :
  length cells <= 16 ->
  length str = 68 ->
  hexdump_terminate
    (hexdump_pad (16 - length cells) (length cells)
       (fill_cells cells 0 (<[0 := " "%char]> str)))
  = row_chars cells ++ [NUL].
Proof.
  intros Hc Hs.
  do 68 (destruct str as [|? str]; [discriminate Hs|]).
  destruct str; [clear Hs|discriminate Hs].
  do 17 (destruct cells as [|[[? ?] ?] cells]; [reflexivity|]).
  simpl in Hc. lia.
Qed.

Ltac divmod x :=
  pose proof (Nat.div_mod_eq x 16);
  pose proof (Nat.mod_upper_bound x 16 ltac:(lia)).

Lemma c_string_terminated l :
  Forall (fun c => c <> NUL) l ->
  c_string (l ++ [NUL]) = string_of_list_ascii l.
Proof.
  induction 1 as [|c l Hc _ IH]; [reflexivity|].
  cbn [app c_string string_of_list_ascii].
  destruct (Ascii.eqb_spec c NUL); [contradiction|]. rewrite IH. reflexivity.
Qed.

Lemma cell_of_not_NUL b :
  fst (fst (cell_of b)) <> NUL /\ snd (fst (cell_of b)) <> NUL /\
  snd (cell_of b) <> NUL.
Proof. destruct b; repeat split; discriminate. Qed.

Lemma row_chars_not_NUL chunk :
  Forall (fun c => c <> NUL) (row_chars (map cell_of chunk)).
Proof.
  assert (Hsp : forall n, Forall (fun c => c <> NUL) (repeat " "%char n)).
  { induction n; constructor; [discriminate | assumption]. }
  unfold row_chars. repeat apply Forall_app_2; try apply Hsp;
    try (repeat constructor; discriminate).
  - induction chunk as [|b chunk IH]; [constructor|].
    destruct (cell_of_not_NUL b) as (H1 & H2 & _).
    cbn [map flat_map app]. repeat constructor; try assumption. discriminate.
  - induction chunk as [|b chunk IH]; [constructor|].
    destruct (cell_of_not_NUL b) as (_ & _ & H3).
    cbn [map]. constructor; assumption.
Qed.

(** What is printed for a row is its text. *)
Lemma row_buffer_string chunk str :
  length chunk <= 16 ->
  length str = 68 ->
  c_string
    (hexdump_terminate
       (hexdump_pad (16 - length chunk) (length chunk)
          (fill_cells (map cell_of chunk) 0 (<[0 := " "%char]> str))))
  +:+ nl
  = row_string chunk.
Proof.
  intros Hc Hs.
  pose proof (row_buffer (map cell_of chunk) str) as H.
  rewrite length_map in H. rewrite (H Hc Hs).
  rewrite (c_string_terminated _ (row_chars_not_NUL chunk)). reflexivity.
Qed.

Lemma length_store_cell k c str : length (store_cell k c str) = length str.
Proof. destruct c as [[hi lo] shown]. unfold store_cell. rewrite !length_insert. reflexivity. Qed.

Lemma length_fill_cells cells : forall k str,
  length (fill_cells cells k str) = length str.
Proof.
  induction cells as [|c cells IH]; intros k str; [reflexivity|].
  cbn [fill_cells]. rewrite IH. apply length_store_cell.
Qed.

Lemma length_hexdump_terminate str :
  length (hexdump_terminate str) = length str.
Proof. unfold hexdump_terminate. rewrite !length_insert. reflexivity. Qed.

(** The loop inside a row: bytes are stored, nothing is printed. *)
Lemma hexdump_rows_no_flush chunk : forall i str s,
  i mod 16 + length chunk < 16 ->
  hexdump_rows chunk i str s =
  Ret (fill_cells (map cell_of chunk) (i mod 16) str) s.
Proof.
  induction chunk as [|b chunk IH]; intros i str s Hlt; [reflexivity|].
  cbn [hexdump_rows map fill_cells length] in *.
  assert (Hnz : ((i + 1) mod 16 =? 0)%nat = false).
  { apply Nat.eqb_neq. divmod i. divmod (i + 1). lia. }
  assert (Hs : S i mod 16 = S (i mod 16)).
  { divmod i. divmod (S i). lia. }
  rewrite Hnz, hexdump_store_cell, IH by (rewrite Hs; lia).
  rewrite Hs. reflexivity.
Qed.

(** The loop up to the end of a row: the row is printed, and the next one
    begins in the same buffer. *)
Lemma hexdump_rows_flush chunk rest : forall i str s,
  chunk <> [] ->
  i mod 16 + length chunk = 16 ->
  hexdump_rows (chunk ++ rest) i str s =
  bind (bt_shell_printf
          (c_string (hexdump_terminate
                       (fill_cells (map cell_of chunk) (i mod 16) str))
           +:+ nl))
       (fun _ =>
          hexdump_rows rest (i + length chunk)
            (<[0 := " "%char]>
               (hexdump_terminate
                  (fill_cells (map cell_of chunk) (i mod 16) str)))) s.
Proof.
  induction chunk as [|b chunk IH]; intros i str s Hne Hlen; [congruence|].
  cbn [app hexdump_rows map fill_cells length] in *.
  rewrite hexdump_store_cell.
  destruct chunk as [|b' chunk].
  - assert (Hz : ((i + 1) mod 16 =? 0)%nat = true).
    { apply Nat.eqb_eq. cbn [length] in Hlen. divmod i. divmod (i + 1). lia. }
    rewrite Hz. cbn [app map fill_cells length].
    replace (i + 1) with (S i) by lia. reflexivity.
  - assert (Hnz : ((i + 1) mod 16 =? 0)%nat = false).
    { apply Nat.eqb_neq. cbn [length] in Hlen. divmod i. divmod (i + 1). lia. }
    assert (Hs : S i mod 16 = S (i mod 16)).
    { cbn [length] in Hlen. divmod i. divmod (S i). lia. }
    rewrite Hnz, (IH (S i)) by (try discriminate; rewrite Hs; lia).
    rewrite Hs.
    replace (S i + length (b' :: chunk)) with (i + S (length (b' :: chunk)))
      by lia.
    reflexivity.
Qed.

Lemma printed_app t1 t2 : printed (t1 ++ t2) = printed t1 ++ printed t2.
Proof.
  induction t1 as [|e t1 IH]; [reflexivity|].
  destruct e; cbn [app printed]; rewrite ?IH; reflexivity.
Qed.

(** [bt_shell_printf] writes its text once, whatever it does to the
    edited line around it. *)
Lemma bt_shell_printf_printed text s :
  exists s' evs,
    bt_shell_printf text s = Ret tt s' /\
    trace s' = trace s ++ evs /\ printed evs = [text].
Proof.
  destruct s as [d l t g r tr].
  destruct d as [inp sp sf su mn], r as [lb pt dn hk ov hs ho].
  destruct dn, sp; cbv [bt_shell_printf bind get ret printf emit modify
    rl_save_prompt rl_replace_line rl_redisplay rl_restore_prompt
    set_rl_point rl_forced_update_display negb rl_state_done rl
    data_saved_prompt data rl_point rl_line_buffer with_trace with_rl trace
    main_loop terminated generator];
    eexists _, _; (split; [reflexivity|]); cbn [trace];
    (split; [rewrite <- ?app_assoc; reflexivity|]).
  all: try reflexivity.
  all: instantiate (1 := [Printf text]); rewrite ?app_nil_r; reflexivity.
Qed.

Lemma rows_of_nil fuel : rows_of fuel [] = [].
Proof. destruct fuel; reflexivity. Qed.

(** The loop over a whole buffer, from the start of a row: the full rows
    are printed, the bytes of a last, partial row are stored. *)
Lemma hexdump_rows_spec fuel : forall buf i str s,
  length buf <= fuel ->
  i mod 16 = 0 ->
  length str = 68 ->
  exists s' evs full tail str1,
    hexdump_rows buf i (<[0 := " "%char]> str) s =
    Ret (fill_cells (map cell_of tail) 0 (<[0 := " "%char]> str1)) s' /\
    trace s' = trace s ++ evs /\
    printed evs = map row_string full /\
    rows_of fuel buf = full ++ match tail with
                               | [] => []
                               | _ => [tail]
                               end /\
    length tail = length buf mod 16 /\
    length str1 = 68.
Proof.
  induction fuel as [|fuel IH]; intros buf i str s Hfuel Hi Hstr.
  - destruct buf; [|simpl in Hfuel; lia].
    exists s, [], [], [], str. rewrite app_nil_r. repeat split; try reflexivity.
    exact Hstr.
  - destruct (Nat.lt_ge_cases (length buf) 16) as [Hshort|Hlong].
    + exists s, [], [], buf, str.
      rewrite hexdump_rows_no_flush by (rewrite Hi; lia).
      rewrite Hi, app_nil_r. repeat split; try reflexivity; try exact Hstr.
      * destruct buf as [|b buf]; [reflexivity|].
        cbn [rows_of]. rewrite take_ge, drop_ge, rows_of_nil by lia.
        reflexivity.
      * symmetry. apply Nat.mod_small. exact Hshort.
    + set (chunk := take 16 buf). set (rest := drop 16 buf).
      assert (Hbuf : buf = chunk ++ rest) by (symmetry; apply take_drop).
      assert (Hchunk : length chunk = 16).
      { unfold chunk. rewrite length_take. lia. }
      assert (Hrest : length rest = length buf - 16).
      { unfold rest. apply length_drop. }
      assert (Hne : chunk <> []) by (destruct chunk; [discriminate | congruence]).
      pose proof (row_buffer_string chunk str ltac:(lia) Hstr) as Htext.
      rewrite Hchunk in Htext. change (hexdump_pad (16 - 16) 16 ?x) with x in Htext.
      replace (hexdump_rows buf) with (hexdump_rows (chunk ++ rest))
        by (rewrite <- Hbuf; reflexivity).
      rewrite (hexdump_rows_flush chunk rest i _ s Hne) by (rewrite Hi; lia).
      rewrite Hi, Htext.
      destruct (bt_shell_printf_printed (row_string chunk) s)
        as (s1 & evs1 & Hrun1 & Htr1 & Hpr1).
      rewrite (bind_Ret _ _ _ _ _ Hrun1).
      destruct (IH rest (i + length chunk)
                   (hexdump_terminate
                      (fill_cells (map cell_of chunk) 0 (<[0 := " "%char]> str)))
                   s1)
        as (s2 & evs2 & full & tail & str1 & Hrun2 & Htr2 & Hpr2 & Hrows & Htail & Hstr1).
      { lia. }
      { rewrite Hchunk. divmod i. divmod (i + 16). lia. }
      { rewrite length_hexdump_terminate, length_fill_cells, length_insert.
        exact Hstr. }
      exists s2, (evs1 ++ evs2), (chunk :: full), tail, str1.
      split; [exact Hrun2|]. split.
      { rewrite Htr2, Htr1. symmetry. apply app_assoc. }
      split.
      { rewrite printed_app, Hpr1, Hpr2. reflexivity. }
      split.
      { destruct buf as [|b buf]; [simpl in Hlong; lia|].
        cbn [rows_of]. fold chunk. fold rest. rewrite Hrows. reflexivity. }
      split; [|exact Hstr1].
      rewrite Htail, Hrest. divmod (length buf). divmod (length buf - 16). lia.
Qed.

Lemma length_rows_of fuel : forall buf,
  length buf <= fuel -> length (rows_of fuel buf) = (length buf + 15) / 16.
Proof.
  induction fuel as [|fuel IH]; intros buf Hfuel.
  - destruct buf; [reflexivity | simpl in Hfuel; lia].
  - destruct buf as [|b buf]; [reflexivity|].
    cbn [rows_of length]. rewrite IH by (rewrite length_drop; simpl in *; lia).
    rewrite length_drop. cbn [length].
    divmod (S (length buf) + 15). divmod (S (length buf) - 16 + 15). lia.
Qed.

Lemma rows_of_lookup fuel : forall buf k chunk,
  rows_of fuel buf !! k = Some chunk -> chunk = take 16 (drop (16 * k) buf).
Proof.
  induction fuel as [|fuel IH]; intros buf k chunk H; [discriminate|].
  destruct buf as [|b buf]; [discriminate|]. cbn [rows_of] in H.
  destruct k as [|k].
  - injection H as <-. reflexivity.
  - cbn [lookup list_lookup] in H. apply IH in H. rewrite H, drop_drop.
    f_equal. f_equal. lia.
Qed.

Lemma substring_skip (a : list ascii) (b : string) n :
  String.substring (length a) n (string_of_list_ascii a +:+ b)
  = String.substring 0 n b.
Proof.
  induction a as [|c a IH]; [reflexivity|]. exact IH.
Qed.

Lemma string_of_list_ascii_app a b :
  string_of_list_ascii (a ++ b)
  = string_of_list_ascii a +:+ string_of_list_ascii b.
Proof.
  induction a as [|c a IH]; [reflexivity|].
  cbn [app string_of_list_ascii]. rewrite IH. reflexivity.
Qed.

Lemma string_of_repeat_space n :
  string_of_list_ascii (repeat " "%char n) = spaces n.
Proof. induction n; [reflexivity|]. cbn. rewrite IHn. reflexivity. Qed.

Lemma length_string_of_list_ascii l :
  String.length (string_of_list_ascii l) = length l.
Proof. induction l; simpl; congruence. Qed.

Lemma length_flat_map_cells (cells : list cell) :
  length (flat_map (fun c : cell => [" "%char; fst (fst c); snd (fst c)]) cells)
  = 3 * length cells.
Proof. induction cells as [|c cells IH]; simpl in *; lia. Qed.

(** The ASCII column of a row: the characters of its bytes, then spaces. *)
Lemma ascii_column_row chunk :
  length chunk <= 16 ->
  ascii_column (row_string chunk)
  = string_of_list_ascii (map render chunk) +:+ spaces (16 - length chunk).
Proof.
  intros Hlen. unfold ascii_column, row_string.
  set (cells := map cell_of chunk).
  set (front := [" "%char]
                ++ flat_map (fun c : cell => [" "%char; fst (fst c); snd (fst c)])
                            cells
                ++ repeat " "%char (3 * (16 - length cells))
                ++ [" "%char; " "%char]).
  set (back := map (fun c : cell => snd c) cells
               ++ repeat " "%char (16 - length cells)).
  assert (Hsplit : row_chars cells = front ++ back).
  { unfold row_chars, front, back. rewrite <- !app_assoc. reflexivity. }
  assert (Hfront : length front = 51).
  { unfold front, cells.
    rewrite !length_app, length_flat_map_cells, repeat_length, length_map.
    simpl. lia. }
  rewrite Hsplit, string_of_list_ascii_app, append_assoc, <- Hfront.
  rewrite substring_skip.
  unfold back. rewrite string_of_list_ascii_app, string_of_repeat_space.
  unfold cells. rewrite map_map, length_map.
  change (map (fun x => snd (cell_of x)) chunk) with (map render chunk).
  set (column := string_of_list_ascii (map render chunk)
                 +:+ spaces (16 - length chunk)).
  assert (Hcol : String.length column = 16).
  { unfold column. rewrite length_append, length_string_of_list_ascii,
      length_map, length_spaces. lia. }
  rewrite <- Hcol. apply substring_prefix.
Qed.

Lemma bt_shell_hexdump_printed str0 buf s :
  length str0 = 68 ->
  exists s' evs,
    bt_shell_hexdump str0 buf s = Ret tt s' /\
    trace s' = trace s ++ evs /\
    printed evs = map row_string (rows_of (length buf) buf).
Proof.
  intros Hstr. unfold bt_shell_hexdump.
  destruct buf as [|b buf'] eqn:Hbuf.
  { exists s, []. rewrite app_nil_r. repeat split; reflexivity. }
  rewrite <- Hbuf. clear Hbuf.
  destruct (length buf =? 0)%nat eqn:Hz.
  { apply Nat.eqb_eq in Hz. destruct buf; [|discriminate].
    exists s, []. rewrite app_nil_r. repeat split; reflexivity. }
  destruct (hexdump_rows_spec (length buf) buf 0 str0 s (Nat.le_refl _)
              eq_refl Hstr)
    as (s1 & evs1 & full & tail & str1 & Hrun & Htr & Hpr & Hrows & Htail & Hstr1).
  rewrite (bind_Ret _ _ _ _ _ Hrun).
  destruct (0 <? length buf mod 16)%nat eqn:Hpart.
  - apply Nat.ltb_lt in Hpart.
    assert (Hle : length tail <= 16).
    { rewrite Htail. divmod (length buf). lia. }
    rewrite <- Htail, (row_buffer_string tail str1 Hle Hstr1).
    destruct (bt_shell_printf_printed (row_string tail) s1)
      as (s2 & evs2 & Hrun2 & Htr2 & Hpr2).
    exists s2, (evs1 ++ evs2). split; [exact Hrun2|]. split.
    + rewrite Htr2, Htr. symmetry. apply app_assoc.
    + rewrite printed_app, Hpr, Hpr2, Hrows.
      destruct tail; [cbn [length] in Htail; lia|].
      rewrite map_app. reflexivity.
  - apply Nat.ltb_ge in Hpart.
    exists s1, evs1. split; [reflexivity|]. split; [exact Htr|].
    rewrite Hpr, Hrows.
    destruct tail; [rewrite app_nil_r; reflexivity | cbn [length] in Htail; lia].
Qed.

(** C8: for a buffer of N bytes [bt_shell_hexdump] returns, and what it
    writes to the terminal is one text per row, ceil(N/16) rows.  Row k
    holds the next min(16, N - 16k) bytes; its ASCII column, the sixteen
    characters from column 51, consists of one character for each of those
    bytes, the byte itself when printable and a dot otherwise, followed by
    spaces up to sixteen. *)
Theorem bt_shell_hexdump_rows (str0 : list ascii) (buf : list Byte.byte)
  (s : shell) :
  length str0 = 68 ->
  exists s' evs,
    bt_shell_hexdump str0 buf s = Ret tt s' /\
    trace s' = trace s ++ evs /\
    printed evs = map row_string (rows_of (length buf) buf) /\
    length (printed evs) = (length buf + 15) / 16 /\
    (forall k row,
       printed evs !! k = Some row ->
       let chunk := take 16 (drop (16 * k) buf) in
       row = row_string chunk /\
       length chunk = Nat.min 16 (length buf - 16 * k) /\
       ascii_column row =
       string_of_list_ascii (map render chunk) +:+ spaces (16 - length chunk)) /\
    (forall b, render b = if isprint b then ascii_of_byte b else "."%char).
Proof.
  intros Hstr.
  destruct (bt_shell_hexdump_printed str0 buf s Hstr) as (s' & evs & Hrun & Htr & Hpr).
  exists s', evs. split; [exact Hrun|]. split; [exact Htr|].
  split; [exact Hpr|]. split.
  { rewrite Hpr, length_map. apply length_rows_of. lia. }
  split; [|reflexivity].
  intros k row Hrow. cbv zeta.
  rewrite Hpr in Hrow. change (map row_string ?l) with (row_string <$> l) in Hrow.
  rewrite list_lookup_fmap in Hrow.
  destruct (rows_of (length buf) buf !! k) as [chunk|] eqn:Hk; [|discriminate].
  injection Hrow as <-.
  apply rows_of_lookup in Hk. subst chunk.
  assert (Hlen : length (take 16 (drop (16 * k) buf))
                 = Nat.min 16 (length buf - 16 * k)).
  { rewrite length_take, length_drop. reflexivity. }
  split; [reflexivity|]. split; [exact Hlen|].
  apply ascii_column_row. rewrite Hlen. lia.
Qed.

(** ** The theorems at concrete inputs *)

(** The override of the demo application: a second request for callback 9
    is dropped, and the release of "123456" calls callback 7 with it. *)
Lemma prompt_override_exclusive_witness :
  (data_saved_prompt (data awaiting) = true /\
   data_saved_func (data awaiting) = Some 7) /\
  (bt_shell_prompt_input demo "agent" "Confirm:" (Some 9) 43 awaiting
   = Ret tt awaiting /\
   exists s',
     bind (bt_shell_prompt_input demo "agent" "Confirm:" (Some 9) 43)
          (fun _ => bt_shell_release_prompt demo "123456") awaiting
     = Ret 0%Z s' /\
     prompt_calls (trace s') =
     prompt_calls (trace awaiting) ++ [(7, "123456", 42%Z)]).
Proof.
  split; [split; reflexivity|].
  apply (prompt_override_exclusive demo awaiting "agent" "Confirm:" (Some 9) 43
           "123456" 7); reflexivity.
Defined.

(** Against C6 as stated: a table with no entries is not refused. *)
Lemma bt_shell_set_menu_accepts_empty_table :
  bt_shell_set_menu (Some []) initial = Ret true bare /\
  data_menu (data bare) = Some [].
Proof. split; reflexivity. Qed.

(** A second table and a NULL table are refused; the first table is
    stored. *)
Lemma bt_shell_set_menu_at_most_once_witness :
  bt_shell_set_menu (Some default_menu) attached = Ret false attached /\
  bt_shell_set_menu None initial = Ret false initial /\
  bt_shell_set_menu (Some demo_menu) initial =
  Ret true (with_data (set_menu (Some demo_menu)) initial).
Proof.
  pose proof (bt_shell_set_menu_at_most_once [] attached) as Ha.
  pose proof (bt_shell_set_menu_at_most_once [] initial) as Hi.
  split; [|split].
  - apply (proj1 Ha). left. discriminate.
  - apply (proj1 Hi). right. reflexivity.
  - apply (proj1 (proj2 Hi)). reflexivity.
Defined.

(** With input attached, two SIGINT and two SIGTERM ask for one stop. *)
Lemma signal_read_policy_witness :
  exists s',
    signal_read_all [SIGINT; SIGTERM; SIGINT; SIGTERM] attached = Ret tt s' /\
    quit_requests (trace s') = 1.
Proof.
  destruct (proj1 (signal_read_policy attached) [SIGINT; SIGTERM; SIGINT; SIGTERM]
              eq_refl) as (s' & Hrun & Hq).
  exists s'. split; [exact Hrun | exact Hq].
Defined.

(** Against C1 as stated: with no table attached, [help] prints nothing. *)
Lemma help_without_menu_prints_nothing :
  data_menu (data initial) = None /\
  option_map trace (state_after (rl_handler bluez (Some "help")) initial) = Some [].
Proof. split; reflexivity. Qed.

(** With an empty table attached, [help] prints the listing. *)
Lemma help_lists_builtins_witness :
  (data_menu (data bare) = Some [] /\ data_saved_prompt (data bare) = false) /\
  option_map trace (state_after (rl_handler bluez (Some "help")) bare)
  = Some (map Printf (listing bluez [])).
Proof.
  split; [split; reflexivity|].
  unfold state_after.
  rewrite (proj1 (proj2 (help_lists_builtins bluez bare eq_refl)) eq_refl).
  reflexivity.
Defined.

(** Against C3 as stated: [help] differs from the latest entry, [quit],
    and yet is not recorded, because an earlier entry starts with it. *)
Lemma history_skips_earlier_duplicate :
  spec_records ["help"; "quit"] "help" = true /\
  option_map (fun s => the_history (rl s))
             (state_after (rl_handler bluez (Some "help")) after_help_quit)
  = Some ["help"; "quit"].
Proof. split; reflexivity. Qed.

(** [quit] after [help] is recorded; entered once more, with the history
    position behind the last entry, it is found at offset 0 of that entry
    and not recorded again. *)
Lemma rl_handler_history_policy_witness :
  ("quit" <> "" /\ data_saved_prompt (data after_help) = false) /\
  (exists s',
     rl_handler bluez (Some "quit") after_help = Ret tt s' /\
     the_history (rl s') = ["help"; "quit"]) /\
  (exists s3,
     rl_handler bluez (Some "quit") after_help_quit = Ret tt s3 /\
     length (the_history (rl s3)) <= 2).
Proof.
  split; [split; [discriminate | reflexivity]|].
  destruct (rl_handler_history_policy bluez after_help "quit"
              ltac:(discriminate) eq_refl)
    as (_ & (s' & Hrun & Hh) & _ & (s1 & Hrun1 & Htwice)).
  split; [exists s'; split; [exact Hrun | exact Hh]|].
  rewrite Hrun in Hrun1. injection Hrun1 as <-.
  apply (Htwice after_help_quit eq_refl).
  - rewrite Hh. reflexivity.
  - rewrite Hh. simpl. lia.
Defined.

(** Readline's editing between two submissions: [b] entered, recalled
    with the history position moved to the front, and entered again is
    recorded twice; entered again with the position left behind the last
    entry it is recorded once; and a recalled entry that was edited is
    rewritten in place. *)
Example readline_history_editing :
  option_map (fun s => the_history (rl s))
             (state_after
                (for_each (rl_callback_read_char bluez)
                          [Rl_line (Some "b"); Rl_edit "b" 1 [] 0;
                           Rl_line (Some "b")])
                (with_rl (set_history ["a"] 1) attached))
  = Some ["a"; "b"; "b"] /\
  option_map (fun s => the_history (rl s))
             (state_after
                (for_each (rl_callback_read_char bluez)
                          [Rl_line (Some "b"); Rl_edit "b" 1 [] 2;
                           Rl_line (Some "b")])
                (with_rl (set_history ["a"] 1) attached))
  = Some ["a"; "b"] /\
  option_map (fun s => the_history (rl s))
             (state_after
                (rl_callback_read_char bluez (Rl_edit "" 0 [(1, "bx")] 2))
                (with_rl (set_history ["a"; "b"] 2) attached))
  = Some ["a"; "bx"].
Proof. repeat split; reflexivity. Qed.

(** Against C4 as stated: a line of one space is empty after trimming,
    and yet it is released to a pending callback, and recorded in the
    history when nothing is pending. *)
Lemma spaces_line_reaches_prompt_and_history :
  spec_blank " " = true /\
  option_map (fun s => prompt_calls (trace s))
             (state_after (rl_handler demo (Some " ")) awaiting)
  = Some [(7, " ", 42%Z)] /\
  option_map (fun s => the_history (rl s))
             (state_after (rl_handler bluez (Some " ")) attached)
  = Some [" "].
Proof. repeat split; reflexivity. Qed.

(** Two spaces with nothing pending: the history step and nothing else. *)
Lemma rl_handler_empty_line_witness :
  (0 < 2 /\ data_saved_prompt (data attached) = false) /\
  rl_handler bluez (Some "  ") attached
  = Ret tt (with_rl (record_line "  ") attached).
Proof.
  split; [split; [lia | reflexivity]|].
  apply (proj1 (proj2 (rl_handler_empty_line bluez attached)) 2);
    [lia | reflexivity].
Defined.

(** Against C7 as stated: split on the first run of whitespace, the
    argument of [pair  dev] would be [dev]; the handler is given [ dev]. *)
Lemma rl_handler_exec_keeps_extra_spaces :
  spec_split "pair  dev" = ("pair", "dev") /\
  option_map trace (state_after (rl_handler_exec bluez "pair  dev") attached)
  = Some [CallCmd 0 (Some " dev")].
Proof. split; reflexivity. Qed.

(** [pair], a space, and [ dev ]: the argument keeps its leading space and
    loses the trailing one. *)
Lemma rl_handler_exec_policy_witness :
  ("pair" <> "" /\ has_space "pair" = false) /\
  rl_handler_exec bluez ("pair" +:+ " " +:+ " dev ") attached
  = shell_exec bluez (Some "pair") (Some " dev") attached.
Proof.
  split; [split; [discriminate | reflexivity]|].
  apply (proj1 (proj2 (proj2 (proj2 (rl_handler_exec_policy bluez attached))))
           0 "pair" " dev "); [discriminate | reflexivity].
Defined.

(** Against C5 as stated: looked up by name, built-in table first, [help]
    is the built-in entry, which declares no completer, so nothing would
    be offered; the code passes it over and asks the completer of the
    application's [help]. *)
Lemma shell_completion_passes_over_builtin :
  spec_lookup own_help_menu "help" =
  Some (mkEntry "help" None (Some CbHelp)
                (Some "Display help about this program") None None) /\
  spec_completion demo "o" own_help_menu "help" typing_help =
  Ret None typing_help /\
  shell_completion demo "o" 5 6 typing_help =
  Ret (Some ["on"; "off"]) (asked 3 "o" None typing_help).
Proof. repeat split; reflexivity. Qed.

(** Completing the argument of [power]: generator 3 is asked, hook 4 set. *)
Lemma shell_completion_argument_witness :
  ((0 < 6)%Z /\ data_menu (data typing_power) = Some demo_menu) /\
  exists s',
    shell_completion demo "o" 6 7 typing_power = Ret (Some ["on"; "off"]) s' /\
    rl_completion_display_matches_hook (rl s') = Some 4.
Proof.
  split; [split; reflexivity|].
  destruct (proj2 (shell_completion_argument demo typing_power "o" 6 7 eq_refl)
              demo_menu eq_refl) as (g & Hg & Hrun).
  injection Hg as <-.
  eexists. split; [exact Hrun | reflexivity].
Defined.



(** Twenty bytes: two rows, sixteen and four characters in the column. *)
Lemma bt_shell_hexdump_rows_witness :
  length (repeat NUL 68) = 68 /\
  exists s' evs,
    bt_shell_hexdump (repeat NUL 68) sample_bytes initial = Ret tt s' /\
    trace s' = trace initial ++ evs /\
    length (printed evs) = 2 /\
    option_map ascii_column (printed evs !! 0) = Some "BlueZ... .012345" /\
    option_map ascii_column (printed evs !! 1) = Some "67.~            ".
Proof.
  split; [reflexivity|].
  destruct (bt_shell_hexdump_rows (repeat NUL 68) sample_bytes initial eq_refl)
    as (s' & evs & Hrun & Htr & Hpr & Hlen & _ & _).
  exists s', evs. split; [exact Hrun|]. split; [exact Htr|].
  split; [exact Hlen|]. rewrite Hpr. split; reflexivity.
Defined.

(** * Further properties of the shell *)

(** ** Output while a line is being edited *)

Lemma set_line_same r : set_line (rl_line_buffer r) (rl_point r) r = r.
Proof. destruct r; reflexivity. Qed.

(** [bt_shell_printf] leaves everything but the trace as it was: the line
    it takes away while it prints is put back, and so is the cursor. *)
Lemma bt_shell_printf_run text s :
  bt_shell_printf text s =
  Ret tt (with_trace
            (trace s ++
             if rl_state_done (rl s) then [Printf text]
             else if data_saved_prompt (data s)
                  then [Printf text; RlForcedUpdateDisplay]
                  else [RlSavePrompt; RlRedisplay; Printf text;
                        RlRestorePrompt; RlForcedUpdateDisplay]) s).
Proof.
  destruct s as [d l t g r tr].
  destruct d as [inp sp sf su mn], r as [lb pt dn hk ov hs ho].
  destruct dn, sp; cbv [bt_shell_printf bind get ret printf emit modify
    rl_save_prompt rl_replace_line rl_redisplay rl_restore_prompt
    set_rl_point rl_forced_update_display negb rl_state_done rl
    data_saved_prompt data rl_point rl_line_buffer with_trace with_rl trace
    main_loop terminated generator set_line rl_completion_display_matches_hook
    rl_attempted_completion_over the_history history_offset];
    rewrite <- ?app_assoc; reflexivity.
Qed.

(** X1: [bt_shell_printf] returns from every state, writes its text once,
    and changes nothing but the trace: the line being edited and the cursor
    are what they were.  Inside the line handler (RL_STATE_DONE) it only
    prints; while a line is being edited it redraws afterwards, and saves
    and restores the prompt around the output unless a prompt override is
    pending. *)
Theorem bt_shell_printf_keeps_line (text : string) (s : shell) :
  exists evs,
    bt_shell_printf text s = Ret tt (with_trace (trace s ++ evs) s) /\
    printed evs = [text] /\
    (rl_state_done (rl s) = true -> evs = [Printf text]) /\
    (rl_state_done (rl s) = false -> data_saved_prompt (data s) = true ->
     evs = [Printf text; RlForcedUpdateDisplay]) /\
    (rl_state_done (rl s) = false -> data_saved_prompt (data s) = false ->
     evs = [RlSavePrompt; RlRedisplay; Printf text; RlRestorePrompt;
            RlForcedUpdateDisplay]).
Proof.
  eexists. split; [apply bt_shell_printf_run|].
  destruct (rl_state_done (rl s)), (data_saved_prompt (data s));
    repeat split; intros; try reflexivity; discriminate.
Qed.

(** The events of [bt_shell_printf] are neither stop requests nor
    registrations. *)
Lemma bt_shell_printf_plain text s :
  exists evs,
    bt_shell_printf text s = Ret tt (with_trace (trace s ++ evs) s) /\
    Forall (fun e => plain e = true) evs.
Proof.
  eexists. split; [apply bt_shell_printf_run|].
  destruct (rl_state_done (rl s)), (data_saved_prompt (data s));
    repeat constructor.
Qed.

Lemma hexdump_rows_state buf : forall i str s,
  exists str' evs,
    hexdump_rows buf i str s = Ret str' (with_trace (trace s ++ evs) s) /\
    Forall (fun e => plain e = true) evs.
Proof.
  induction buf as [|b buf IH]; intros i str s; cbn [hexdump_rows].
  - exists str, []. rewrite app_nil_r, with_trace_same.
    split; [reflexivity | constructor].
  - destruct ((i + 1) mod 16 =? 0)%nat; [|apply IH].
    unfold bind.
    destruct (bt_shell_printf_plain (c_string (hexdump_terminate
                (hexdump_store i b str)) +:+ nl) s) as (evs1 & -> & H1).
    edestruct IH as (str' & evs2 & -> & H2).
    exists str', (evs1 ++ evs2). cbn [trace with_trace].
    rewrite <- app_assoc. split; [reflexivity|].
    apply Forall_app. split; assumption.
Qed.

(** [bt_shell_hexdump] changes nothing but the trace. *)
Lemma bt_shell_hexdump_state str0 buf s :
  exists evs,
    bt_shell_hexdump str0 buf s = Ret tt (with_trace (trace s ++ evs) s) /\
    Forall (fun e => plain e = true) evs.
Proof.
  unfold bt_shell_hexdump.
  destruct (length buf =? 0)%nat.
  { exists []. rewrite app_nil_r, with_trace_same.
    split; [reflexivity | constructor]. }
  destruct (hexdump_rows_state buf 0 (<[0 := " "%char]> str0) s)
    as (str' & evs & Hrows & Hev).
  rewrite (bind_Ret _ _ _ _ _ Hrows).
  destruct (0 <? length buf mod 16)%nat.
  - destruct (bt_shell_printf_plain
                (c_string (hexdump_terminate
                   (hexdump_pad (16 - length buf mod 16) (length buf mod 16)
                      str')) +:+ nl)
                (with_trace (trace s ++ evs) s)) as (evs2 & -> & H2).
    exists (evs ++ evs2). cbn [trace with_trace].
    rewrite <- app_assoc. split; [reflexivity|].
    apply Forall_app. split; assumption.
  - exists evs. split; [reflexivity | exact Hev].
Qed.
(** ** Completion of command names *)

Lemma strncmp_prefix cmd text :
  (strncmp cmd text (strlen text) =? 0)%Z = String.prefix text cmd.
Proof.
  unfold strncmp, strlen. rewrite strcmp_eqb, substring_all.
  revert cmd. induction text as [|a text IH]; intros cmd.
  - destruct cmd; reflexivity.
  - destruct cmd as [|c cmd]; [reflexivity|].
    cbn [String.length String.substring String.prefix String.eqb].
    rewrite IH. destruct (ascii_dec a c) as [->|Hne].
    + rewrite Ascii.eqb_refl. reflexivity.
    + destruct (Ascii.eqb_spec c a); [congruence | reflexivity].
Qed.

Lemma length_scan_rest text rest : length (scan_rest text rest) <= length rest.
Proof.
  induction rest as [|e rest IH]; simpl; [lia|].
  destruct (starts_with text e); lia.
Qed.

Lemma generator_scan_spec text rest : forall index,
  generator_scan rest index text (strlen text) =
  (index + length rest - length (scan_rest text rest),
   head (commands_with_prefix text rest)).
Proof.
  induction rest as [|e rest IH]; intros index.
  - simpl. f_equal. lia.
  - cbn [generator_scan scan_rest].
    rewrite strncmp_prefix. fold (starts_with text e).
    unfold commands_with_prefix. cbn [List.filter].
    destruct (starts_with text e).
    + cbn [map head length]. f_equal. lia.
    + rewrite IH. fold (commands_with_prefix text rest).
      pose proof (length_scan_rest text rest). cbn [length]. f_equal. lia.
Qed.

Lemma commands_scan_rest text rest :
  commands_with_prefix text rest =
  match head (commands_with_prefix text rest) with
  | Some cmd => cmd :: commands_with_prefix text (scan_rest text rest)
  | None => []
  end.
Proof.
  unfold commands_with_prefix.
  induction rest as [|e rest IH]; [reflexivity|].
  cbn [List.filter scan_rest]. destruct (starts_with text e); [reflexivity|].
  exact IH.
Qed.

Lemma scan_rest_none text rest :
  head (commands_with_prefix text rest) = None -> scan_rest text rest = [].
Proof.
  unfold commands_with_prefix.
  induction rest as [|e rest IH]; [reflexivity|].
  cbn [List.filter scan_rest]. destruct (starts_with text e); [discriminate|].
  exact IH.
Qed.

Lemma length_scan_rest_some text rest cmd :
  head (commands_with_prefix text rest) = Some cmd ->
  length (scan_rest text rest) < length rest.
Proof.
  unfold commands_with_prefix.
  induction rest as [|e rest IH]; [discriminate|].
  cbn [List.filter scan_rest length]. destruct (starts_with text e); [lia|].
  intros H. specialize (IH H). lia.
Qed.

Lemma drop_scan_rest text rest :
  drop (length rest - length (scan_rest text rest)) rest = scan_rest text rest.
Proof.
  induction rest as [|e rest IH]; [reflexivity|].
  cbn [scan_rest length]. destruct (starts_with text e).
  - replace (S (length rest) - length rest) with 1 by lia. reflexivity.
  - pose proof (length_scan_rest text rest).
    replace (S (length rest) - length (scan_rest text rest))
      with (S (length rest - length (scan_rest text rest))) by lia.
    exact IH.
Qed.

Lemma with_generator_twice g g' s :
  with_generator g' (with_generator g s) = with_generator g' s.
Proof. reflexivity. Qed.

(** One run of the loop of [cmd_generator] over what is left of the table
    the statics point into. *)
Lemma generator_loop_run text table i s :
  generator s = mkGen (Some table) i (strlen text) ->
  generator_loop text s =
  Ret (head (commands_with_prefix text (drop i table)))
      (with_generator
         (mkGen (Some table)
                (i + length (drop i table)
                 - length (scan_rest text (drop i table)))
                (strlen text)) s).
Proof.
  intros Hg. unfold generator_loop. cbv [bind get]. rewrite Hg.
  cbn [gen_entry gen_index gen_len]. rewrite generator_scan_spec.
  reflexivity.
Qed.

(** The calls Readline makes after the first one: they run through the
    rest of the table the statics point into, and through no other. *)
Lemma collect_commands_rest text table : forall fuel i state s,
  (0 < state)%Z ->
  generator s = mkGen (Some table) i (strlen text) ->
  i <= length table ->
  length (drop i table) < fuel ->
  collect_commands fuel text state s =
  Ret (commands_with_prefix text (drop i table))
      (with_generator (mkGen (Some table) (length table) (strlen text)) s).
Proof.
  induction fuel as [|fuel IH]; intros i state s Hstate Hg Hi Hfuel; [lia|].
  cbn [collect_commands]. unfold cmd_generator.
  destruct (Z.eqb_spec state 0) as [->|_]; [lia|]. cbn [negb].
  unfold bind at 1. rewrite (generator_loop_run text table i s Hg).
  pose proof (length_scan_rest text (drop i table)) as Hle.
  pose proof (drop_scan_rest text (drop i table)) as Hdrop.
  rewrite drop_drop in Hdrop.
  assert (Hlen : length (drop i table) = length table - i)
    by apply length_drop.
  destruct (head (commands_with_prefix text (drop i table))) as [cmd|] eqn:Hh.
  - pose proof (length_scan_rest_some text _ cmd Hh) as Hlt.
    rewrite (commands_scan_rest text (drop i table)), Hh. unfold bind.
    rewrite (IH (i + length (drop i table)
                 - length (scan_rest text (drop i table)))
                (state + 1)%Z).
    + replace (i + length (drop i table)
               - length (scan_rest text (drop i table)))
        with (i + (length (drop i table)
                   - length (scan_rest text (drop i table)))) by lia.
      rewrite Hdrop. reflexivity.
    + lia.
    + reflexivity.
    + lia.
    + replace (i + length (drop i table)
               - length (scan_rest text (drop i table)))
        with (i + (length (drop i table)
                   - length (scan_rest text (drop i table)))) by lia.
      rewrite Hdrop. lia.
  - rewrite (commands_scan_rest text (drop i table)), Hh.
    rewrite (scan_rest_none text _ Hh). cbn [length].
    replace (i + length (drop i table) - 0) with (length table) by lia.
    reflexivity.
Qed.

(** All the calls Readline makes for one completion of a command name. *)
Lemma collect_commands_first text menu fuel s :
  data_menu (data s) = Some menu ->
  length default_menu <= fuel ->
  length menu <= fuel ->
  collect_commands (S fuel) text 0 s =
  Ret (command_candidates text menu)
      (with_generator (generator_done text menu) s).
Proof.
  intros Hm Hd Hfuel. cbn [collect_commands]. unfold cmd_generator.
  cbn [Z.eqb negb]. unfold command_candidates, generator_done.
  set (s1 := with_generator (mkGen (Some default_menu) 0 (strlen text)) s).
  pose proof (generator_loop_run text default_menu 0 s1 eq_refl) as Hloop.
  rewrite drop_0 in Hloop.
  pose proof (commands_scan_rest text default_menu) as Hcmds.
  pose proof (drop_scan_rest text default_menu) as Hdrop.
  pose proof (length_scan_rest text default_menu) as Hle.
  destruct (head (commands_with_prefix text default_menu)) as [cmd|] eqn:Hh.
  - pose proof (length_scan_rest_some text _ cmd Hh) as Hlt.
    rewrite Hcmds.
    unfold bind at 1. unfold bind at 1. unfold bind at 1.
    change (modify _ s) with (Ret tt s1). cbv beta iota. rewrite Hloop.
    cbv beta iota. unfold ret at 1. unfold bind.
    rewrite (collect_commands_rest text default_menu fuel
               (0 + length default_menu
                - length (scan_rest text default_menu)) (0 + 1)%Z).
    + rewrite Nat.add_0_l, Hdrop. reflexivity.
    + lia.
    + reflexivity.
    + lia.
    + rewrite Nat.add_0_l, Hdrop. lia.
  - rewrite Hcmds.
    unfold bind at 1. unfold bind at 1. unfold bind at 1.
    change (modify _ s) with (Ret tt s1). cbv beta iota. rewrite Hloop.
    cbv beta iota. rewrite (scan_rest_none text _ Hh). cbn [length].
    unfold bind at 1. unfold get at 1. cbv beta iota.
    unfold bind at 1. unfold modify at 1. cbv beta iota.
    set (s2 := with_generator _ _).
    assert (Hg2 : generator s2 = mkGen (Some menu) 0 (strlen text)).
    { unfold s2. cbn. rewrite Hm. reflexivity. }
    rewrite (generator_loop_run text menu 0 s2 Hg2). rewrite drop_0.
    pose proof (commands_scan_rest text menu) as Hcmds2.
    pose proof (drop_scan_rest text menu) as Hdrop2.
    pose proof (length_scan_rest text menu) as Hle2.
    destruct (head (commands_with_prefix text menu)) as [cmd|] eqn:Hh2.
    + pose proof (length_scan_rest_some text _ cmd Hh2) as Hlt2.
      rewrite Hcmds2. cbv beta iota. unfold bind.
      rewrite (collect_commands_rest text menu fuel
                 (0 + length menu - length (scan_rest text menu)) (0 + 1)%Z).
      * rewrite Nat.add_0_l, Hdrop2. reflexivity.
      * lia.
      * reflexivity.
      * lia.
      * rewrite Nat.add_0_l, Hdrop2. lia.
    + rewrite Hcmds2, (scan_rest_none text _ Hh2). cbn [length].
      rewrite Nat.sub_0_r, Nat.add_0_l. reflexivity.
Qed.

(** X2: completion of the first word of a line ([start] is 0).  With no
    table attached nothing is offered and nothing changes.  With a table
    attached, the candidates are the built-in commands that start with the
    text, in table order; the commands of the application that start with
    it are offered only when no built-in does.  If there is no candidate
    the attempt is marked as over.  No display hook stays installed, no
    function of the application is called and nothing is printed.  On an
    empty word the four built-ins are offered, whatever the application's
    table holds. *)
Theorem shell_completion_command (E : environment) (s : shell)
  (text : string) (start end_ : Z) :
  (start <= 0)%Z ->
  (data_menu (data s) = None ->
   shell_completion E text start end_ s = Ret None s) /\
  (forall menu,
     data_menu (data s) = Some menu ->
     exists s',
       shell_completion E text start end_ s =
       Ret (match command_candidates text menu with
            | [] => None
            | candidates => Some candidates
            end) s' /\
       data s' = data s /\ trace s' = trace s /\ main_loop s' = main_loop s /\
       rl_line_buffer (rl s') = rl_line_buffer (rl s) /\
       the_history (rl s') = the_history (rl s) /\
       rl_completion_display_matches_hook (rl s') = None /\
       rl_attempted_completion_over (rl s') =
       match command_candidates text menu with
       | [] => 1%Z
       | _ => rl_attempted_completion_over (rl s)
       end) /\
  (forall menu,
     commands_with_prefix text default_menu <> [] ->
     command_candidates text menu = commands_with_prefix text default_menu) /\
  (forall menu,
     commands_with_prefix text default_menu = [] ->
     command_candidates text menu = commands_with_prefix text menu) /\
  (forall menu,
     command_candidates "" menu = ["version"; "quit"; "exit"; "help"]).
Proof.
  intros Hstart.
  assert (Hcol : (0 <? start)%Z = false) by (apply Z.ltb_ge; exact Hstart).
  split; [|split; [|split; [|split]]].
  - intros Hm. unfold shell_completion. cbv [bind get]. rewrite Hm. reflexivity.
  - intros menu Hm. unfold shell_completion. cbv [bind get]. rewrite Hm, Hcol.
    cbv [modify rl_completion_matches bind get].
    cbn [data with_rl data_menu]. rewrite Hm. cbn [default].
    rewrite (collect_commands_first text menu
               (length default_menu + length menu)); [|exact Hm|lia|lia].
    destruct (command_candidates text menu) as [|c l];
      cbv [ret]; eexists; (split; [reflexivity|]);
      destruct s as [d lp t g r tr]; destruct r; cbn; repeat split;
      reflexivity.
  - intros menu Hne. unfold command_candidates.
    destruct (commands_with_prefix text default_menu); [contradiction|reflexivity].
  - intros menu Hnil. unfold command_candidates. rewrite Hnil. reflexivity.
  - intros menu. reflexivity.
Qed.
(** ** Which handler a command reaches *)

Lemma quit_requests_api evs : Forall api_event evs -> quit_requests evs = 0.
Proof.
  induction 1 as [|e evs He _ IH]; [reflexivity|].
  destruct e; simpl in *; try contradiction; exact IH.
Qed.

Lemma resolve_passed_over cmd pre rest :
  Forall (passed_over cmd) pre -> resolve (pre ++ rest) cmd = resolve rest cmd.
Proof.
  induction 1 as [|e pre [Hn|Hf] _ IH]; [reflexivity| |];
    cbn [app resolve].
  - destruct (String.eqb_spec cmd (entry_cmd e)) as [->|_];
      [contradiction Hn; reflexivity | exact IH].
  - rewrite Hf. destruct (String.eqb cmd (entry_cmd e)); exact IH.
Qed.

Lemma resolve_none cmd table :
  Forall (passed_over cmd) table -> resolve table cmd = None.
Proof.
  intros H. rewrite <- (app_nil_r table). apply (resolve_passed_over cmd table []), H.
Qed.

Lemma resolve_first cmd pre entry post f :
  Forall (passed_over cmd) pre ->
  entry_cmd entry = cmd -> entry_func entry = Some f ->
  resolve (pre ++ entry :: post) cmd = Some f.
Proof.
  intros Hpre Hc Hf. rewrite (resolve_passed_over cmd pre _ Hpre).
  cbn [resolve]. rewrite Hc, String.eqb_refl, Hf. reflexivity.
Qed.

(** A handler of the application, called from the dispatcher. *)
Lemma call_menu_cb_app E id arg s :
  exists s' called,
    call_menu_cb E (CbApp id) arg s = Ret tt s' /\
    trace s' = trace s ++ CallCmd id arg :: called /\
    Forall api_event called /\
    main_loop s' = main_loop s /\
    the_history (rl s') = the_history (rl s).
Proof.
  cbn [call_menu_cb]. cbv [bind emit modify get].
  set (s1 := with_trace (trace s ++ [CallCmd id arg]) s).
  destruct (frame_script E (env_cmd_body E id arg s1) s1)
    as ([] & s' & Hrun & [(evs & Htr & Hev) Hh _ _ Hl _]).
  exists s', evs. rewrite Hrun. split; [reflexivity|]. split.
  - rewrite Htr. unfold s1. cbn. rewrite <- app_assoc. reflexivity.
  - repeat split; assumption.
Qed.

(** X3: with a table attached, a command goes to the handler of the first
    entry of the application's table that has the command's name and a
    handler; entries of that name without a handler are passed over.  This
    holds for every name, those of the built-in commands included: such an
    entry replaces the built-in.  The handler is called once, with the
    argument as given; all else that happens is what the handler calls
    back, so that the loop is not asked to stop and the history is left
    alone. *)
Theorem shell_exec_application_first (E : environment) (s : shell)
  (pre post : list bt_shell_menu_entry) (entry : bt_shell_menu_entry)
  (cmd : string) (arg : option string) (id : nat) :
  data_menu (data s) = Some (pre ++ entry :: post) ->
  Forall (passed_over cmd) pre ->
  entry_cmd entry = cmd ->
  entry_func entry = Some (CbApp id) ->
  exists s' called,
    shell_exec E (Some cmd) arg s = Ret tt s' /\
    trace s' = trace s ++ CallCmd id arg :: called /\
    Forall api_event called /\
    quit_requests (trace s') = quit_requests (trace s) /\
    main_loop s' = main_loop s /\
    the_history (rl s') = the_history (rl s).
Proof.
  intros Hm Hpre Hc Hf.
  rewrite (shell_exec_resolve E cmd arg s _ Hm).
  rewrite (resolve_first cmd pre entry post _ Hpre Hc Hf).
  destruct (call_menu_cb_app E id arg s) as (s' & called & Hrun & Htr & Hev & Hl & Hh).
  exists s', called. repeat split; try assumption.
  rewrite Htr, quit_requests_app.
  change (CallCmd id arg :: called) with ([CallCmd id arg] ++ called).
  rewrite quit_requests_app, (quit_requests_api called Hev).
  unfold quit_requests at 2. cbn. lia.
Qed.

(** X4: with a table attached in which no entry with a handler has the
    name, each built-in command does its work whatever its argument is:
    [quit] and [exit] ask the loop to stop, once, and change nothing else;
    [version] writes the version line and changes nothing else; [help]
    writes the two heading lines, one line for each entry of the
    application's table in table order, then the lines of the four
    built-ins, and changes nothing else. *)
Theorem shell_exec_builtin (E : environment) (s : shell)
  (menu : list bt_shell_menu_entry) (arg : option string) :
  data_menu (data s) = Some menu ->
  (forall cmd,
     cmd = "quit" \/ cmd = "exit" ->
     Forall (passed_over cmd) menu ->
     shell_exec E (Some cmd) arg s =
     Ret tt (with_main_loop (option_map (fun _ => false) (main_loop s))
                            (with_trace (trace s ++ [MainLoopQuit]) s))) /\
  (Forall (passed_over "version") menu ->
   exists evs,
     shell_exec E (Some "version") arg s =
     Ret tt (with_trace (trace s ++ evs) s) /\
     printed evs = ["Version " +:+ env_VERSION E +:+ nl]) /\
  (Forall (passed_over "help") menu ->
   shell_exec E (Some "help") arg s =
   Ret tt (with_trace (trace s ++ map Printf (listing E menu)) s) /\
   listing E menu =
   [ env_COLOR_HIGHLIGHT E +:+ "Available commands:" +:+ env_COLOR_OFF E +:+ nl;
     env_COLOR_HIGHLIGHT E +:+ "-------------------" +:+ env_COLOR_OFF E +:+ nl ]
   ++ map (menu_line E) menu ++ map (menu_line E) default_menu).
Proof.
  intros Hm. split; [|split].
  - intros cmd Hcmd Hover.
    rewrite (shell_exec_resolve E cmd arg s _ Hm), (resolve_none cmd menu Hover).
    destruct Hcmd as [-> | ->]; reflexivity.
  - intros Hover.
    rewrite (shell_exec_resolve E "version" arg s _ Hm),
      (resolve_none _ menu Hover).
    cbn [resolve default_menu String.eqb Ascii.eqb Bool.eqb entry_cmd entry_func
         call_menu_cb]. unfold cmd_version.
    eexists. split; [apply bt_shell_printf_run|].
    destruct (rl_state_done (rl s)), (data_saved_prompt (data s)); reflexivity.
  - intros Hover. split; [|reflexivity].
    rewrite (shell_exec_resolve E "help" arg s _ Hm),
      (resolve_none _ menu Hover).
    cbn [resolve default_menu String.eqb Ascii.eqb Bool.eqb entry_cmd entry_func
         call_menu_cb]. unfold cmd_help.
    apply shell_print_menu_run, Hm.
Qed.
(** ** The columns of the menu listing *)

Lemma to_int_small z : (- 2 ^ 31 <= z < 2 ^ 31)%Z -> to_int (z mod 2 ^ 64) = z.
Proof.
  intros Hz. unfold to_int.
  rewrite Z.mod_mod_divide by (exists (2 ^ 32)%Z; reflexivity).
  destruct (Z.ltb_spec (z mod 2 ^ 32) (2 ^ 31)) as [Hlt|Hge].
  - destruct (Z.le_gt_cases 0 z) as [Hpos|Hneg].
    + apply Z.mod_small. lia.
    + exfalso. rewrite <- (Z.mod_add z 1 (2 ^ 32)) in Hlt by lia.
      rewrite Z.mod_small in Hlt by lia. lia.
  - destruct (Z.le_gt_cases 0 z) as [Hpos|Hneg].
    + exfalso. rewrite Z.mod_small in Hge by lia. lia.
    + rewrite <- (Z.mod_add z 1 (2 ^ 32)) by lia.
      rewrite Z.mod_small by lia. lia.
Qed.

(** The field width [print_menu] passes for the arguments: the difference
    is taken in [size_t] and converted to [int], so that it is negative
    for a command of more than 48 characters. *)
Lemma menu_width_value cmd :
  (Z.of_nat (strlen cmd) < 2 ^ 31)%Z ->
  menu_width cmd = (48 - Z.of_nat (strlen cmd))%Z.
Proof.
  intros H. unfold menu_width, CMD_LENGTH. apply to_int_small. lia.
Qed.

Lemma print_menu_run E cmd args desc s :
  print_menu E cmd args desc s =
  Ret tt (with_trace
            (trace s ++
             [Printf (env_COLOR_HIGHLIGHT E +:+ cmd +:+ " "
                        +:+ left_justify (menu_width cmd) args +:+ " "
                        +:+ env_COLOR_OFF E +:+ desc +:+ nl)]) s).
Proof. reflexivity. Qed.

(** X5: a line of the menu listing.  When the command and its arguments
    together have at most 48 characters, the arguments are padded with
    spaces so that the description starts 50 columns after the highlight
    code, the same column in every such line.  When they have more and the
    command has at most 48, nothing is padded and nothing is cut.  For a
    command of more than 48 characters the width is negative, which printf
    reads as left-justification in a field of the absolute value: the
    arguments are then padded to the number of characters by which the
    command exceeds 48. *)
Theorem print_menu_columns (E : environment) (cmd args desc : string)
  (s : shell) :
  (Z.of_nat (strlen cmd) < 2 ^ 31)%Z ->
  let line (padding : nat) :=
    env_COLOR_HIGHLIGHT E +:+ cmd +:+ " " +:+ (args +:+ spaces padding)
      +:+ " " +:+ env_COLOR_OFF E +:+ desc +:+ nl in
  (strlen cmd + strlen args <= 48 ->
   print_menu E cmd args desc s =
   Ret tt (with_trace
             (trace s ++ [Printf (line (48 - strlen cmd - strlen args))]) s) /\
   strlen (cmd +:+ " " +:+ (args +:+ spaces (48 - strlen cmd - strlen args))
             +:+ " ") = 50) /\
  (strlen cmd <= 48 -> 48 < strlen cmd + strlen args ->
   print_menu E cmd args desc s =
   Ret tt (with_trace (trace s ++ [Printf (line 0)]) s)) /\
  (48 < strlen cmd ->
   print_menu E cmd args desc s =
   Ret tt (with_trace
             (trace s ++ [Printf (line (strlen cmd - 48 - strlen args))]) s)).
Proof.
  intros Hlen line. rewrite print_menu_run.
  unfold left_justify. rewrite (menu_width_value cmd Hlen).
  split; [|split].
  - intros Hfit. split.
    + unfold line. repeat f_equal. lia.
    + unfold strlen in *. rewrite !length_append, length_spaces. simpl. lia.
  - intros Hcmd Hlong. unfold line. repeat f_equal. lia.
  - intros Hcmd. unfold line. repeat f_equal. lia.
Qed.
(** ** The input descriptor *)

Lemma bt_shell_attach_run fd s :
  bt_shell_attach fd s =
  match data_input (data s) with
  | Some _ => Ret false s
  | None => Ret true (with_data (set_input (Some fd))
                                (with_trace (trace s ++ [IoNew fd]) s))
  end.
Proof.
  unfold bt_shell_attach. cbv [bind get].
  destruct (data_input (data s)); reflexivity.
Qed.

Lemma set_input_same s :
  data_input (data s) = None ->
  with_data (set_input None) s = s.
Proof.
  destruct s as [d l t g r tr]. destruct d. cbn. intros ->. reflexivity.
Qed.

(** X6: the input descriptor.  [bt_shell_attach] registers the descriptor
    and returns true when none is attached; while one is attached it
    returns false, registers nothing and leaves the attached one in place.
    [bt_shell_detach] returns false and does nothing when none is
    attached.  Attaching and then detaching unregisters what was
    registered and leaves the state, but for the trace, as it was, so that
    another descriptor can be attached afterwards. *)
Theorem bt_shell_attach_detach (s : shell) (fd fd' : Z) :
  (forall io, data_input (data s) = Some io ->
              bt_shell_attach fd s = Ret false s) /\
  (data_input (data s) = None ->
   bt_shell_attach fd s =
   Ret true (with_data (set_input (Some fd))
                       (with_trace (trace s ++ [IoNew fd]) s)) /\
   bt_shell_detach s = Ret false s /\
   bind (bt_shell_attach fd) (fun _ => bt_shell_attach fd') s =
   Ret false (with_data (set_input (Some fd))
                        (with_trace (trace s ++ [IoNew fd]) s)) /\
   bind (bt_shell_attach fd) (fun _ => bt_shell_detach) s =
   Ret true (with_trace (trace s ++ [IoNew fd; IoDestroy fd]) s) /\
   bind (bt_shell_attach fd)
        (fun _ => bind bt_shell_detach (fun _ => bt_shell_attach fd')) s =
   Ret true (with_data (set_input (Some fd'))
               (with_trace (trace s ++ [IoNew fd; IoDestroy fd; IoNew fd'])
                           s))) /\
  (forall io, data_input (data s) = Some io ->
              bind bt_shell_detach (fun _ => bt_shell_detach) s =
              Ret false (with_data (set_input None)
                           (with_trace (trace s ++ [IoDestroy io]) s))).
Proof.
  split; [|split].
  - intros io Hi. rewrite bt_shell_attach_run, Hi. reflexivity.
  - intros Hi. repeat split.
    + rewrite bt_shell_attach_run, Hi. reflexivity.
    + rewrite bt_shell_detach_run. unfold detach_events. rewrite Hi.
      rewrite app_nil_r, with_trace_same, (set_input_same s Hi). reflexivity.
    + unfold bind at 1. rewrite bt_shell_attach_run, Hi.
      rewrite bt_shell_attach_run. reflexivity.
    + unfold bind at 1. rewrite bt_shell_attach_run, Hi.
      rewrite bt_shell_detach_run.
      destruct s as [d l t g r tr]. destruct d. cbn in *. subst.
      rewrite <- app_assoc. reflexivity.
    + unfold bind at 1. rewrite bt_shell_attach_run, Hi.
      unfold bind at 1. rewrite bt_shell_detach_run.
      rewrite bt_shell_attach_run.
      destruct s as [d l t g r tr]. destruct d. cbn in *. subst.
      rewrite <- !app_assoc. reflexivity.
  - intros io Hi. unfold bind at 1. rewrite bt_shell_detach_run.
    rewrite bt_shell_detach_run. unfold detach_events. rewrite Hi.
    destruct s as [d l t g r tr]. destruct d. cbn in *. subst.
    rewrite app_nil_r. reflexivity.
Qed.
(** ** After the run *)

Lemma bind_Ret_inv {A B} (c : M A) (k : A -> M B) s b s' :
  bind c k s = Ret b s' ->
  exists a s1, c s = Ret a s1 /\ k a s1 = Ret b s'.
Proof.
  unfold bind. destruct (c s) as [a s1| |s1]; try discriminate.
  intros H. exists a, s1. split; [reflexivity | exact H].
Qed.

Lemma setup_signalfd_run mask_rc fd s :
  exists evs,
    setup_signalfd mask_rc fd s =
    Ret (if (mask_rc <? 0)%Z || (fd <? 0)%Z then None else Some fd)
        (with_trace (trace s ++ evs) s).
Proof.
  unfold setup_signalfd, io_new.
  destruct (mask_rc <? 0)%Z; [eexists; reflexivity|].
  destruct (fd <? 0)%Z; eexists; reflexivity.
Qed.

Lemma menu_kept_release E input :
  psteps menu_kept (bt_shell_release_prompt E input).
Proof.
  apply (kept_bt_shell_release_prompt menu_kept menu_kept_refl menu_kept_trans).
  - intros t s table H. exact H.
  - intros s s' [_ _ _ _ _ H]. exact H.
  - intros f s Hf table H. cbn. rewrite (proj1 (Hf (data s))). exact H.
Qed.

Lemma menu_kept_g_main_loop_run E signal events :
  psteps menu_kept (g_main_loop_run E signal events).
Proof.
  unfold g_main_loop_run.
  apply (psteps_bind menu_kept menu_kept_trans);
    [apply steps_psteps, steps_get, menu_kept_refl|].
  intros s. destruct (main_loop s); [|apply psteps_ret, menu_kept_refl].
  apply (psteps_bind menu_kept menu_kept_trans).
  - apply steps_psteps, steps_modify. intros s0 table H. exact H.
  - intros _. apply menu_kept_main_loop_iterate.
Qed.

(** The end of [bt_shell_run], from [bt_shell_detach] on. *)
Lemma bt_shell_run_teardown signal s :
  bind bt_shell_detach
       (fun _ => io_destroy signal ;; emit MainLoopUnref ;;
                 modify (with_main_loop None) ;; rl_cleanup) s =
  Ret tt (with_main_loop None
            (with_trace (trace s ++ detach_events s ++ teardown_events signal)
                        (with_data (set_input None) s))).
Proof.
  rewrite (bind_Ret _ _ _ _ _ (bt_shell_detach_run s)).
  unfold teardown_events, io_destroy, rl_cleanup, rl_message,
    rl_callback_handler_remove.
  destruct signal as [sfd|]; cbv [bind emit modify ret];
    destruct s as [d l t g r tr]; cbn;
    rewrite <- !app_assoc; reflexivity.
Qed.

(** The shape of the state in which [bt_shell_run] returns. *)
Lemma bt_shell_run_returns E mask_rc fd events s s' :
  bt_shell_run E mask_rc fd events s = Ret tt s' ->
  exists signal s1 s2 r s3,
    setup_signalfd mask_rc fd s = Ret signal s1 /\
    g_main_loop_run E signal events s1 = Ret tt s2 /\
    bt_shell_release_prompt E "" s2 = Ret r s3 /\
    s' = with_main_loop None
           (with_trace (trace s3 ++ detach_events s3 ++ teardown_events signal)
                       (with_data (set_input None) s3)).
Proof.
  unfold bt_shell_run. intros Hrun.
  apply bind_Ret_inv in Hrun as (signal & s1 & Hsetup & Hrun).
  apply bind_Ret_inv in Hrun as ([] & s2 & Hloop & Hrun).
  apply bind_Ret_inv in Hrun as (r & s3 & Hrel & Hrun).
  rewrite bt_shell_run_teardown in Hrun. injection Hrun as <-.
  exists signal, s1, s2, r, s3. repeat split; assumption.
Qed.

Lemma bt_shell_run_input_detached E mask_rc fd events s s' :
  bt_shell_run E mask_rc fd events s = Ret tt s' ->
  data_input (data s') = None.
Proof.
  intros Hrun.
  destruct (bt_shell_run_returns E mask_rc fd events s s' Hrun)
    as (signal & s1 & s2 & r & s3 & _ & _ & _ & ->).
  reflexivity.
Qed.

(** X7: whenever [bt_shell_run] returns, the loop is gone, no input is
    attached, and the trace ends with the release of the loop, the
    clearing of Readline's message and the removal of its handler.  A
    table that was attached before the run is still attached, so that
    [bt_shell_set_menu] goes on refusing; [bt_shell_set_prompt] no longer
    does anything, and [bt_shell_detach] finds nothing to detach. *)
Theorem bt_shell_run_leaves_idle (E : environment) (mask_rc fd : Z)
  (events : list reactor_event) (s s' : shell) :
  bt_shell_run E mask_rc fd events s = Ret tt s' ->
  main_loop s' = None /\
  data_input (data s') = None /\
  (exists before,
     trace s' =
     before ++ [MainLoopUnref; RlMessage ""; RlCallbackHandlerRemove]) /\
  (forall table,
     data_menu (data s) = Some table ->
     data_menu (data s') = Some table /\
     forall menu, bt_shell_set_menu menu s' = Ret false s') /\
  (forall text, bt_shell_set_prompt text s' = Ret tt s') /\
  bt_shell_detach s' = Ret false s'.
Proof.
  unfold bt_shell_run. intros Hrun.
  apply bind_Ret_inv in Hrun as (signal & s1 & Hsetup & Hrun).
  apply bind_Ret_inv in Hrun as ([] & s2 & Hloop & Hrun).
  apply bind_Ret_inv in Hrun as (r & s3 & Hrel & Hrun).
  rewrite bt_shell_run_teardown in Hrun. injection Hrun as <-.
  assert (Hkept : menu_kept s s3).
  { destruct (setup_signalfd_run mask_rc fd s) as (evs & Hs).
    rewrite Hs in Hsetup. injection Hsetup as _ <-.
    pose proof (menu_kept_g_main_loop_run E signal events
                  (with_trace (trace s ++ evs) s)) as H2.
    rewrite Hloop in H2.
    pose proof (menu_kept_release E "" s2) as H3. rewrite Hrel in H3.
    intros table H. apply H3, H2. exact H. }
  split; [reflexivity|]. split; [reflexivity|]. split; [|split; [|split]].
  - cbn [trace with_main_loop with_trace].
    exists (trace s3 ++ detach_events s3
            ++ match signal with Some sfd => [IoDestroy sfd] | None => [] end).
    unfold teardown_events. rewrite <- !app_assoc. reflexivity.
  - intros table Hm. assert (Hm3 := Hkept table Hm). split.
    + cbn. exact Hm3.
    + intros menu. apply bt_shell_set_menu_refused. left.
      cbn. rewrite Hm3. discriminate.
  - intros text. reflexivity.
  - rewrite bt_shell_detach_run. cbn.
    destruct s3 as [d l t g r3 tr]. destruct d. cbn.
    rewrite app_nil_r. reflexivity.
Qed.
(** ** What ends the loop *)

Lemma quit_requests_snoc_quit t : quit_requests (t ++ [MainLoopQuit]) = quit_requests t + 1.
Proof. rewrite quit_requests_app. reflexivity. Qed.

Lemma quit_requests_snoc t e :
  is_quit e = false -> quit_requests (t ++ [e]) = quit_requests t.
Proof.
  intros H. rewrite quit_requests_app. unfold quit_requests at 2.
  cbn. rewrite H. cbn. lia.
Qed.

Lemma prompt_calls_snoc t e :
  prompt_calls [e] = [] -> prompt_calls (t ++ [e]) = prompt_calls t.
Proof. intros H. rewrite prompt_calls_app, H. apply app_nil_r. Qed.

(** A handler call that ends the loop: the loop is asked to stop, once,
    and its running flag is cleared; no prompt callback is called, and the
    statics of [data] and the history entries stay. *)
Lemma ends_loop_dispatch E signal e s :
  ends_loop s signal e = true ->
  exists s',
    dispatch E signal e s = Ret tt s' /\
    main_loop s' = option_map (fun _ => false) (main_loop s) /\
    quit_requests (trace s') = quit_requests (trace s) + 1 /\
    prompt_calls (trace s') = prompt_calls (trace s) /\
    data s' = data s /\
    the_history (rl s') = the_history (rl s).
Proof.
  intros Hends.
  assert (Hq : forall t, quit_requests (t ++ [MainLoopQuit]) = quit_requests t + 1)
    by apply quit_requests_snoc_quit.
  destruct e as [[text point rewritten position|[line|]]| |[signo|]| |a|input];
    cbn [ends_loop] in Hends; try discriminate.
  - destruct (data_input (data s)) as [io|] eqn:Hi; [clear Hends|discriminate].
    unfold dispatch. cbv [bind get]. rewrite Hi.
    eexists. split; [reflexivity|]. cbn -[quit_requests].
    rewrite Hq, !quit_requests_snoc, !prompt_calls_snoc by reflexivity.
    repeat split.
  - destruct (data_input (data s)) as [io|] eqn:Hi; [clear Hends|discriminate].
    unfold dispatch. cbv [bind get]. rewrite Hi.
    eexists. split; [reflexivity|]. cbn -[quit_requests].
    rewrite Hq, !prompt_calls_snoc by reflexivity. repeat split.
  - destruct signal as [sfd|]; [|discriminate].
    destruct (terminated s) eqn:Ht; [discriminate|].
    cbn [is_null negb andb] in Hends. unfold terminating in Hends.
    assert (Hcase : signal_read (Some signo) s = signal_read (Some SIGTERM) s).
    { unfold signal_read.
      destruct (Z.eqb_spec signo SIGINT) as [->|Hint].
      - cbn [Z.eqb SIGINT SIGTERM orb andb] in Hends.
        cbv [bind get]. destruct (data_input (data s)); [discriminate|].
        reflexivity.
      - rewrite orb_false_r in Hends. apply Z.eqb_eq in Hends. subst signo.
        reflexivity. }
    unfold dispatch. cbv [bind get]. rewrite Hcase.
    unfold signal_read. change (SIGTERM =? SIGINT)%Z with false.
    change (SIGTERM =? SIGTERM)%Z with true. cbv [bind get]. rewrite Ht.
    eexists. split; [reflexivity|]. cbn -[quit_requests].
    rewrite Hq, !quit_requests_snoc, !prompt_calls_snoc by reflexivity.
    repeat split.
  - destruct signal as [sfd|]; [clear Hends|discriminate].
    unfold dispatch. cbv [bind get].
    eexists. split; [reflexivity|]. cbn -[quit_requests].
    rewrite Hq, !prompt_calls_snoc by reflexivity. repeat split.
Qed.

(** X8: while the loop runs, it ends with the first hang-up of the input
    or of the signal descriptor, with the end of the input, and with the
    first signal that takes the SIGTERM case: [g_main_loop_run] returns
    after that handler call and handles nothing that comes later.  The
    loop has been asked to stop once; no prompt callback has been called,
    so that a pending override is still pending, and the history has the
    entries it had. *)
Theorem g_main_loop_run_ends (E : environment) (signal : option Z)
  (e : reactor_event) (rest : list reactor_event) (s : shell) :
  main_loop s <> None ->
  ends_loop s signal e = true ->
  exists s',
    g_main_loop_run E signal (e :: rest) s = Ret tt s' /\
    g_main_loop_run E signal [e] s = Ret tt s' /\
    main_loop s' = Some false /\
    quit_requests (trace s') = quit_requests (trace s) + 1 /\
    prompt_calls (trace s') = prompt_calls (trace s) /\
    data s' = data s /\
    the_history (rl s') = the_history (rl s).
Proof.
  intros Hloop Hends.
  destruct (main_loop s) as [b|] eqn:Hl; [clear Hloop|congruence].
  destruct (ends_loop_dispatch E signal e (with_main_loop (Some true) s) Hends)
    as (s' & Hd & Hl' & Hq & Hp & Hdata & Hh).
  assert (Hrun : forall events,
            g_main_loop_run E signal (e :: events) s = Ret tt s').
  { intros events. unfold g_main_loop_run. cbv [bind get]. rewrite Hl.
    cbv [modify]. cbn [main_loop_iterate].
    rewrite (bind_Ret _ _ _ _ _ Hd). cbv [bind get]. rewrite Hl'.
    reflexivity. }
  exists s'. split; [apply Hrun|]. split; [apply Hrun|].
  split; [exact Hl'|]. repeat split; assumption.
Qed.
(** ** What the handlers keep, step by step *)

(** Relations between the state before and after that hold across each
    single thing the shell's handlers do: recording an event that is
    neither a stop request nor a registration, asking the loop to stop, a
    call of one of the public functions, a change of the prompt fields, a
    change of Readline's state that keeps the number of history entries,
    the history step of the line handler, and the setting of the [terminated] flag.
    Such a relation holds across everything the reactor dispatches. *)
Lemma length_replace_entries rewritten : forall h,
  length (replace_entries rewritten h) = length h.
Proof.
  induction rewritten as [|[i text] rewritten IH]; intros h;
    cbn [replace_entries]; [reflexivity|].
  rewrite IH. apply length_insert.
Qed.

Section Traced.

Context (R : shell -> shell -> Prop).
Hypothesis R_refl : forall s, R s s.
Hypothesis R_trans : forall s1 s2 s3, R s1 s2 -> R s2 s3 -> R s1 s3.
Hypothesis R_emit :
  forall e s, plain e = true -> R s (with_trace (trace s ++ [e]) s).
Hypothesis R_quit :
  forall s, R s (with_main_loop (option_map (fun _ => false) (main_loop s))
                                (with_trace (trace s ++ [MainLoopQuit]) s)).
Hypothesis R_prompt :
  forall f s, (forall d, data_menu (f d) = data_menu d /\
                         data_input (f d) = data_input d) ->
              R s (with_data f s).
Hypothesis R_rl :
  forall f s, (forall r, length (the_history (f r)) = length (the_history r)) ->
              R s (with_rl f s).
Hypothesis R_record : forall input s, R s (with_rl (record_line input) s).
Hypothesis R_terminated : forall s, R s (with_terminated true s).

Variable E : environment.
Hypothesis R_run_api : forall a, steps R (run_api E a).

Lemma traced_emit e : plain e = true -> steps R (emit e).
Proof. intros He. apply steps_modify. intros s. apply R_emit, He. Qed.

Lemma traced_g_main_loop_quit : steps R g_main_loop_quit.
Proof.
  intros s.
  exists tt, (with_main_loop (option_map (fun _ => false) (main_loop s))
                             (with_trace (trace s ++ [MainLoopQuit]) s)).
  split; [reflexivity | apply R_quit].
Qed.

Lemma traced_script script : steps R (for_each (run_api E) script).
Proof. apply (steps_for_each R R_refl R_trans), R_run_api. Qed.

Lemma traced_printed texts : forall s,
  R s (with_trace (trace s ++ map Printf texts) s).
Proof.
  induction texts as [|x texts IH]; intros s.
  - cbn [map]. rewrite app_nil_r, with_trace_same. apply R_refl.
  - apply (R_trans _ (with_trace (trace s ++ [Printf x]) s));
      [apply R_emit; reflexivity|].
    specialize (IH (with_trace (trace s ++ [Printf x]) s)).
    cbn [trace with_trace map] in *. rewrite <- app_assoc in IH. exact IH.
Qed.

Lemma traced_call_menu_cb f arg : steps R (call_menu_cb E f arg).
Proof.
  destruct f; simpl.
  - apply (R_run_api (Api_printf _)).
  - apply traced_g_main_loop_quit.
  - intros s. unfold cmd_help.
    destruct (data_menu (data s)) as [menu|] eqn:Hm.
    + rewrite (shell_print_menu_run E s menu Hm).
      eexists _, _. split; [reflexivity | apply traced_printed].
    + exists tt, s. split; [|apply R_refl].
      unfold shell_print_menu. cbv [bind get]. rewrite Hm. reflexivity.
  - apply (steps_bind R R_trans); [apply traced_emit; reflexivity|]. intros _.
    apply (steps_bind R R_trans); [apply steps_get; exact R_refl|]. intros s.
    apply traced_script.
Qed.

Lemma traced_shell_exec cmd arg : steps R (shell_exec E cmd arg).
Proof.
  intros s. destruct (data_menu (data s)) as [menu|] eqn:Hm.
  - destruct cmd as [cmd|].
    + rewrite (shell_exec_resolve E cmd arg s menu Hm).
      destruct (resolve menu cmd) as [f|]; [apply traced_call_menu_cb|].
      destruct (resolve default_menu cmd) as [f|]; [apply traced_call_menu_cb|].
      eexists _, _. split; [reflexivity|].
      apply (traced_printed [_] s).
    + exists tt, s. split; [|apply R_refl].
      unfold shell_exec. cbv [bind get]. rewrite Hm. reflexivity.
  - exists tt, s. split; [|apply R_refl].
    apply shell_exec_no_menu, Hm.
Qed.

Lemma traced_rl_handler_exec input : steps R (rl_handler_exec E input).
Proof.
  unfold rl_handler_exec. destruct (strtok_r input " ") as [[cmd|] arg].
  - apply traced_shell_exec.
  - apply steps_ret, R_refl.
Qed.

Lemma traced_released f input s : R s (released f input s).
Proof.
  unfold released.
  set (s1 := with_data (fun d => mkData (data_input d) false None 0
                                        (data_menu d)) s).
  apply (R_trans _ s1); [apply R_prompt; intros d; split; reflexivity|].
  apply (R_trans _ (with_trace (trace s1 ++ [RlRestorePrompt]) s1));
    [apply R_emit; reflexivity|].
  replace (with_trace (trace s ++ [RlRestorePrompt;
             CallPrompt f input (data_saved_user_data (data s))]) s1)
    with (with_trace
            (trace (with_trace (trace s1 ++ [RlRestorePrompt]) s1)
             ++ [CallPrompt f input (data_saved_user_data (data s))])
            (with_trace (trace s1 ++ [RlRestorePrompt]) s1)).
  - apply R_emit. reflexivity.
  - unfold s1. destruct s as [d l t g r tr]. cbn.
    rewrite <- app_assoc. reflexivity.
Qed.

Lemma traced_bt_shell_release_prompt input :
  psteps R (bt_shell_release_prompt E input).
Proof.
  intros s.
  destruct (data_saved_prompt (data s)) eqn:Hp.
  - destruct (data_saved_func (data s)) as [f|] eqn:Hf.
    + rewrite (bt_shell_release_prompt_pending E input s f Hp Hf).
      destruct (traced_script
                  (env_prompt_body E f input (data_saved_user_data (data s))
                                   (released f input s)) (released f input s))
        as ([] & s' & Hrun & HR).
      rewrite (bind_Ret _ _ _ _ _ Hrun). cbv [ret].
      apply (R_trans _ (released f input s)); [|exact HR].
      apply traced_released.
    + unfold bt_shell_release_prompt. cbv [bind get]. rewrite Hp, Hf. exact I.
  - rewrite (bt_shell_release_prompt_idle E input s Hp). apply R_refl.
Qed.

Lemma traced_rl_handler input : psteps R (rl_handler E input).
Proof.
  destruct input as [input|]; cbn [rl_handler].
  - destruct (strlen input =? 0)%nat; [apply psteps_ret, R_refl|].
    apply (psteps_bind R R_trans); [apply traced_bt_shell_release_prompt|].
    intros released. destruct (released =? 0)%Z; [apply psteps_ret, R_refl|].
    apply (psteps_bind R R_trans).
    + intros s. rewrite rl_handler_history_run. apply R_record.
    + intros _. apply steps_psteps, traced_rl_handler_exec.
  - apply steps_psteps.
    apply (steps_bind R R_trans);
      [apply steps_modify; intros s; apply R_rl; reflexivity|].
    intros _. apply (steps_bind R R_trans); [apply traced_emit; reflexivity|].
    intros _. apply (steps_bind R R_trans); [apply traced_emit; reflexivity|].
    intros _. apply traced_g_main_loop_quit.
Qed.

Lemma traced_signal_read si : steps R (signal_read si).
Proof.
  assert (Hterm : steps R (
    s <- get ;;
    (if negb (terminated s) then
       rl_replace_line "" ;; rl_crlf ;; g_main_loop_quit
     else ret tt) ;;
    modify (with_terminated true) ;; ret false)).
  { apply (steps_bind R R_trans); [apply steps_get; exact R_refl|]. intros s.
    apply (steps_bind R R_trans).
    - destruct (negb (terminated s)); [|apply steps_ret, R_refl].
      apply (steps_bind R R_trans);
        [apply steps_modify; intros s0; apply R_rl; reflexivity|].
      intros _. apply (steps_bind R R_trans); [apply traced_emit; reflexivity|].
      intros _. apply traced_g_main_loop_quit.
    - intros _. apply (steps_bind R R_trans).
      + apply steps_modify. intros s0. apply R_terminated.
      + intros _. apply steps_ret, R_refl. }
  destruct si as [signo|]; cbn [signal_read]; [|apply steps_ret, R_refl].
  destruct (signo =? SIGINT)%Z.
  - apply (steps_bind R R_trans); [apply steps_get; exact R_refl|]. intros s.
    destruct (data_input (data s)); [|exact Hterm].
    apply (steps_bind R R_trans);
      [apply steps_modify; intros s0; apply R_rl; reflexivity|].
    intros _. apply (steps_bind R R_trans); [apply traced_emit; reflexivity|].
    intros _. apply (steps_bind R R_trans); [apply traced_emit; reflexivity|].
    intros _. apply (steps_bind R R_trans); [apply traced_emit; reflexivity|].
    intros _. apply steps_ret, R_refl.
  - destruct (signo =? SIGTERM)%Z; [exact Hterm | apply steps_ret, R_refl].
Qed.

Lemma traced_io_hup : steps R io_hup.
Proof.
  unfold io_hup. apply (steps_bind R R_trans); [apply traced_g_main_loop_quit|].
  intros _. apply steps_ret, R_refl.
Qed.

Lemma traced_rl_callback_read_char k : psteps R (rl_callback_read_char E k).
Proof.
  destruct k as [text point rewritten position|line];
    cbn [rl_callback_read_char].
  - apply steps_psteps, steps_modify. intros s0. apply R_rl. intros r.
    apply length_replace_entries.
  - apply (psteps_bind R R_trans);
      [apply steps_psteps, steps_modify; intros s0; apply R_rl; reflexivity|].
    intros _. apply (psteps_bind R R_trans); [apply traced_rl_handler|].
    intros _. apply (psteps_bind R R_trans);
      [apply steps_psteps, steps_modify; intros s0; apply R_rl; reflexivity|].
    intros _. apply steps_psteps, steps_modify. intros s0.
    apply R_rl. reflexivity.
Qed.

Lemma traced_dispatch signal e : psteps R (dispatch E signal e).
Proof.
  unfold dispatch.
  apply (psteps_bind R R_trans); [apply steps_psteps, steps_get; exact R_refl|].
  intros s. destruct e as [k| |si| |a|input].
  - destruct (data_input (data s)); [|apply psteps_ret, R_refl].
    apply (psteps_bind R R_trans); [|intros _; apply psteps_ret, R_refl].
    unfold input_read.
    apply (psteps_bind R R_trans); [|intros _; apply psteps_ret, R_refl].
    apply traced_rl_callback_read_char.
  - destruct (data_input (data s)); [|apply psteps_ret, R_refl].
    apply steps_psteps.
    apply (steps_bind R R_trans); [apply traced_io_hup|].
    intros _. apply steps_ret, R_refl.
  - destruct signal; [|apply psteps_ret, R_refl].
    apply steps_psteps.
    apply (steps_bind R R_trans); [apply traced_signal_read|].
    intros _. apply steps_ret, R_refl.
  - destruct signal; [|apply psteps_ret, R_refl].
    apply steps_psteps.
    apply (steps_bind R R_trans); [apply traced_io_hup|].
    intros _. apply steps_ret, R_refl.
  - apply steps_psteps, R_run_api.
  - apply (psteps_bind R R_trans); [apply traced_bt_shell_release_prompt|].
    intros _. apply psteps_ret, R_refl.
Qed.

Lemma traced_main_loop_iterate signal events :
  psteps R (main_loop_iterate E signal events).
Proof.
  induction events as [|e events IH]; cbn [main_loop_iterate].
  - intros s. apply R_refl.
  - apply (psteps_bind R R_trans); [apply traced_dispatch|]. intros _.
    apply (psteps_bind R R_trans); [apply steps_psteps, steps_get; exact R_refl|].
    intros s. destruct (main_loop s) as [[|]|]; try apply psteps_ret, R_refl.
    exact IH.
Qed.

End Traced.
(** ** The history across a run *)

Lemma history_same_release E input :
  psteps history_same (bt_shell_release_prompt E input).
Proof.
  apply (kept_bt_shell_release_prompt history_same).
  - intros s0. reflexivity.
  - intros s1 s2 s3 H1 H2. unfold history_same in *. congruence.
  - intros t s0. reflexivity.
  - intros s0 s' [_ H _ _ _ _]. exact H.
  - intros f s0 _. reflexivity.
Qed.

Lemma history_grows_refl s : history_grows s s.
Proof. unfold history_grows. lia. Qed.

Lemma history_grows_trans s1 s2 s3 :
  history_grows s1 s2 -> history_grows s2 s3 -> history_grows s1 s3.
Proof. unfold history_grows. lia. Qed.

Lemma history_grows_same s s' :
  length (the_history (rl s')) = length (the_history (rl s)) ->
  history_grows s s'.
Proof. unfold history_grows. lia. Qed.

Lemma history_grows_record input s :
  history_grows s (with_rl (record_line input) s).
Proof.
  unfold history_grows. cbn [rl with_rl].
  destruct (record_line_cases input (rl s)) as [H|H]; rewrite H;
    [|rewrite length_app]; lia.
Qed.

Lemma history_grows_run_api E a : steps history_grows (run_api E a).
Proof.
  apply (steps_weaken api_frame); [|apply frame_run_api].
  intros s s' [_ H _ _ _ _]. apply history_grows_same. rewrite H. reflexivity.
Qed.

Lemma history_grows_main_loop_iterate E signal events :
  psteps history_grows (main_loop_iterate E signal events).
Proof.
  apply (traced_main_loop_iterate history_grows history_grows_refl
           history_grows_trans).
  - intros e s _. apply history_grows_same. reflexivity.
  - intros s. apply history_grows_same. reflexivity.
  - intros f s _. apply history_grows_same. reflexivity.
  - intros f s H. apply history_grows_same. cbn. apply H.
  - apply history_grows_record.
  - intros s. apply history_grows_same. reflexivity.
  - apply history_grows_run_api.
Qed.

Lemma history_grows_release E input :
  psteps history_grows (bt_shell_release_prompt E input).
Proof.
  intros s. pose proof (history_same_release E input s) as H.
  destruct (bt_shell_release_prompt E input s) as [r s'| |s']; [|exact I|];
    apply history_grows_same; rewrite H; reflexivity.
Qed.

(** X9: the shell only ever appends to the history.  A call of
    [rl_handler] leaves the history as it was, or as it was with the
    submitted line appended behind the last entry: it removes and rewrites
    nothing.  Across a run, in which Readline's own editing may rewrite a
    recalled entry and move the history position, the number of entries
    never goes down, whether [bt_shell_run] returns or the loop is left
    waiting. *)
Theorem rl_handler_only_appends (E : environment) (mask_rc fd : Z)
  (events : list reactor_event) (input : option string) (s : shell) :
  match rl_handler E input s with
  | Ret _ s' | Blocked s' =>
    the_history (rl s') = the_history (rl s) \/
    exists line,
      input = Some line /\ the_history (rl s') = the_history (rl s) ++ [line]
  | Crash => True
  end /\
  match bt_shell_run E mask_rc fd events s with
  | Ret _ s' | Blocked s' =>
    length (the_history (rl s)) <= length (the_history (rl s'))
  | Crash => True
  end.
Proof.
  split.
  - destruct input as [line|]; cbn [rl_handler].
    + destruct (strlen line =? 0)%nat; [left; reflexivity|].
      unfold bind at 1.
      pose proof (history_same_release E line s) as Hrel.
      destruct (bt_shell_release_prompt E line s) as [released s1| |s1];
        [|exact I|left; exact Hrel].
      destruct (released =? 0)%Z; [left; exact Hrel|].
      rewrite (bind_Ret _ _ _ _ _ (rl_handler_history_run line s1)).
      destruct (keeps_rl_handler_exec E line (with_rl (record_line line) s1))
        as ([] & s2 & -> & Hh & _).
      rewrite Hh. cbn [rl with_rl]. unfold history_same in Hrel.
      destruct (record_line_cases line (rl s1)) as [H|H]; rewrite H, Hrel.
      * left. reflexivity.
      * right. exists line. split; reflexivity.
    + left. reflexivity.
  - assert (H : psteps history_grows (bt_shell_run E mask_rc fd events)).
    { unfold bt_shell_run.
      apply (psteps_bind history_grows history_grows_trans).
      { intros s0. destruct (setup_signalfd_run mask_rc fd s0) as (evs & ->).
        apply history_grows_same. reflexivity. }
      intros signal. apply (psteps_bind history_grows history_grows_trans).
      { unfold g_main_loop_run.
        apply (psteps_bind history_grows history_grows_trans);
          [apply steps_psteps, steps_get, history_grows_refl|].
        intros s0.
        destruct (main_loop s0); [|apply psteps_ret, history_grows_refl].
        apply (psteps_bind history_grows history_grows_trans).
        - apply steps_psteps, steps_modify. intros s1.
          apply history_grows_same. reflexivity.
        - intros _. apply history_grows_main_loop_iterate. }
      intros _. apply (psteps_bind history_grows history_grows_trans);
        [apply history_grows_release|].
      intros _ s3. rewrite bt_shell_run_teardown.
      apply history_grows_same. reflexivity. }
    specialize (H s).
    destruct (bt_shell_run E mask_rc fd events s); exact H.
Qed.

(** ** The loop and its stop requests *)

Lemma quit_linked_refl s : quit_linked s s.
Proof. repeat split; auto. Qed.

Lemma quit_linked_trans s1 s2 s3 :
  quit_linked s1 s2 -> quit_linked s2 s3 -> quit_linked s1 s3.
Proof.
  intros (L1 & F1 & T1 & Q1) (L2 & F2 & T2 & Q2).
  split; [lia|]. split; [|split].
  - destruct F1 as [F1|F1], F2 as [F2|F2]; rewrite F2, F1; auto.
    right. destruct (main_loop s1); reflexivity.
  - intros H3. assert (H2 : main_loop s2 = Some true).
    { destruct F2 as [F2|F2]; [congruence|].
      rewrite F2 in H3. destruct (main_loop s2); discriminate. }
    rewrite (T2 H3), (T1 H2). reflexivity.
  - intros Hq. rewrite Q2, Q1 by lia. reflexivity.
Qed.

Lemma quit_linked_same s s' :
  quit_requests (trace s') = quit_requests (trace s) ->
  main_loop s' = main_loop s -> quit_linked s s'.
Proof. intros Hq Hl. repeat split; auto. lia. Qed.

Lemma quit_linked_main_loop_iterate E signal events :
  psteps quit_linked (main_loop_iterate E signal events).
Proof.
  apply (traced_main_loop_iterate quit_linked quit_linked_refl
           quit_linked_trans).
  - intros e s He. apply quit_linked_same; [|reflexivity].
    cbn -[quit_requests]. apply quit_requests_snoc.
    unfold plain in He. destruct (is_quit e); [discriminate | reflexivity].
  - intros s. unfold quit_linked. cbn -[quit_requests].
    rewrite quit_requests_snoc_quit. split; [lia|]. split; [right; reflexivity|].
    split; [|lia]. destruct (main_loop s); discriminate.
  - intros f s _. apply quit_linked_same; reflexivity.
  - intros f s _. apply quit_linked_same; reflexivity.
  - intros input s. apply quit_linked_same; reflexivity.
  - intros s. apply quit_linked_same; reflexivity.
  - intros a. apply (steps_weaken api_frame); [|apply frame_run_api].
    intros s s' [(evs & Htr & Hev) _ _ _ Hl _].
    apply quit_linked_same; [|exact Hl].
    rewrite Htr, quit_requests_app, (quit_requests_api evs Hev). lia.
Qed.

Lemma main_loop_iterate_returns E signal events : forall s s',
  main_loop_iterate E signal events s = Ret tt s' ->
  main_loop s' <> Some true.
Proof.
  induction events as [|e events IH]; intros s s' Hrun; [discriminate|].
  cbn [main_loop_iterate] in Hrun.
  apply bind_Ret_inv in Hrun as ([] & s1 & _ & Hrun).
  cbv [bind get] in Hrun.
  destruct (main_loop s1) as [[|]|] eqn:Hl.
  - apply (IH _ _ Hrun).
  - injection Hrun as <-. congruence.
  - injection Hrun as <-. congruence.
Qed.

(** Only the loop itself waits: no handler does. *)
Lemma never_blocks_total {A} (c : M A) :
  steps (fun _ _ => True) c -> never_blocks c.
Proof.
  intros H s s' Hb. destruct (H s) as (a & s1 & Hrun & _). congruence.
Qed.

Lemma never_blocks_ret {A} (a : A) : never_blocks (ret a).
Proof. intros s s'. discriminate. Qed.

Lemma never_blocks_bind {A B} (c : M A) (k : A -> M B) :
  never_blocks c -> (forall a, never_blocks (k a)) -> never_blocks (bind c k).
Proof.
  intros Hc Hk s s'. unfold bind. specialize (Hc s).
  destruct (c s) as [a s1| |s1]; [apply Hk | discriminate|].
  intros _. exact (Hc s1 eq_refl).
Qed.

Lemma never_blocks_modify f : never_blocks (modify f).
Proof. intros s s'. discriminate. Qed.

Lemma never_blocks_release E input :
  never_blocks (bt_shell_release_prompt E input).
Proof.
  intros s s'. destruct (data_saved_prompt (data s)) eqn:Hp.
  - destruct (data_saved_func (data s)) as [f|] eqn:Hf.
    + destruct (bt_shell_release_prompt_returns E input s f Hp Hf)
        as (s1 & -> & _). discriminate.
    + unfold bt_shell_release_prompt. cbv [bind get]. rewrite Hp, Hf.
      discriminate.
  - rewrite (bt_shell_release_prompt_idle E input s Hp). discriminate.
Qed.

Lemma never_blocks_rl_handler E input : never_blocks (rl_handler E input).
Proof.
  destruct input as [input|]; cbn [rl_handler].
  - destruct (strlen input =? 0)%nat; [apply never_blocks_ret|].
    apply never_blocks_bind; [apply never_blocks_release|].
    intros released. destruct (released =? 0)%Z; [apply never_blocks_ret|].
    apply never_blocks_bind.
    + intros s s'. rewrite rl_handler_history_run. discriminate.
    + intros _. apply never_blocks_total.
      apply (kept_rl_handler_exec (fun _ _ => True)); auto.
  - apply never_blocks_bind; [apply never_blocks_modify|]. intros _.
    apply never_blocks_bind; [apply never_blocks_modify|]. intros _.
    apply never_blocks_bind; [apply never_blocks_modify|]. intros _.
    apply never_blocks_total.
    apply (kept_g_main_loop_quit (fun _ _ => True)); auto.
Qed.

Lemma never_blocks_dispatch E signal e : never_blocks (dispatch E signal e).
Proof.
  unfold dispatch. apply never_blocks_bind; [intros s s'; discriminate|].
  intros s. destruct e as [k| |si| |a|input].
  - destruct (data_input (data s)); [|apply never_blocks_ret].
    apply never_blocks_bind; [|intros _; apply never_blocks_ret].
    apply never_blocks_bind; [|intros _; apply never_blocks_ret].
    destruct k as [text point rewritten position|line];
      cbn [rl_callback_read_char].
    + apply never_blocks_modify.
    + apply never_blocks_bind; [apply never_blocks_modify|]. intros _.
      apply never_blocks_bind; [apply never_blocks_rl_handler|]. intros _.
      apply never_blocks_bind; [apply never_blocks_modify|]. intros _.
      apply never_blocks_modify.
  - destruct (data_input (data s)); [|apply never_blocks_ret].
    apply never_blocks_bind; [|intros _; apply never_blocks_ret].
    apply never_blocks_total. apply (kept_io_hup (fun _ _ => True)); auto.
  - destruct signal; [|apply never_blocks_ret].
    apply never_blocks_bind; [|intros _; apply never_blocks_ret].
    apply never_blocks_total.
    apply (kept_signal_read (fun _ _ => True)); auto.
  - destruct signal; [|apply never_blocks_ret].
    apply never_blocks_bind; [|intros _; apply never_blocks_ret].
    apply never_blocks_total. apply (kept_io_hup (fun _ _ => True)); auto.
  - apply never_blocks_total.
    apply (steps_weaken api_frame); [auto | apply frame_run_api].
  - apply never_blocks_bind; [apply never_blocks_release|].
    intros _. apply never_blocks_ret.
Qed.

Lemma main_loop_iterate_blocked E signal events : forall s s',
  main_loop s = Some true ->
  main_loop_iterate E signal events s = Blocked s' ->
  main_loop s' = Some true.
Proof.
  induction events as [|e events IH]; intros s s' Hl Hrun.
  - injection Hrun as <-. exact Hl.
  - cbn [main_loop_iterate] in Hrun. unfold bind at 1 in Hrun.
    pose proof (never_blocks_dispatch E signal e s) as Hnb.
    destruct (dispatch E signal e s) as [[] s1| |s1];
      [|discriminate|exfalso; exact (Hnb s1 eq_refl)].
    cbv [bind get] in Hrun.
    destruct (main_loop s1) as [[|]|] eqn:Hl1; try discriminate.
    apply (IH s1 s' Hl1 Hrun).
Qed.

(** X10: the loop ends only when it has been asked to.  If
    [g_main_loop_run] returns for a loop that exists, the loop's running
    flag is clear and [g_main_loop_quit] has been called at least once
    since the loop was entered; if the events run out before that, the
    loop is still running and no stop has been requested.  For a loop
    that does not exist it returns at once, having done nothing. *)
Theorem g_main_loop_run_returns_after_quit (E : environment)
  (signal : option Z) (events : list reactor_event) (s : shell) :
  (main_loop s <> None ->
   match g_main_loop_run E signal events s with
   | Ret _ s' =>
     main_loop s' = Some false /\
     quit_requests (trace s) < quit_requests (trace s')
   | Blocked s' =>
     main_loop s' = Some true /\
     quit_requests (trace s') = quit_requests (trace s)
   | Crash => True
   end) /\
  (main_loop s = None -> g_main_loop_run E signal events s = Ret tt s).
Proof.
  split.
  - intros Hloop. unfold g_main_loop_run. cbv [bind get modify].
    destruct (main_loop s) as [b|] eqn:Hl; [clear Hloop|congruence].
    set (s1 := with_main_loop (Some true) s).
    pose proof (quit_linked_main_loop_iterate E signal events s1) as Hq.
    pose proof (main_loop_iterate_returns E signal events s1) as Hret.
    pose proof (main_loop_iterate_blocked E signal events s1) as Hblk.
    destruct (main_loop_iterate E signal events s1) as [[] s'| |s'];
      [|exact I|].
    + specialize (Hret s' eq_refl).
      destruct Hq as (Hle & Hf & _ & Hsame).
      assert (Hfalse : main_loop s' = Some false).
      { destruct Hf as [Hf|Hf]; [|exact Hf].
        exfalso. apply Hret. rewrite Hf. reflexivity. }
      split; [exact Hfalse|].
      destruct (Nat.eq_dec (quit_requests (trace s'))
                           (quit_requests (trace s1))) as [Heq|Hne].
      * specialize (Hsame Heq). rewrite Hfalse in Hsame. discriminate.
      * change (trace s1) with (trace s) in *. lia.
    + specialize (Hblk s' eq_refl eq_refl). split; [exact Hblk|].
      destruct Hq as (_ & _ & Htrue & _). exact (Htrue Hblk).
  - intros Hl. unfold g_main_loop_run. cbv [bind get]. rewrite Hl. reflexivity.
Qed.
(** ** A line that answers a prompt *)

(** X11: a non-empty line entered while a prompt override is pending is an
    answer and nothing else.  The pending callback is called with the line
    as it is; after that come only the calls the callback makes back into
    the shell.  The line is not recorded in the history and is not run as
    a command, whatever it says: the loop is not asked to stop, and its
    running flag is what it was. *)
Theorem rl_handler_prompt_answer (E : environment) (s : shell)
  (input : string) (f : prompt_func) :
  input <> "" ->
  data_saved_prompt (data s) = true ->
  data_saved_func (data s) = Some f ->
  exists s' called,
    rl_handler E (Some input) s = Ret tt s' /\
    trace s' =
    trace s
    ++ [RlRestorePrompt; CallPrompt f input (data_saved_user_data (data s))]
    ++ called /\
    Forall api_event called /\
    the_history (rl s') = the_history (rl s) /\
    history_offset (rl s') = history_offset (rl s) /\
    quit_requests (trace s') = quit_requests (trace s) /\
    main_loop s' = main_loop s.
Proof.
  intros Hne Hp Hf.
  rewrite (rl_handler_awaiting E input s f Hne Hp Hf).
  destruct (bt_shell_release_prompt_returns E input s f Hp Hf)
    as (s' & Hrel & [(called & Htr & Hcalled) Hh Ho _ Hl _]).
  exists s', called. rewrite (bind_Ret _ _ _ _ _ Hrel).
  split; [reflexivity|].
  assert (Htr' : trace s' =
                 trace s
                 ++ [RlRestorePrompt;
                     CallPrompt f input (data_saved_user_data (data s))]
                 ++ called).
  { rewrite Htr. unfold released. cbn. rewrite <- app_assoc. reflexivity. }
  split; [exact Htr'|]. split; [exact Hcalled|].
  split; [exact Hh|]. split; [exact Ho|]. split; [|exact Hl].
  rewrite Htr', !quit_requests_app, (quit_requests_api called Hcalled).
  unfold quit_requests at 2. cbn. lia.
Qed.
(** ** Prompts asked from inside a prompt callback *)

Lemma for_each_app {A} (f : A -> M unit) l1 l2 s :
  for_each f (l1 ++ l2) s = bind (for_each f l1) (fun _ => for_each f l2) s.
Proof.
  revert s. induction l1 as [|x l1 IH]; intros s; [reflexivity|].
  cbn [app for_each]. rewrite bind_assoc. unfold bind at 1 2.
  destruct (f x s) as [[] s1| |s1]; [apply IH | reflexivity | reflexivity].
Qed.

(** A call back into the shell that is not a prompt request leaves the
    prompt fields alone. *)
Lemma run_api_saved E a s :
  requests_prompt a = false ->
  exists s', run_api E a s = Ret tt s' /\ saved s' = saved s.
Proof.
  intros Ha. destruct a as [text|str0 buf|label msg func ud|menu|text|fd|];
    try discriminate; cbn [run_api].
  - rewrite bt_shell_printf_run. eexists. split; reflexivity.
  - destruct (bt_shell_hexdump_state str0 buf s) as (evs & -> & _).
    eexists. split; reflexivity.
  - unfold bt_shell_set_menu. cbv [bind get].
    destruct (negb (is_null (data_menu (data s))) || is_null menu);
      eexists; split; reflexivity.
  - unfold bt_shell_set_prompt. cbv [bind get].
    destruct (main_loop s); eexists; split; reflexivity.
  - unfold bind. rewrite bt_shell_attach_run.
    destruct (data_input (data s)); eexists; split; reflexivity.
  - unfold bind. rewrite bt_shell_detach_run. eexists. split; reflexivity.
Qed.

(** While an override is pending, no call back into the shell touches the
    prompt fields. *)
Lemma run_api_pending E a s :
  data_saved_prompt (data s) = true ->
  exists s', run_api E a s = Ret tt s' /\ saved s' = saved s.
Proof.
  intros Hp. destruct (requests_prompt a) eqn:Ha;
    [|apply run_api_saved, Ha].
  destruct a; try discriminate. cbn [run_api].
  exists s. split; [|reflexivity].
  unfold bt_shell_prompt_input. cbv [bind get]. rewrite Hp. reflexivity.
Qed.

Lemma script_saved E script : forall s,
  Forall (fun a => requests_prompt a = false) script ->
  exists s', for_each (run_api E) script s = Ret tt s' /\ saved s' = saved s.
Proof.
  induction script as [|a script IH]; intros s Hs.
  - exists s. split; reflexivity.
  - inversion Hs as [|? ? Ha Hs']; subst.
    destruct (run_api_saved E a s Ha) as (s1 & Hrun & H1).
    destruct (IH s1 Hs') as (s2 & Hrest & H2).
    exists s2. cbn [for_each]. rewrite (bind_Ret _ _ _ _ _ Hrun).
    split; [exact Hrest | congruence].
Qed.

Lemma script_pending E script : forall s,
  data_saved_prompt (data s) = true ->
  exists s', for_each (run_api E) script s = Ret tt s' /\ saved s' = saved s.
Proof.
  induction script as [|a script IH]; intros s Hp.
  - exists s. split; reflexivity.
  - destruct (run_api_pending E a s Hp) as (s1 & Hrun & H1).
    assert (Hp1 : data_saved_prompt (data s1) = true).
    { unfold saved in H1. injection H1 as -> _ _. exact Hp. }
    destruct (IH s1 Hp1) as (s2 & Hrest & H2).
    exists s2. cbn [for_each]. rewrite (bind_Ret _ _ _ _ _ Hrun).
    split; [exact Hrest | congruence].
Qed.

(** The release of a pending override whose callback makes a prompt
    request: the first one it makes is the pending one afterwards. *)
Lemma bt_shell_release_prompt_first_request E s input f pre label msg func
  user_data rest :
  data_saved_prompt (data s) = true ->
  data_saved_func (data s) = Some f ->
  env_prompt_body E f input (data_saved_user_data (data s))
                  (released f input s)
  = pre ++ Api_prompt_input label msg func user_data :: rest ->
  Forall (fun a => requests_prompt a = false) pre ->
  exists s',
    bt_shell_release_prompt E input s = Ret 0%Z s' /\
    saved s' = (true, func, user_data).
Proof.
  intros Hp Hf Hscript Hpre.
  rewrite (bt_shell_release_prompt_pending E input s f Hp Hf), Hscript.
  destruct (script_saved E pre (released f input s) Hpre)
    as (s1 & Hrun1 & H1).
  assert (Hidle : data_saved_prompt (data s1) = false).
  { unfold saved in H1. injection H1 as -> _ _. reflexivity. }
  set (s2 := with_data (set_saved_user_data user_data)
               (with_data (set_saved_func func)
                  (with_data (set_saved_prompt true)
                     (with_trace
                        (trace s1 ++
                         [RlSavePrompt;
                          RlMessage (env_COLOR_RED E +:+ "[" +:+ label +:+ "]"
                                       +:+ env_COLOR_OFF E +:+ " " +:+ msg
                                       +:+ " ")]) s1)))).
  assert (Hrun2 : run_api E (Api_prompt_input label msg func user_data) s1
                  = Ret tt s2).
  { cbn [run_api]. unfold bt_shell_prompt_input. cbv [bind get].
    rewrite Hidle. cbv [rl_save_prompt rl_message emit modify].
    unfold s2. destruct s1 as [d l t g r tr]. cbn.
    rewrite <- app_assoc. reflexivity. }
  destruct (script_pending E rest s2 eq_refl) as (s3 & Hrun3 & H3).
  exists s3. split; [|rewrite H3; reflexivity].
  unfold bind at 1. rewrite for_each_app.
  rewrite (bind_Ret _ _ _ _ _ Hrun1). cbn [for_each].
  rewrite (bind_Ret _ _ _ _ _ Hrun2), Hrun3. reflexivity.
Qed.

(** X12: a prompt callback may ask the next question.  The override is
    cleared before the callback runs, so the first prompt request the
    callback makes is accepted: when [bt_shell_release_prompt] returns,
    that request is the pending one, with its callback and its context,
    and no later request of the same callback has replaced it.  If the
    callback makes no request, nothing is pending afterwards. *)
Theorem bt_shell_release_prompt_chained (E : environment) (s : shell)
  (input : string) (f : prompt_func) :
  data_saved_prompt (data s) = true ->
  data_saved_func (data s) = Some f ->
  let script :=
    env_prompt_body E f input (data_saved_user_data (data s))
                    (released f input s) in
  (forall pre label msg func user_data rest,
     script = pre ++ Api_prompt_input label msg func user_data :: rest ->
     Forall (fun a => requests_prompt a = false) pre ->
     exists s',
       bt_shell_release_prompt E input s = Ret 0%Z s' /\
       saved s' = (true, func, user_data)) /\
  (Forall (fun a => requests_prompt a = false) script ->
   exists s',
     bt_shell_release_prompt E input s = Ret 0%Z s' /\
     saved s' = (false, None, 0%Z)).
Proof.
  intros Hp Hf script. split.
  - intros pre label msg func user_data rest Hscript Hpre.
    apply (bt_shell_release_prompt_first_request E s input f pre label msg
             func user_data rest Hp Hf Hscript Hpre).
  - intros Hscript.
    rewrite (bt_shell_release_prompt_pending E input s f Hp Hf).
    fold script.
    destruct (script_saved E script (released f input s) Hscript)
      as (s1 & Hrun1 & H1).
    exists s1. split; [|rewrite H1; reflexivity].
    rewrite (bind_Ret _ _ _ _ _ Hrun1). reflexivity.
Qed.
(** ** Calls through NULL *)

(** X13: [bt_shell_prompt_input] does not look at the callback it is
    given.  While no override is pending, a request with a NULL callback
    is accepted like any other and becomes the pending one; the next
    release, be it by [bt_shell_release_prompt] itself or by the line
    handler for a non-empty line, then calls through the NULL pointer. *)
Theorem bt_shell_prompt_input_null_callback (E : environment) (s : shell)
  (label msg : string) (user_data : Z) (input : string) :
  data_saved_prompt (data s) = false ->
  (exists s',
     bt_shell_prompt_input E label msg None user_data s = Ret tt s' /\
     saved s' = (true, None, user_data)) /\
  bind (bt_shell_prompt_input E label msg None user_data)
       (fun _ => bt_shell_release_prompt E input) s = Crash /\
  (input <> "" ->
   bind (bt_shell_prompt_input E label msg None user_data)
        (fun _ => rl_handler E (Some input)) s = Crash).
Proof.
  intros Hp.
  assert (Hreq : exists s',
            bt_shell_prompt_input E label msg None user_data s = Ret tt s' /\
            saved s' = (true, None, user_data)).
  { unfold bt_shell_prompt_input. cbv [bind get]. rewrite Hp.
    eexists. split; reflexivity. }
  destruct Hreq as (s' & Hrun & Hs).
  assert (Hrel : bt_shell_release_prompt E input s' = Crash).
  { unfold saved in Hs. injection Hs as Hp' Hf' _.
    unfold bt_shell_release_prompt. cbv [bind get]. rewrite Hp', Hf'.
    reflexivity. }
  split; [exists s'; split; assumption|]. split.
  - rewrite (bind_Ret _ _ _ _ _ Hrun). exact Hrel.
  - intros Hne. rewrite (bind_Ret _ _ _ _ _ Hrun). unfold rl_handler.
    rewrite (proj2 (strlen_eqb_0 input) Hne). unfold bind. rewrite Hrel.
    reflexivity.
Qed.

(** ** No call through NULL *)

Lemma prompt_ok_saved s s' : saved s' = saved s -> prompt_ok s -> prompt_ok s'.
Proof.
  unfold saved, prompt_ok. intros H. injection H as -> -> _. auto.
Qed.

Lemma safe_ret {A} (a : A) : safe (ret a).
Proof. intros s H. exact H. Qed.

Lemma safe_bind {A B} (c : M A) (k : A -> M B) :
  safe c -> (forall a, safe (k a)) -> safe (bind c k).
Proof.
  intros Hc Hk s Hs. unfold bind. specialize (Hc s Hs).
  destruct (c s) as [a s1| |s1]; [|exact Hc|exact Hc].
  apply (Hk a s1 Hc).
Qed.

Lemma safe_same {A} (c : M A) :
  (forall s, exists a s', c s = Ret a s' /\ saved s' = saved s) -> safe c.
Proof.
  intros H s Hs. destruct (H s) as (a & s' & -> & Hsaved).
  apply (prompt_ok_saved s s' Hsaved Hs).
Qed.

Lemma safe_get : safe get.
Proof. apply safe_same. intros s. exists s, s. split; reflexivity. Qed.

Lemma safe_modify f : (forall s, saved (f s) = saved s) -> safe (modify f).
Proof. intros H. apply safe_same. intros s. exists tt, (f s). split; [reflexivity | apply H]. Qed.

Lemma safe_emit e : safe (emit e).
Proof. apply safe_modify. reflexivity. Qed.

Lemma safe_for_each {A} (f : A -> M unit) l :
  Forall (fun x => safe (f x)) l -> safe (for_each f l).
Proof.
  induction 1 as [|x l Hx _ IH]; cbn [for_each].
  - apply safe_ret.
  - apply safe_bind; [exact Hx | intros _; exact IH].
Qed.

Lemma safe_g_main_loop_quit : safe g_main_loop_quit.
Proof.
  apply safe_same. intros s. eexists _, _. split; reflexivity.
Qed.

Section Safe.

Variable E : environment.
Hypothesis E_ok : application_ok E.

Lemma safe_run_api a : call_ok a -> safe (run_api E a).
Proof.
  intros Ha. destruct (requests_prompt a) eqn:Hreq.
  - destruct a as [| |label msg [func|] user_data| | | |];
      try discriminate; [|contradiction].
    intros s Hs. cbn [run_api]. unfold bt_shell_prompt_input. cbv [bind get].
    destruct (data_saved_prompt (data s)); [exact Hs|].
    intros _. discriminate.
  - apply safe_same. intros s.
    destruct (run_api_saved E a s Hreq) as (s' & Hrun & Hsaved).
    exists tt, s'. split; assumption.
Qed.

Lemma safe_script script :
  Forall call_ok script -> safe (for_each (run_api E) script).
Proof.
  intros H. apply safe_for_each.
  induction H as [|a script Ha _ IH]; constructor;
    [apply safe_run_api, Ha | exact IH].
Qed.

Lemma safe_call_menu_cb f arg : safe (call_menu_cb E f arg).
Proof.
  destruct f; cbn [call_menu_cb].
  - apply safe_same. intros s. unfold cmd_version.
    rewrite bt_shell_printf_run. eexists _, _. split; reflexivity.
  - apply safe_g_main_loop_quit.
  - apply safe_same. intros s. unfold cmd_help.
    destruct (data_menu (data s)) as [menu|] eqn:Hm.
    + rewrite (shell_print_menu_run E s menu Hm).
      eexists _, _. split; reflexivity.
    + exists tt, s. split; [|reflexivity].
      unfold shell_print_menu. cbv [bind get]. rewrite Hm. reflexivity.
  - apply safe_bind; [apply safe_emit|]. intros _.
    apply safe_bind; [apply safe_get|]. intros s.
    apply safe_script, E_ok.
Qed.

Lemma safe_shell_exec cmd arg : safe (shell_exec E cmd arg).
Proof.
  intros s Hs. destruct (data_menu (data s)) as [menu|] eqn:Hm.
  - destruct cmd as [cmd|].
    + rewrite (shell_exec_resolve E cmd arg s menu Hm).
      destruct (resolve menu cmd) as [f|]; [apply safe_call_menu_cb, Hs|].
      destruct (resolve default_menu cmd) as [f|];
        [apply safe_call_menu_cb, Hs | exact Hs].
    + unfold shell_exec. cbv [bind get]. rewrite Hm. exact Hs.
  - rewrite (shell_exec_no_menu E cmd arg s Hm). exact Hs.
Qed.

Lemma safe_rl_handler_exec input : safe (rl_handler_exec E input).
Proof.
  unfold rl_handler_exec. destruct (strtok_r input " ") as [[cmd|] arg].
  - apply safe_shell_exec.
  - apply safe_ret.
Qed.

Lemma safe_bt_shell_release_prompt input :
  safe (bt_shell_release_prompt E input).
Proof.
  intros s Hs. destruct (data_saved_prompt (data s)) eqn:Hp.
  - destruct (data_saved_func (data s)) as [f|] eqn:Hf;
      [|contradiction (Hs Hp)].
    rewrite (bt_shell_release_prompt_pending E input s f Hp Hf).
    apply (safe_bind (for_each (run_api E) _) (fun _ => ret 0%Z)).
    + apply safe_script, E_ok.
    + intros _. apply safe_ret.
    + intros H. discriminate.
  - rewrite (bt_shell_release_prompt_idle E input s Hp). exact Hs.
Qed.

Lemma safe_rl_handler input : safe (rl_handler E input).
Proof.
  destruct input as [input|]; cbn [rl_handler].
  - destruct (strlen input =? 0)%nat; [apply safe_ret|].
    apply safe_bind; [apply safe_bt_shell_release_prompt|].
    intros released. destruct (released =? 0)%Z; [apply safe_ret|].
    apply safe_bind.
    + apply safe_same. intros s. rewrite rl_handler_history_run.
      eexists _, _. split; reflexivity.
    + intros _. apply safe_rl_handler_exec.
  - apply safe_bind; [apply safe_modify; reflexivity|]. intros _.
    apply safe_bind; [apply safe_emit|]. intros _.
    apply safe_bind; [apply safe_emit|]. intros _.
    apply safe_g_main_loop_quit.
Qed.

Lemma safe_signal_read si : safe (signal_read si).
Proof.
  apply safe_same. intros s. destruct si as [signo|].
  - destruct (signal_read_step s signo) as (s' & Hrun & Hd & _).
    exists false, s'. split; [exact Hrun|]. unfold saved. rewrite Hd.
    reflexivity.
  - exists false, s. split; reflexivity.
Qed.

Lemma safe_io_hup : safe io_hup.
Proof.
  apply safe_bind; [apply safe_g_main_loop_quit | intros _; apply safe_ret].
Qed.

Lemma safe_dispatch signal e : event_ok e -> safe (dispatch E signal e).
Proof.
  intros He. unfold dispatch. apply safe_bind; [apply safe_get|].
  intros s. destruct e as [k| |si| |a|input].
  - destruct (data_input (data s)); [|apply safe_ret].
    apply safe_bind; [|intros _; apply safe_ret].
    apply safe_bind; [|intros _; apply safe_ret].
    destruct k as [text point rewritten position|line];
      cbn [rl_callback_read_char].
    + apply safe_modify. reflexivity.
    + apply safe_bind; [apply safe_modify; reflexivity|]. intros _.
      apply safe_bind; [apply safe_rl_handler|]. intros _.
      apply safe_bind; [apply safe_modify; reflexivity|]. intros _.
      apply safe_modify. reflexivity.
  - destruct (data_input (data s)); [|apply safe_ret].
    apply safe_bind; [apply safe_io_hup | intros _; apply safe_ret].
  - destruct signal; [|apply safe_ret].
    apply safe_bind; [apply safe_signal_read | intros _; apply safe_ret].
  - destruct signal; [|apply safe_ret].
    apply safe_bind; [apply safe_io_hup | intros _; apply safe_ret].
  - apply safe_run_api, He.
  - apply safe_bind; [apply safe_bt_shell_release_prompt|].
    intros _. apply safe_ret.
Qed.

Lemma safe_main_loop_iterate signal events :
  Forall event_ok events -> safe (main_loop_iterate E signal events).
Proof.
  induction 1 as [|e events He _ IH]; cbn [main_loop_iterate].
  - intros s Hs. exact Hs.
  - apply safe_bind; [apply safe_dispatch, He|]. intros _.
    apply safe_bind; [apply safe_get|].
    intros s. destruct (main_loop s) as [[|]|]; try apply safe_ret.
    exact IH.
Qed.

Lemma safe_bt_shell_run mask_rc fd events :
  Forall event_ok events -> safe (bt_shell_run E mask_rc fd events).
Proof.
  intros Hev. unfold bt_shell_run.
  apply safe_bind.
  { apply safe_same. intros s.
    destruct (setup_signalfd_run mask_rc fd s) as (evs & ->).
    eexists _, _. split; reflexivity. }
  intros signal. apply safe_bind.
  { unfold g_main_loop_run. apply safe_bind; [apply safe_get|].
    intros s. destruct (main_loop s); [|apply safe_ret].
    apply safe_bind; [apply safe_modify; reflexivity|]. intros _.
    apply safe_main_loop_iterate, Hev. }
  intros _. apply safe_bind; [apply safe_bt_shell_release_prompt|].
  intros _. apply safe_same. intros s. rewrite bt_shell_run_teardown.
  eexists _, _. split; reflexivity.
Qed.

End Safe.

(** X14: no call through a NULL pointer.  If the application never hands
    [bt_shell_prompt_input] a NULL callback, neither from its menu
    handlers and prompt callbacks nor from its own event sources, and a
    pending override, if there is one at the start, has a callback, then
    nothing [bt_shell_run] does calls through a NULL function pointer:
    the run returns or is left waiting, and a pending override still has
    its callback.  Menu entries without a handler are no exception, they
    are passed over. *)
Theorem bt_shell_run_calls_no_null (E : environment) (mask_rc fd : Z)
  (events : list reactor_event) (s : shell) :
  application_ok E ->
  Forall event_ok events ->
  prompt_ok s ->
  match bt_shell_run E mask_rc fd events s with
  | Ret _ s' => prompt_ok s'
  | Blocked s' => prompt_ok s'
  | Crash => False
  end.
Proof.
  intros HE Hev Hs. exact (safe_bt_shell_run E HE mask_rc fd events Hev s Hs).
Qed.
(** ** What completion leaves alone *)

Lemma completion_frame_refl text s : completion_frame text s s.
Proof.
  split; try reflexivity.
  exists []. split; [symmetry; apply app_nil_r | constructor].
Qed.

Lemma completion_frame_trans text s1 s2 s3 :
  completion_frame text s1 s2 -> completion_frame text s2 s3 ->
  completion_frame text s1 s3.
Proof.
  intros [D1 L1 T1 B1 P1 S1 H1 O1 (a1 & Tr1 & F1)]
         [D2 L2 T2 B2 P2 S2 H2 O2 (a2 & Tr2 & F2)].
  split; try congruence.
  exists (a1 ++ a2). split.
  - rewrite Tr2, Tr1. symmetry. apply app_assoc.
  - apply Forall_app. split; assumption.
Qed.

Lemma completion_frame_asked text g hook s :
  completion_frame text s (asked g text hook s).
Proof.
  split; try reflexivity.
  exists [CallGen g text]. split; [reflexivity|].
  constructor; [exists g; reflexivity | constructor].
Qed.

Lemma completion_frame_rl text f s :
  (forall r, rl_line_buffer (f r) = rl_line_buffer r /\
             rl_point (f r) = rl_point r /\
             rl_state_done (f r) = rl_state_done r /\
             the_history (f r) = the_history r /\
             history_offset (f r) = history_offset r) ->
  completion_frame text s (with_rl f s).
Proof.
  intros H. destruct (H (rl s)) as (H1 & H2 & H3 & H4 & H5).
  split; try reflexivity; try assumption.
  exists []. split; [symmetry; apply app_nil_r | constructor].
Qed.

Lemma completion_frame_menu_completion E table text token s :
  data_menu (data s) <> None ->
  exists r s',
    menu_completion E table text token s = Ret r s' /\
    completion_frame text s s'.
Proof.
  intros Hm. destruct (data_menu (data s)) as [menu|] eqn:Hmenu;
    [clear Hm|congruence].
  rewrite (menu_completion_run E table text token s menu Hmenu).
  destruct (lookup_completer menu token) as [entry|] eqn:Hl.
  - destruct (lookup_completer_declares menu token entry Hl)
      as (_ & _ & g & Hg).
    rewrite (delegate_run E text entry g s Hg).
    eexists _, _. split; [reflexivity | apply completion_frame_asked].
  - exists None, s. split; [reflexivity | apply completion_frame_refl].
Qed.

(** X15: completion always returns, and keeps to itself.  Whatever the
    state and wherever the word starts, [shell_completion] returns; the
    statics of [data], the loop, the line being edited, the cursor and the
    history are what they were, and the only thing recorded is which
    completion generators of the application were asked for the text.  It
    is the test for an attached table at its start that makes it so:
    on its own, [cmd_generator] runs into the NULL table when none is
    attached and no built-in command starts with the text. *)
Theorem shell_completion_returns (E : environment) (s : shell)
  (text : string) (start end_ : Z) :
  (exists matches s',
     shell_completion E text start end_ s = Ret matches s' /\
     completion_frame text s s') /\
  (data_menu (data s) = None ->
   commands_with_prefix text default_menu = [] ->
   cmd_generator text 0 s = Crash).
Proof.
  split.
  - unfold shell_completion. cbv [bind get].
    destruct (data_menu (data s)) as [menu|] eqn:Hm.
    2:{ exists None, s. split; [reflexivity | apply completion_frame_refl]. }
    assert (Hover : forall s0, completion_frame text s s0 ->
              completion_frame text s (with_rl (set_attempted_over 1) s0)).
    { intros s0 H0. apply (completion_frame_trans text s s0 _ H0).
      apply completion_frame_rl. intros r. repeat split. }
    destruct (0 <? start)%Z.
    + destruct (completion_frame_menu_completion E default_menu text
                  (strndup (rl_line_buffer (rl s)) (Z.to_nat (start - 1))) s)
        as (r1 & s1 & Hrun1 & Hf1); [congruence|].
      rewrite Hrun1. destruct r1 as [found|].
      * exists (Some found), s1. split; [reflexivity | exact Hf1].
      * destruct (completion_frame_menu_completion E menu text
                    (strndup (rl_line_buffer (rl s)) (Z.to_nat (start - 1))) s1)
          as (r2 & s2 & Hrun2 & Hf2).
        { rewrite (completion_data text s s1 Hf1), Hm. discriminate. }
        rewrite Hrun2.
        pose proof (completion_frame_trans text s s1 s2 Hf1 Hf2) as Hf.
        destruct r2 as [found|].
        -- exists (Some found), s2. split; [reflexivity | exact Hf].
        -- eexists _, _. split; [reflexivity | apply Hover, Hf].
    + cbv [modify rl_completion_matches bind get].
      cbn [data with_rl data_menu]. rewrite Hm. cbn [default].
      rewrite (collect_commands_first text menu
                 (length default_menu + length menu)); [|exact Hm|lia|lia].
      set (s1 := with_generator (generator_done text menu)
                   (with_rl (set_hook None) s)).
      assert (Hf1 : completion_frame text s s1).
      { split; try reflexivity.
        exists []. split; [symmetry; apply app_nil_r | constructor]. }
      destruct (command_candidates text menu) as [|c l]; cbv [ret].
      * eexists _, _. split; [reflexivity | apply Hover, Hf1].
      * eexists _, _. split; [reflexivity | exact Hf1].
  - intros Hm Hnone. unfold cmd_generator. cbn [Z.eqb negb].
    set (s1 := with_generator (mkGen (Some default_menu) 0 (strlen text)) s).
    unfold bind at 1. change (modify _ s) with (Ret tt s1). cbv beta iota.
    unfold bind at 1.
    rewrite (generator_loop_run text default_menu 0 s1 eq_refl).
    rewrite drop_0, Hnone. cbn [head]. cbv [bind get modify].
    unfold generator_loop. cbv [bind get]. cbn. rewrite Hm. reflexivity.
Qed.
(** ** Reading a hex dump back *)

Lemma byte_of_digits_cell b :
  byte_of_digits (fst (fst (cell_of b))) (snd (fst (cell_of b))) = Some b.
Proof. destruct b; reflexivity. Qed.

Lemma list_ascii_of_string_app a b :
  list_ascii_of_string (a +:+ b)
  = list_ascii_of_string a ++ list_ascii_of_string b.
Proof.
  induction a as [|c a IH]; [reflexivity|].
  change (c :: list_ascii_of_string (a +:+ b)
          = c :: (list_ascii_of_string a ++ list_ascii_of_string b)).
  rewrite IH. reflexivity.
Qed.

Lemma decode_cells_cells chunk : forall fuel rest,
  length chunk <= fuel ->
  decode_cells (fuel - length chunk) rest = [] ->
  decode_cells fuel
    (flat_map (fun c : cell => [" "%char; fst (fst c); snd (fst c)])
              (map cell_of chunk) ++ rest) = chunk.
Proof.
  induction chunk as [|b chunk IH]; intros fuel rest Hlen Hstop.
  - cbn [length] in Hstop. rewrite Nat.sub_0_r in Hstop. exact Hstop.
  - destruct fuel as [|fuel]; [cbn [length] in Hlen; lia|].
    cbn [map flat_map app decode_cells].
    rewrite byte_of_digits_cell. f_equal.
    apply IH; [cbn [length] in Hlen; lia | exact Hstop].
Qed.

(** A printed row read back gives the bytes of the row. *)
Lemma decode_row_string chunk :
  length chunk <= 16 -> decode_row (row_string chunk) = chunk.
Proof.
  intros Hlen. unfold decode_row, row_string, row_chars.
  rewrite list_ascii_of_string_app, list_ascii_of_string_of_list_ascii.
  cbn [app tail]. rewrite <- app_assoc.
  apply decode_cells_cells; [exact Hlen|].
  rewrite length_map.
  destruct (16 - length chunk) as [|n] eqn:Hn; [reflexivity|].
  cbn [decode_cells]. replace (3 * S n) with (S (S (S (3 * n)))) by lia.
  reflexivity.
Qed.

Lemma rows_of_short fuel : forall buf,
  Forall (fun chunk : list Byte.byte => length chunk <= 16) (rows_of fuel buf).
Proof.
  induction fuel as [|fuel IH]; intros buf; [constructor|].
  destruct buf as [|b buf]; [constructor|].
  cbn [rows_of]. constructor; [|apply IH].
  rewrite length_take. lia.
Qed.

Lemma concat_rows_of fuel : forall buf,
  length buf <= fuel -> concat (rows_of fuel buf) = buf.
Proof.
  induction fuel as [|fuel IH]; intros buf Hlen.
  - destruct buf; [reflexivity | cbn [length] in Hlen; lia].
  - destruct buf as [|b buf]; [reflexivity|].
    cbn [rows_of concat]. rewrite IH.
    + apply take_drop.
    + rewrite length_drop. cbn [length] in *. lia.
Qed.

Lemma decode_rows rows :
  Forall (fun chunk : list Byte.byte => length chunk <= 16) rows ->
  flat_map decode_row (map row_string rows) = concat rows.
Proof.
  induction 1 as [|chunk rows Hc _ IH]; [reflexivity|].
  cbn [map flat_map concat]. rewrite (decode_row_string chunk Hc), IH.
  reflexivity.
Qed.

(** What [bt_shell_hexdump] prints, read back. *)
Lemma bt_shell_hexdump_decode str0 buf s :
  length str0 = 68 ->
  exists s' evs,
    bt_shell_hexdump str0 buf s = Ret tt s' /\
    trace s' = trace s ++ evs /\
    flat_map decode_row (printed evs) = buf.
Proof.
  intros Hstr.
  destruct (bt_shell_hexdump_printed str0 buf s Hstr)
    as (s' & evs & Hrun & Htr & Hpr).
  exists s', evs. split; [exact Hrun|]. split; [exact Htr|].
  rewrite Hpr, decode_rows by apply rows_of_short.
  apply concat_rows_of. lia.
Qed.

(** X16: the dump loses nothing.  The hex columns of the rows
    [bt_shell_hexdump] prints, read back two digits at a time, are the
    bytes of the buffer, all of them and in order; so two buffers for
    which the same rows are printed are the same buffer. *)
Theorem bt_shell_hexdump_lossless (str0 : list ascii) (buf : list Byte.byte)
  (s : shell) :
  length str0 = 68 ->
  exists s' evs,
    bt_shell_hexdump str0 buf s = Ret tt s' /\
    trace s' = trace s ++ evs /\
    flat_map decode_row (printed evs) = buf /\
    forall str0' buf' s0 s0' evs',
      length str0' = 68 ->
      bt_shell_hexdump str0' buf' s0 = Ret tt s0' ->
      trace s0' = trace s0 ++ evs' ->
      printed evs' = printed evs ->
      buf' = buf.
Proof.
  intros Hstr.
  destruct (bt_shell_hexdump_decode str0 buf s Hstr)
    as (s' & evs & Hrun & Htr & Hdec).
  exists s', evs. split; [exact Hrun|]. split; [exact Htr|].
  split; [exact Hdec|].
  intros str0' buf' s0 s0' evs' Hstr' Hrun' Htr' Hsame.
  destruct (bt_shell_hexdump_decode str0' buf' s0 Hstr')
    as (s1 & evs1 & Hrun1 & Htr1 & Hdec1).
  rewrite Hrun1 in Hrun'. injection Hrun' as <-.
  rewrite Htr1 in Htr'. apply app_inv_head in Htr'. subst evs1.
  rewrite <- Hdec, <- Hdec1, Hsame. reflexivity.
Qed.
(** ** The line [quit] *)

Lemma rl_handler_exec_word E cmd s :
  cmd = "quit" \/ cmd = "exit" ->
  rl_handler_exec E cmd s = shell_exec E (Some cmd) (Some "") s.
Proof. intros [-> | ->]; reflexivity. Qed.

(** A complete, non-empty line read while the input is attached and no
    override is pending. *)
Lemma dispatch_line E signal line s io :
  line <> "" ->
  data_input (data s) = Some io ->
  data_saved_prompt (data s) = false ->
  dispatch E signal (Ev_input_read (Rl_line (Some line))) s =
  bind (rl_handler_exec E line)
       (fun _ =>
          modify (with_rl (fun r => set_state_done false (set_line "" 0 r))) ;;
          using_history)
       (with_rl (record_line line) (with_rl (set_state_done true) s)).
Proof.
  intros Hne Hi Hp. unfold dispatch. cbv [bind get]. rewrite Hi.
  unfold input_read. cbn [rl_callback_read_char]. cbv [bind modify].
  rewrite (rl_handler_idle E line (with_rl (set_state_done true) s) Hne Hp).
  destruct (rl_handler_exec E line _) as [[] s1| |s1]; reflexivity.
Qed.

(** X17: the line [quit], or [exit], read while the loop runs, the input
    is attached and no override is pending.  With a table attached in
    which no entry with a handler has that name, the loop is asked to
    stop, once, and [g_main_loop_run] returns without handling what comes
    later.  With no table attached the line is not run: it goes through
    the history step like any other line, but nothing is printed, no stop
    is requested, and the loop keeps running and goes on with what comes
    next. *)
Theorem g_main_loop_run_quit_line (E : environment) (signal : option Z)
  (rest : list reactor_event) (s : shell) (line : string) (io : Z) :
  line = "quit" \/ line = "exit" ->
  main_loop s <> None ->
  data_input (data s) = Some io ->
  data_saved_prompt (data s) = false ->
  (forall menu,
     data_menu (data s) = Some menu ->
     Forall (passed_over line) menu ->
     exists s',
       g_main_loop_run E signal (Ev_input_read (Rl_line (Some line)) :: rest) s
       = Ret tt s' /\
       main_loop s' = Some false /\
       trace s' = trace s ++ [MainLoopQuit]) /\
  (data_menu (data s) = None ->
   exists s1,
     g_main_loop_run E signal (Ev_input_read (Rl_line (Some line)) :: rest) s
     = main_loop_iterate E signal rest s1 /\
     main_loop s1 = Some true /\
     trace s1 = trace s /\
     data s1 = data s).
Proof.
  intros Hline Hloop Hi Hp.
  assert (Hne : line <> "") by (destruct Hline as [-> | ->]; discriminate).
  destruct (main_loop s) as [b|] eqn:Hl; [clear Hloop|congruence].
  set (s0 := with_main_loop (Some true) s).
  assert (Hrun : forall events,
            g_main_loop_run E signal events s = main_loop_iterate E signal events s0).
  { intros events. unfold g_main_loop_run. cbv [bind get]. rewrite Hl.
    reflexivity. }
  pose proof (dispatch_line E signal line s0 io Hne Hi Hp) as Hd.
  set (s1 := with_rl (record_line line) (with_rl (set_state_done true) s0))
    in Hd.
  unfold bind at 1 in Hd. rewrite (rl_handler_exec_word E line s1 Hline) in Hd.
  split.
  - intros menu Hm Hover.
    rewrite (shell_exec_resolve E line (Some "") s1 menu Hm),
      (resolve_none line menu Hover) in Hd.
    assert (Hq : resolve default_menu line = Some CbQuit)
      by (destruct Hline as [-> | ->]; reflexivity).
    rewrite Hq in Hd. cbn [call_menu_cb] in Hd.
    eexists. rewrite Hrun. cbn [main_loop_iterate].
    rewrite (bind_Ret _ _ _ _ _ Hd). split; [reflexivity|].
    split; reflexivity.
  - intros Hm.
    rewrite (shell_exec_no_menu E (Some line) (Some "") s1 Hm) in Hd.
    eexists. rewrite Hrun. cbn [main_loop_iterate].
    rewrite (bind_Ret _ _ _ _ _ Hd). split; [reflexivity|].
    repeat split.
Qed.
(** ** What the public functions leave alone *)

(** Readline's state and the statics of [cmd_generator] across a call
    back into the shell. *)
Lemma run_api_rl E a s :
  exists s', run_api E a s = Ret tt s' /\
             rl s' = rl s /\ generator s' = generator s.
Proof.
  destruct a as [text|str0 buf|label msg func ud|menu|text|fd|];
    cbn [run_api].
  - rewrite bt_shell_printf_run. eexists. repeat split.
  - destruct (bt_shell_hexdump_state str0 buf s) as (evs & -> & _).
    eexists. repeat split.
  - unfold bt_shell_prompt_input. cbv [bind get].
    destruct (data_saved_prompt (data s)); eexists; repeat split.
  - unfold bt_shell_set_menu. cbv [bind get].
    destruct (negb (is_null (data_menu (data s))) || is_null menu);
      eexists; repeat split.
  - unfold bt_shell_set_prompt. cbv [bind get].
    destruct (main_loop s); eexists; repeat split.
  - unfold bind. rewrite bt_shell_attach_run.
    destruct (data_input (data s)); eexists; repeat split.
  - unfold bind. rewrite bt_shell_detach_run. eexists. repeat split.
Qed.

(** X18: what the public functions leave alone.  A call of
    [bt_shell_printf], [bt_shell_hexdump], [bt_shell_prompt_input],
    [bt_shell_set_menu], [bt_shell_set_prompt], [bt_shell_attach] or
    [bt_shell_detach] returns.  It writes to the terminal, talks to
    Readline's display and registers or unregisters the input, and does
    nothing else that can be observed: it does not ask the loop to stop,
    calls no handler or callback of the application, and leaves the
    line being edited, the cursor, the history, the loop's running flag,
    the [terminated] flag and an attached table as they were. *)
Theorem public_functions_frame (E : environment) (a : api_call) (s : shell) :
  exists s' evs,
    run_api E a s = Ret tt s' /\
    trace s' = trace s ++ evs /\
    Forall api_event evs /\
    quit_requests evs = 0 /\
    prompt_calls evs = [] /\
    rl s' = rl s /\
    main_loop s' = main_loop s /\
    terminated s' = terminated s /\
    (forall table, data_menu (data s) = Some table ->
                   data_menu (data s') = Some table).
Proof.
  destruct (frame_run_api E a s)
    as ([] & s' & Hrun & [(evs & Htr & Hev) _ _ Ht Hl Hm]).
  destruct (run_api_rl E a s) as (s1 & Hrun1 & Hrl & _).
  rewrite Hrun in Hrun1. injection Hrun1 as <-.
  exists s', evs. split; [exact Hrun|]. split; [exact Htr|].
  split; [exact Hev|]. split; [apply quit_requests_api, Hev|].
  split; [apply prompt_calls_api, Hev|]. repeat split; assumption.
Qed.
(** ** Registrations with the reactor *)

Lemma registrations_app t1 t2 :
  registrations (t1 ++ t2) = registrations t1 + registrations t2.
Proof. unfold registrations. rewrite List.filter_app, length_app. reflexivity. Qed.

Lemma unregistrations_app t1 t2 :
  unregistrations (t1 ++ t2) = unregistrations t1 + unregistrations t2.
Proof.
  unfold unregistrations. rewrite List.filter_app, length_app. reflexivity.
Qed.

Lemma plain_registrations evs :
  Forall (fun e => plain e = true) evs ->
  registrations evs = 0 /\ unregistrations evs = 0.
Proof.
  induction 1 as [|e evs He _ [IH1 IH2]]; [split; reflexivity|].
  unfold plain in He. apply andb_true_iff in He as [He Hd].
  apply andb_true_iff in He as [_ Hn].
  unfold registrations, unregistrations in *. cbn [List.filter].
  destruct (is_io_new e), (is_io_destroy e); try discriminate.
  split; assumption.
Qed.

Lemma io_balanced_refl s : io_balanced s s.
Proof. unfold io_balanced. lia. Qed.

Lemma io_balanced_trans s1 s2 s3 :
  io_balanced s1 s2 -> io_balanced s2 s3 -> io_balanced s1 s3.
Proof. unfold io_balanced. lia. Qed.

(** A step that records events which are no registrations, and keeps the
    input. *)
Lemma io_balanced_plain s s' evs :
  trace s' = trace s ++ evs ->
  Forall (fun e => plain e = true) evs ->
  data_input (data s') = data_input (data s) ->
  io_balanced s s'.
Proof.
  intros Htr Hev Hi. unfold io_balanced, input_held.
  destruct (plain_registrations evs Hev) as [H1 H2].
  rewrite Htr, Hi, registrations_app, unregistrations_app, H1, H2. lia.
Qed.

Lemma io_balanced_same s s' :
  trace s' = trace s -> data_input (data s') = data_input (data s) ->
  io_balanced s s'.
Proof.
  intros Htr Hi. apply (io_balanced_plain s s' []); [|constructor|exact Hi].
  rewrite app_nil_r. exact Htr.
Qed.

Lemma io_balanced_run_api E a : steps io_balanced (run_api E a).
Proof.
  intros s. destruct a as [text|str0 buf|label msg func ud|menu|text|fd|];
    cbn [run_api].
  - destruct (bt_shell_printf_plain text s) as (evs & -> & Hev).
    eexists _, _. split; [reflexivity|].
    apply (io_balanced_plain _ _ evs); [reflexivity | exact Hev | reflexivity].
  - destruct (bt_shell_hexdump_state str0 buf s) as (evs & -> & Hev).
    eexists _, _. split; [reflexivity|].
    apply (io_balanced_plain _ _ evs); [reflexivity | exact Hev | reflexivity].
  - unfold bt_shell_prompt_input. cbv [bind get].
    destruct (data_saved_prompt (data s)).
    + eexists _, _. split; [reflexivity | apply io_balanced_refl].
    + eexists _, _. split; [reflexivity|].
      apply (io_balanced_plain _ _
               [RlSavePrompt;
                RlMessage (env_COLOR_RED E +:+ "[" +:+ label +:+ "]"
                             +:+ env_COLOR_OFF E +:+ " " +:+ msg +:+ " ")]);
        [|repeat constructor|reflexivity].
      cbn. rewrite <- app_assoc. reflexivity.
  - unfold bt_shell_set_menu. cbv [bind get].
    destruct (negb (is_null (data_menu (data s))) || is_null menu);
      eexists _, _; (split; [reflexivity|]);
      apply io_balanced_same; reflexivity.
  - unfold bt_shell_set_prompt. cbv [bind get].
    destruct (main_loop s).
    + eexists _, _. split; [reflexivity|].
      apply (io_balanced_plain _ _
               [RlSetPrompt text; Printf cr; RlOnNewLine; RlRedisplay]);
        [|repeat constructor|reflexivity].
      cbn. rewrite <- !app_assoc. reflexivity.
    + eexists _, _. split; [reflexivity | apply io_balanced_refl].
  - unfold bind. rewrite bt_shell_attach_run.
    destruct (data_input (data s)) as [io|] eqn:Hi.
    + eexists _, _. split; [reflexivity | apply io_balanced_refl].
    + eexists _, _. split; [reflexivity|].
      unfold io_balanced, input_held. cbn -[registrations unregistrations].
      rewrite Hi, registrations_app, unregistrations_app. cbn. lia.
  - unfold bind. rewrite bt_shell_detach_run.
    eexists _, _. split; [reflexivity|].
    unfold io_balanced, input_held, detach_events.
    cbn -[registrations unregistrations].
    destruct (data_input (data s));
      rewrite registrations_app, unregistrations_app; cbn; lia.
Qed.

Lemma io_balanced_emit e s :
  plain e = true -> io_balanced s (with_trace (trace s ++ [e]) s).
Proof.
  intros He. apply (io_balanced_plain _ _ [e]);
    [reflexivity | repeat constructor; exact He | reflexivity].
Qed.

Lemma io_balanced_main_loop_iterate E signal events :
  psteps io_balanced (main_loop_iterate E signal events).
Proof.
  apply (traced_main_loop_iterate io_balanced io_balanced_refl
           io_balanced_trans).
  - intros e s He. apply io_balanced_emit, He.
  - intros s. unfold io_balanced, input_held.
    cbn -[registrations unregistrations].
    rewrite registrations_app, unregistrations_app. cbn. lia.
  - intros f s Hf. apply io_balanced_same; [reflexivity|].
    cbn. apply (proj2 (Hf (data s))).
  - intros f s _. apply io_balanced_same; reflexivity.
  - intros input s. apply io_balanced_same; reflexivity.
  - intros s. apply io_balanced_same; reflexivity.
  - apply io_balanced_run_api.
Qed.

Lemma io_balanced_release E input :
  psteps io_balanced (bt_shell_release_prompt E input).
Proof.
  apply (traced_bt_shell_release_prompt io_balanced io_balanced_refl
           io_balanced_trans).
  - apply io_balanced_emit.
  - intros f s Hf. apply io_balanced_same; [reflexivity|].
    cbn. apply (proj2 (Hf (data s))).
  - apply io_balanced_run_api.
Qed.

(** X19: a run leaves no descriptor registered.  Whatever is attached and
    detached while the loop runs, by the application's handlers and
    callbacks or from its own event sources, when [bt_shell_run] returns
    no input is attached, and the registrations made since the start are
    matched by unregistrations, but for the input that was attached at
    the start and is unregistered too.  From a start at which the input
    was the only registration outstanding, if any, every descriptor
    registered has been unregistered at the return, the signal
    descriptor of the run among them. *)
Theorem bt_shell_run_unregisters (E : environment) (mask_rc fd : Z)
  (events : list reactor_event) (s s' : shell) :
  bt_shell_run E mask_rc fd events s = Ret tt s' ->
  input_held s' = 0 /\
  registrations (trace s') + unregistrations (trace s) + input_held s =
  registrations (trace s) + unregistrations (trace s') /\
  (registrations (trace s) = unregistrations (trace s) + input_held s ->
   registrations (trace s') = unregistrations (trace s')).
Proof.
  unfold bt_shell_run. intros Hrun.
  apply bind_Ret_inv in Hrun as (signal & s1 & Hsetup & Hrun).
  apply bind_Ret_inv in Hrun as ([] & s2 & Hloop & Hrun).
  apply bind_Ret_inv in Hrun as (r & s3 & Hrel & Hrun).
  rewrite bt_shell_run_teardown in Hrun. injection Hrun as <-.
  assert (H1 : registrations (trace s1) + unregistrations (trace s)
               = registrations (trace s) + unregistrations (trace s1)
                 + (if is_null signal then 0 else 1) /\
               data_input (data s1) = data_input (data s)).
  { unfold setup_signalfd, io_new in Hsetup. cbv [bind emit modify ret] in Hsetup.
    destruct (mask_rc <? 0)%Z; [|destruct (fd <? 0)%Z];
      injection Hsetup as <- <-; cbn -[registrations unregistrations];
      rewrite registrations_app, unregistrations_app; cbn; split;
      (lia || reflexivity). }
  destruct H1 as [H1 Hi1].
  assert (H2 : io_balanced s1 s2).
  { unfold g_main_loop_run in Hloop. cbv [bind get modify] in Hloop.
    destruct (main_loop s1).
    - pose proof (io_balanced_main_loop_iterate E signal events
                    (with_main_loop (Some true) s1)) as H.
      rewrite Hloop in H. exact H.
    - injection Hloop as <-. apply io_balanced_refl. }
  pose proof (io_balanced_release E "" s2) as H3. rewrite Hrel in H3.
  assert (Hbal :
    registrations
      (trace s3 ++ detach_events s3 ++ teardown_events signal)
    + unregistrations (trace s) + input_held s
    = registrations (trace s)
      + unregistrations
          (trace s3 ++ detach_events s3 ++ teardown_events signal)).
  { unfold io_balanced, input_held in *. rewrite Hi1 in H2.
    rewrite !registrations_app, !unregistrations_app.
    unfold detach_events, teardown_events.
    destruct signal as [sfd|], (data_input (data s3)) as [io|];
      cbn in *; lia. }
  split; [reflexivity|]. split; [exact Hbal|].
  cbn [trace with_main_loop with_trace]. lia.
Qed.
(** ** The flag of [signal_read] *)

Lemma terminated_kept_refl s : terminated_kept s s.
Proof. intros H. exact H. Qed.

Lemma terminated_kept_trans s1 s2 s3 :
  terminated_kept s1 s2 -> terminated_kept s2 s3 -> terminated_kept s1 s3.
Proof. intros H1 H2 H. apply H2, H1, H. Qed.

Lemma terminated_kept_same s s' :
  terminated s' = terminated s -> terminated_kept s s'.
Proof. intros H Ht. rewrite H. exact Ht. Qed.

Lemma terminated_kept_run_api E a : steps terminated_kept (run_api E a).
Proof.
  apply (steps_weaken api_frame); [|apply frame_run_api].
  intros s s' [_ _ _ H _ _]. apply terminated_kept_same, H.
Qed.

Lemma terminated_kept_main_loop_iterate E signal events :
  psteps terminated_kept (main_loop_iterate E signal events).
Proof.
  apply (traced_main_loop_iterate terminated_kept terminated_kept_refl
           terminated_kept_trans).
  - intros e s _. apply terminated_kept_same. reflexivity.
  - intros s. apply terminated_kept_same. reflexivity.
  - intros f s _. apply terminated_kept_same. reflexivity.
  - intros f s _. apply terminated_kept_same. reflexivity.
  - intros input s. apply terminated_kept_same. reflexivity.
  - intros s _. reflexivity.
  - apply terminated_kept_run_api.
Qed.

Lemma terminated_kept_release E input :
  psteps terminated_kept (bt_shell_release_prompt E input).
Proof.
  apply (traced_bt_shell_release_prompt terminated_kept terminated_kept_refl
           terminated_kept_trans).
  - intros e s _. apply terminated_kept_same. reflexivity.
  - intros f s _. apply terminated_kept_same. reflexivity.
  - apply terminated_kept_run_api.
Qed.

Lemma terminated_kept_bt_shell_run E mask_rc fd events :
  psteps terminated_kept (bt_shell_run E mask_rc fd events).
Proof.
  unfold bt_shell_run.
  apply (psteps_bind terminated_kept terminated_kept_trans).
  { intros s0. destruct (setup_signalfd_run mask_rc fd s0) as (evs & ->).
    apply terminated_kept_same. reflexivity. }
  intros signal. apply (psteps_bind terminated_kept terminated_kept_trans).
  { unfold g_main_loop_run.
    apply (psteps_bind terminated_kept terminated_kept_trans);
      [apply steps_psteps, steps_get, terminated_kept_refl|].
    intros s0. destruct (main_loop s0);
      [|apply psteps_ret, terminated_kept_refl].
    apply (psteps_bind terminated_kept terminated_kept_trans).
    - apply steps_psteps, steps_modify. intros s1.
      apply terminated_kept_same. reflexivity.
    - intros _. apply terminated_kept_main_loop_iterate. }
  intros _. apply (psteps_bind terminated_kept terminated_kept_trans);
    [apply terminated_kept_release|].
  intros _ s3. rewrite bt_shell_run_teardown.
  apply terminated_kept_same. reflexivity.
Qed.

(** X20: the flag of [signal_read] is never cleared.  Once a signal has
    taken the SIGTERM case, the flag stays set through everything a run
    does and is still set when [bt_shell_run] returns; from then on a
    SIGTERM read by [signal_read], in this run or in a later one, changes
    nothing and asks no loop to stop, and neither does a SIGINT read
    while no input is attached. *)
Theorem terminated_stays_set (E : environment) (mask_rc fd : Z)
  (events : list reactor_event) (s : shell) :
  terminated s = true ->
  match bt_shell_run E mask_rc fd events s with
  | Ret _ s' =>
    terminated s' = true /\
    signal_read (Some SIGTERM) s' = Ret false s' /\
    signal_read (Some SIGINT) s' = Ret false s'
  | Blocked s' =>
    terminated s' = true /\
    signal_read (Some SIGTERM) s' = Ret false s'
  | Crash => True
  end.
Proof.
  intros Ht.
  pose proof (terminated_kept_bt_shell_run E mask_rc fd events s) as H.
  destruct (bt_shell_run E mask_rc fd events s) as [[] s'| |s'] eqn:Hrun;
    [|exact I|].
  - specialize (H Ht). split; [exact H|].
    split; [apply signal_read_sigterm_again, H|].
    pose proof (bt_shell_run_input_detached E mask_rc fd events s s' Hrun)
      as Hi.
    rewrite (signal_read_sigint_unbound s' Hi).
    apply signal_read_sigterm_again, H.
  - specialize (H Ht). split; [exact H|].
    apply signal_read_sigterm_again, H.
Qed.
(** ** A prompt asked for at shutdown *)

(** C10, as the code has it: when the loop has exited with an override
    pending, [bt_shell_run] returns; it releases the override with the
    empty string first, which calls the pending callback with the empty
    string and the saved context; whatever that callback calls back comes
    next; only then is the input detached, followed by the rest of the
    teardown.  Between the end of the loop and the return, this is the
    only call through a prompt callback: what is pending after the release
    is pending still when [bt_shell_run] returns, and that is the first
    override the callback called has asked for in turn, if it asks for
    one.  The callback of that override is not called. *)
Theorem bt_shell_run_releases_prompt (E : environment) (mask_rc fd : Z)
  (events : list reactor_event) (s s1 s2 : shell) (signal : option Z)
  (f : prompt_func) :
  setup_signalfd mask_rc fd s = Ret signal s1 ->
  g_main_loop_run E signal events s1 = Ret tt s2 ->
  data_saved_prompt (data s2) = true ->
  data_saved_func (data s2) = Some f ->
  exists s3 s4 called,
    bt_shell_release_prompt E "" s2 = Ret 0%Z s3 /\
    bt_shell_run E mask_rc fd events s = Ret tt s4 /\
    trace s3 =
    trace s2
    ++ [RlRestorePrompt; CallPrompt f "" (data_saved_user_data (data s2))]
    ++ called /\
    Forall api_event called /\
    trace s4 = trace s3 ++ detach_events s3 ++ teardown_events signal /\
    prompt_calls (trace s4) =
    prompt_calls (trace s2) ++ [(f, "", data_saved_user_data (data s2))] /\
    data_input (data s4) = None /\
    saved s4 = saved s3 /\
    (forall pre label msg func user_data rest,
       env_prompt_body E f "" (data_saved_user_data (data s2))
                       (released f "" s2)
       = pre ++ Api_prompt_input label msg func user_data :: rest ->
       Forall (fun a => requests_prompt a = false) pre ->
       saved s4 = (true, func, user_data)).
Proof.
  intros Hsetup Hloop Hp Hf.
  destruct (bt_shell_release_prompt_returns E "" s2 f Hp Hf)
    as (s3 & Hrel & [(called & Htr & Hcalled) _ _ _ _ _]).
  assert (Htr3 : trace s3 =
                 trace s2
                 ++ [RlRestorePrompt;
                     CallPrompt f "" (data_saved_user_data (data s2))]
                 ++ called).
  { rewrite Htr. unfold released. cbn. rewrite <- app_assoc. reflexivity. }
  assert (Hrun : bt_shell_run E mask_rc fd events s =
                 Ret tt (with_main_loop None
                           (with_trace
                              (trace s3 ++ detach_events s3
                                 ++ teardown_events signal)
                              (with_data (set_input None) s3)))).
  { unfold bt_shell_run.
    rewrite (bind_Ret _ _ _ _ _ Hsetup), (bind_Ret _ _ _ _ _ Hloop).
    rewrite (bind_Ret _ _ _ _ _ Hrel).
    rewrite (bind_Ret _ _ _ _ _ (bt_shell_detach_run s3)).
    unfold teardown_events, io_destroy, rl_cleanup, rl_message,
      rl_callback_handler_remove.
    destruct signal as [sfd|]; cbv [bind emit modify ret];
      destruct s3 as [d l t g r tr]; cbn;
      rewrite <- !app_assoc; reflexivity. }
  exists s3. eexists. exists called.
  split; [exact Hrel|]. split; [exact Hrun|]. split; [exact Htr3|].
  split; [exact Hcalled|]. split; [reflexivity|].
  split; [|split; [reflexivity|split; [reflexivity|]]].
  - cbn [trace with_main_loop with_trace]. rewrite Htr3.
    rewrite !prompt_calls_app, (prompt_calls_api called Hcalled).
    assert (Hd : prompt_calls (detach_events s3) = []).
    { unfold detach_events. destruct (data_input (data s3)); reflexivity. }
    assert (Ht : prompt_calls (teardown_events signal) = []).
    { unfold teardown_events. destruct signal; reflexivity. }
    rewrite Hd, Ht, !app_nil_r. reflexivity.
  - intros pre label msg func user_data rest Hscript Hpre.
    destruct (bt_shell_release_prompt_first_request E s2 "" f pre label msg
                func user_data rest Hp Hf Hscript Hpre)
      as (s3' & Hrel' & Hsaved).
    rewrite Hrel in Hrel'. injection Hrel' as <-. exact Hsaved.
Qed.

(** X21: a question asked at shutdown is never answered.  When the loop
    has exited with an override pending, [bt_shell_run] releases it with
    the empty string; if the callback called asks for a prompt in turn,
    that request is accepted, and it is still pending when [bt_shell_run]
    returns: of all prompt callbacks, only the one that was pending at the
    end of the loop has been called since. *)
Theorem bt_shell_run_leaves_request_pending (E : environment)
  (mask_rc fd : Z) (events : list reactor_event) (s s1 s2 : shell)
  (signal : option Z) (f : prompt_func) (pre rest : list api_call)
  (label msg : string) (func : option prompt_func) (user_data : Z) :
  setup_signalfd mask_rc fd s = Ret signal s1 ->
  g_main_loop_run E signal events s1 = Ret tt s2 ->
  data_saved_prompt (data s2) = true ->
  data_saved_func (data s2) = Some f ->
  env_prompt_body E f "" (data_saved_user_data (data s2)) (released f "" s2)
  = pre ++ Api_prompt_input label msg func user_data :: rest ->
  Forall (fun a => requests_prompt a = false) pre ->
  exists s4,
    bt_shell_run E mask_rc fd events s = Ret tt s4 /\
    saved s4 = (true, func, user_data) /\
    prompt_calls (trace s4) =
    prompt_calls (trace s2) ++ [(f, "", data_saved_user_data (data s2))].
Proof.
  intros Hsetup Hloop Hp Hf Hscript Hpre.
  destruct (bt_shell_release_prompt_first_request E s2 "" f pre label msg func
              user_data rest Hp Hf Hscript Hpre) as (s3 & Hrel & Hsaved).
  destruct (bt_shell_release_prompt_returns E "" s2 f Hp Hf)
    as (s3' & Hrel' & [(called & Htr & Hcalled) _ _ _ _ _]).
  rewrite Hrel in Hrel'. injection Hrel' as <-.
  eexists. split; [|split].
  - unfold bt_shell_run.
    rewrite (bind_Ret _ _ _ _ _ Hsetup), (bind_Ret _ _ _ _ _ Hloop).
    rewrite (bind_Ret _ _ _ _ _ Hrel). apply bt_shell_run_teardown.
  - exact Hsaved.
  - cbn [trace with_main_loop with_trace]. rewrite Htr. unfold released.
    cbn [trace with_trace].
    rewrite !prompt_calls_app, (prompt_calls_api called Hcalled).
    assert (Hd : prompt_calls (detach_events s3) = []).
    { unfold detach_events. destruct (data_input (data s3)); reflexivity. }
    assert (Ht : prompt_calls (teardown_events signal) = []).
    { unfold teardown_events. destruct signal; reflexivity. }
    rewrite Hd, Ht, !app_nil_r. reflexivity.
Qed.
(** ** The further properties at work *)

Ltac pass_over :=
  repeat (constructor; [first [left; discriminate | right; reflexivity]|]);
  constructor.

(** While the demo application's line is being edited and nothing is
    pending, a text is printed between a save and a restore of the prompt,
    and the state is otherwise the same. *)
Lemma bt_shell_printf_keeps_line_witness :
  exists evs,
    bt_shell_printf "hi" attached
    = Ret tt (with_trace (trace attached ++ evs) attached) /\
    evs = [RlSavePrompt; RlRedisplay; Printf "hi"; RlRestorePrompt;
           RlForcedUpdateDisplay].
Proof.
  destruct (bt_shell_printf_keeps_line "hi" attached)
    as (evs & Hrun & _ & _ & _ & H).
  exists evs. split; [exact Hrun | exact (H eq_refl eq_refl)].
Defined.

(** In the demo application [p] starts no built-in, so the application's
    two commands are offered. *)
Lemma shell_completion_command_witness :
  exists s', shell_completion demo "p" 0 1 attached
             = Ret (Some ["pair"; "power"]) s'.
Proof.
  destruct (shell_completion_command demo attached "p" 0 1 ltac:(lia))
    as (_ & H & _).
  destruct (H demo_menu eq_refl) as (s' & Hrun & _).
  exists s'. exact Hrun.
Defined.

(** With a [quit] of the application's own, the line [quit now] reaches
    handler 2 and the loop is not asked to stop. *)
Lemma shell_exec_application_first_witness :
  exists s' called,
    shell_exec demo (Some "quit") (Some "now") own_quit = Ret tt s' /\
    trace s' = trace own_quit ++ CallCmd 2 (Some "now") :: called /\
    quit_requests (trace s') = quit_requests (trace own_quit).
Proof.
  destruct (shell_exec_application_first demo own_quit
              [mkEntry "quit" None None (Some "Quit (disabled)") None None]
              []
              (mkEntry "quit" (Some "[now]") (Some (CbApp 2))
                       (Some "Ask, then quit") None None)
              "quit" (Some "now") 2 eq_refl
              ltac:(pass_over) eq_refl eq_refl)
    as (s' & called & Hrun & Htr & _ & Hq & _).
  exists s', called. repeat split; assumption.
Defined.

(** In the demo application [quit now] asks the loop to stop. *)
Lemma shell_exec_builtin_witness :
  shell_exec demo (Some "quit") (Some "now") attached =
  Ret tt (with_main_loop (Some false)
                         (with_trace [MainLoopQuit] attached)).
Proof.
  destruct (shell_exec_builtin demo attached demo_menu (Some "now") eq_refl)
    as (H & _).
  apply (H "quit" (or_introl eq_refl)). pass_over.
Defined.

(** The line of [pair] in the help listing: 39 spaces behind the
    arguments. *)
Lemma print_menu_columns_witness :
  print_menu demo "pair" "<dev>" "Pair with device" attached =
  Ret tt (with_trace
            [Printf (env_COLOR_HIGHLIGHT demo +:+ "pair" +:+ " "
                       +:+ ("<dev>" +:+ spaces 39) +:+ " "
                       +:+ env_COLOR_OFF demo +:+ "Pair with device" +:+ nl)]
            attached) /\
  strlen ("pair" +:+ " " +:+ ("<dev>" +:+ spaces 39) +:+ " ") = 50.
Proof.
  destruct (print_menu_columns demo "pair" "<dev>" "Pair with device" attached
              ltac:(reflexivity)) as (H & _).
  exact (H ltac:(simpl; lia)).
Defined.

(** From the initial state, attaching descriptor 0 and detaching again. *)
Lemma bt_shell_attach_detach_witness :
  bind (bt_shell_attach 0) (fun _ => bt_shell_detach) initial =
  Ret true (with_trace [IoNew 0%Z; IoDestroy 0%Z] initial).
Proof.
  destruct (bt_shell_attach_detach initial 0 1) as (_ & H & _).
  destruct (H eq_refl) as (_ & _ & _ & Hround & _). exact Hround.
Defined.

(** The session of the demo application, once [bt_shell_run] has
    returned. *)
Lemma bt_shell_run_leaves_idle_witness :
  main_loop session_end = None /\
  data_input (data session_end) = None /\
  data_menu (data session_end) = Some demo_menu /\
  bt_shell_set_prompt "[dev]# " session_end = Ret tt session_end.
Proof.
  destruct (bt_shell_run_leaves_idle demo 0 5 pair_then_sigterm attached
              session_end ltac:(vm_compute; reflexivity))
    as (Hl & Hi & _ & Hm & Hp & _).
  split; [exact Hl|]. split; [exact Hi|].
  split; [exact (proj1 (Hm demo_menu eq_refl)) | apply Hp].
Defined.

(** A hang-up of the demo application's input ends the loop; the SIGTERM
    behind it is not handled. *)
Lemma g_main_loop_run_ends_witness :
  exists s',
    g_main_loop_run demo (Some 5%Z)
                    [Ev_input_hup; Ev_signal_read (Some SIGTERM)] attached
    = Ret tt s' /\
    main_loop s' = Some false /\
    quit_requests (trace s') = quit_requests (trace attached) + 1.
Proof.
  destruct (g_main_loop_run_ends demo (Some 5%Z) Ev_input_hup
              [Ev_signal_read (Some SIGTERM)] attached
              ltac:(discriminate) eq_refl)
    as (s' & Hrun & _ & Hl & Hq & _).
  exists s'. repeat split; assumption.
Defined.

(** The loop of the demo session returned after one stop request. *)
Lemma g_main_loop_run_returns_after_quit_witness :
  main_loop session_loop_exit = Some false /\
  quit_requests (trace session_set_up)
  < quit_requests (trace session_loop_exit).
Proof.
  pose proof (proj1 (g_main_loop_run_returns_after_quit demo (Some 5%Z)
                       pair_then_sigterm session_set_up)
                    ltac:(discriminate)) as H.
  exact H.
Defined.

(** While the demo application waits for a passkey, the line [quit] is
    the passkey: the loop is not asked to stop and the history stays
    empty. *)
Lemma rl_handler_prompt_answer_witness :
  exists s' called,
    rl_handler demo (Some "quit") awaiting = Ret tt s' /\
    trace s' = trace awaiting ++ [RlRestorePrompt; CallPrompt 7 "quit" 42]
                 ++ called /\
    the_history (rl s') = [] /\
    quit_requests (trace s') = quit_requests (trace awaiting).
Proof.
  destruct (rl_handler_prompt_answer demo awaiting "quit" 7
              ltac:(discriminate) eq_refl eq_refl)
    as (s' & called & Hrun & Htr & _ & Hh & _ & Hq & _).
  exists s', called. repeat split; assumption.
Defined.

(** The demo application's passkey callback prints a line and then asks
    for a confirmation on behalf of callback 9: that request is pending
    when the release returns. *)
Lemma bt_shell_release_prompt_chained_witness :
  exists s',
    bt_shell_release_prompt demo "1234" awaiting = Ret 0%Z s' /\
    saved s' = (true, Some 9, 43%Z).
Proof.
  destruct (bt_shell_release_prompt_chained demo awaiting "1234" 7
              eq_refl eq_refl) as (H & _).
  apply (H [Api_printf ("got " +:+ "1234" +:+ nl)] "agent" "Confirm:"
           (Some 9) 43%Z [] eq_refl).
  repeat constructor.
Defined.

(** A request with a NULL callback in the demo application, and the
    answer to it. *)
Lemma bt_shell_prompt_input_null_callback_witness :
  bind (bt_shell_prompt_input demo "agent" "PIN:" None 0)
       (fun _ => rl_handler demo (Some "1234")) attached = Crash.
Proof.
  destruct (bt_shell_prompt_input_null_callback demo attached "agent" "PIN:"
              0 "1234" eq_refl) as (_ & _ & H).
  apply H. discriminate.
Defined.

Lemma demo_application_ok : application_ok demo.
Proof.
  split.
  - intros [|id] arg s; repeat constructor.
  - intros f input user_data s.
    do 8 (destruct f as [|f]; [repeat constructor|]). constructor.
Qed.

(** The session of the demo application runs to its end, and the request
    left pending has its callback. *)
Lemma bt_shell_run_calls_no_null_witness :
  bt_shell_run demo 0 5 pair_then_sigterm attached = Ret tt session_end /\
  prompt_ok session_end.
Proof.
  pose proof (bt_shell_run_calls_no_null demo 0 5 pair_then_sigterm attached
                demo_application_ok ltac:(repeat constructor)
                ltac:(intros H; discriminate H)) as H.
  assert (Hrun : bt_shell_run demo 0 5 pair_then_sigterm attached
                 = Ret tt session_end) by (vm_compute; reflexivity).
  rewrite Hrun in H. split; [exact Hrun | exact H].
Defined.

(** With no table attached and a text that starts no built-in,
    [cmd_generator] on its own runs into the NULL table. *)
Lemma shell_completion_returns_witness :
  cmd_generator "x" 0 initial = Crash.
Proof.
  destruct (shell_completion_returns demo initial "x" 0 0) as (_ & H).
  exact (H eq_refl eq_refl).
Defined.

(** The dump of the twenty sample bytes, read back. *)
Lemma bt_shell_hexdump_lossless_witness :
  exists s' evs,
    bt_shell_hexdump (repeat NUL 68) sample_bytes attached = Ret tt s' /\
    trace s' = trace attached ++ evs /\
    flat_map decode_row (printed evs) = sample_bytes.
Proof.
  destruct (bt_shell_hexdump_lossless (repeat NUL 68) sample_bytes attached
              eq_refl) as (s' & evs & Hrun & Htr & Hdec & _).
  exists s', evs. repeat split; assumption.
Defined.

(** In the demo application the line [quit] ends the loop. *)
Lemma g_main_loop_run_quit_line_witness :
  exists s',
    g_main_loop_run demo (Some 5%Z)
      [Ev_input_read (Rl_line (Some "quit")); Ev_input_hup] attached
    = Ret tt s' /\
    main_loop s' = Some false /\
    trace s' = trace attached ++ [MainLoopQuit].
Proof.
  destruct (g_main_loop_run_quit_line demo (Some 5%Z) [Ev_input_hup] attached
              "quit" 0 (or_introl eq_refl) ltac:(discriminate) eq_refl eq_refl)
    as (H & _).
  apply (H demo_menu eq_refl). pass_over.
Defined.

(** The demo session registers the signal descriptor, and unregisters it
    and the input: two registrations are outstanding at no time after
    the return. *)
Lemma bt_shell_run_unregisters_witness :
  input_held session_end = 0 /\
  registrations (trace session_end) + 0 + 1
  = 0 + unregistrations (trace session_end).
Proof.
  destruct (bt_shell_run_unregisters demo 0 5 pair_then_sigterm attached
              session_end ltac:(vm_compute; reflexivity)) as (H0 & H & _).
  split; [exact H0 | exact H].
Defined.

(** The demo session ended with a SIGTERM.  A second run started from
    the state it left returns with the flag still set, and a further
    SIGTERM changes nothing. *)
Lemma terminated_stays_set_witness :
  exists s',
    bt_shell_run demo 0 5 [] session_end = Ret tt s' /\
    terminated s' = true /\
    signal_read (Some SIGTERM) s' = Ret false s'.
Proof.
  pose proof (terminated_stays_set demo 0 5 [] session_end eq_refl) as H.
  assert (Hrun : bt_shell_run demo 0 5 [] session_end
                 = Ret tt (default session_end
                             (state_after (bt_shell_run demo 0 5 [])
                                          session_end)))
    by (vm_compute; reflexivity).
  rewrite Hrun in H. destruct H as (Ht & Hs & _).
  eexists. split; [exact Hrun|]. split; [exact Ht | exact Hs].
Defined.

(** In the demo session the passkey callback, released at shutdown, asks
    for a confirmation: callback 9 is pending when the run has returned,
    and only callback 7 has been called. *)
Lemma bt_shell_run_leaves_request_pending_witness :
  exists s4,
    bt_shell_run demo 0 5 pair_then_sigterm attached = Ret tt s4 /\
    saved s4 = (true, Some 9, 43%Z) /\
    prompt_calls (trace s4) = [(7, "", 42%Z)].
Proof.
  apply (bt_shell_run_leaves_request_pending demo 0 5 pair_then_sigterm
           attached session_set_up session_loop_exit (Some 5%Z) 7
           [Api_printf ("got " +:+ "" +:+ nl)] [] "agent" "Confirm:"
           (Some 9) 43%Z);
    try reflexivity.
  repeat constructor.
Defined.

(** ** Shutdown with a request pending *)

(** Against C10 as stated: in the demo session the passkey callback,
    released at shutdown, asks for a confirmation; when the run has
    returned that request is pending, and its callback 9 has not been
    called. *)
Lemma bt_shell_run_drops_requested_prompt :
  bt_shell_run demo 0 5 pair_then_sigterm attached = Ret tt session_end /\
  saved session_end = (true, Some 9, 43%Z) /\
  prompt_calls (trace session_end) = [(7, "", 42%Z)].
Proof. repeat split; vm_compute; reflexivity. Qed.

(** The passkey request left pending by SIGTERM is released with the empty
    string before the run returns; the confirmation its callback asks for
    stays pending. *)
Lemma bt_shell_run_releases_prompt_witness :
  (setup_signalfd 0 5 attached = Ret (Some 5%Z) session_set_up /\
   g_main_loop_run demo (Some 5%Z) pair_then_sigterm session_set_up
   = Ret tt session_loop_exit /\
   data_saved_prompt (data session_loop_exit) = true /\
   data_saved_func (data session_loop_exit) = Some 7) /\
  exists s4,
    bt_shell_run demo 0 5 pair_then_sigterm attached = Ret tt s4 /\
    prompt_calls (trace s4) = [(7, "", 42%Z)] /\
    data_input (data s4) = None /\
    saved s4 = (true, Some 9, 43%Z).
Proof.
  split; [repeat split; reflexivity|].
  destruct (bt_shell_run_releases_prompt demo 0 5 pair_then_sigterm attached
              session_set_up session_loop_exit (Some 5%Z) 7
              eq_refl eq_refl eq_refl eq_refl)
    as (s3 & s4 & called & _ & Hrun & _ & _ & _ & Hcalls & Hin & _ & Hreq).
  exists s4. split; [exact Hrun|]. split; [exact Hcalls|]. split; [exact Hin|].
  apply (Hreq [Api_printf ("got " +:+ "" +:+ nl)] "agent" "Confirm:"
              (Some 9) 43%Z []); [reflexivity | repeat constructor].
Defined.
